(** * MoMemory: memory lifecycle, reconciliation and access control

    A shallow embedding of the relational core of the MoMemory API:

    - [app/models.py]: the tables and [categorize_memory];
    - [app/mcp_utils.py]: [_sync_memory_to_pg], the reconciler that mirrors a
      vector-store result into the relational store;
    - [app/routers/memories.py]: [update_memory_state],
      [get_accessible_memory_ids], [delete_memories], and the two REST write
      paths [create_memory] / [update_memory_content] that the reconciler is
      compared with;
    - [app/routers/apps.py]: [delete_app].

    Tables are lists of rows in storage order.  A SQLAlchemy session is a
    pair of database images (what is committed, and what the open
    transaction sees) plus the flag that a failed flush leaves behind.
    Python exceptions are values of [exn], and code runs in a small state and
    exception monad so that every [try]/[except] of the source is visible. *)

From Stdlib Require Import String Ascii List NArith ZArith Bool Lia.
From stdpp Require Import base gmap sets.
Import ListNotations.

Local Open Scope string_scope.
Local Open Scope N_scope.

(** ** Scalars *)

(** A UUID is its 128-bit integer value. *)
Definition UUID := N.
(** A timestamp: any linear clock value. *)
Definition Time := N.

(** [models.py], [class MemoryState(enum.Enum)]. *)
Inductive MemoryState := active | paused | archived | deleted.

Definition MemoryState_eqb (a b : MemoryState) : bool :=
  match a, b with
  | active, active | paused, paused | archived, archived | deleted, deleted => true
  | _, _ => false
  end.

(** A JSON object as stored in a [metadata] column: keys with string values,
    [None] standing for JSON [null]. *)
Definition JsonObject := list (string * option string).

Fixpoint json_get (k : string) (o : JsonObject) : option string :=
  match o with
  | [] => None
  | (k', v) :: o' => if String.eqb k k' then v else json_get k o'
  end.

(** Python truthiness of an optional string ([None] and [''] are falsy) and
    of an optional dict ([None] and [{}] are falsy). *)
Definition truthy_str (s : option string) : bool :=
  match s with
  | Some (String _ _) => true
  | _ => false
  end.

Definition truthy_obj (o : option JsonObject) : bool :=
  match o with
  | Some (_ :: _) => true
  | _ => false
  end.

(** [needle in hay] on Python strings. *)
Fixpoint str_contains (hay needle : string) : bool :=
  String.prefix needle hay ||
  match hay with
  | EmptyString => false
  | String _ hay' => str_contains hay' needle
  end.

Definition opt_eqb {A} (eqb : A -> A -> bool) (x y : option A) : bool :=
  match x, y with
  | Some a, Some b => eqb a b
  | None, None => true
  | _, _ => false
  end.

Definition is_null {A} (x : option A) : bool :=
  match x with
  | None => true
  | Some _ => false
  end.

(** ** Rows ([models.py])

    Columns that none of the embedded functions reads or writes
    ([description], [vector], the [created_at]/[updated_at] defaults of
    tables other than [apps], ...) are left out.  A column declared
    [nullable=False] that the code may nevertheless try to fill with [None]
    keeps an [option] type; the constraint is checked when the session
    flushes (see [schema_ok]). *)

Record User := {
  u_id : UUID;
  u_user_id : string;
  u_email : option string;
  u_is_admin : bool
}.

Record App := {
  a_id : UUID;
  a_owner_id : UUID;
  a_name : string;
  a_is_active : bool;
  a_created_at : Time;
  a_agent_id : option Z
}.

Record Memory := {
  m_id : UUID;
  m_user_id : UUID;
  m_app_id : option UUID;         (* nullable=False *)
  m_content : option string;      (* nullable=False *)
  m_metadata : JsonObject;
  m_state : MemoryState;
  m_archived_at : option Time;
  m_deleted_at : option Time
}.

Record Category := {
  c_id : UUID;
  c_name : string
}.

Record AccessControl := {
  ac_subject_type : string;
  ac_subject_id : option UUID;
  ac_object_type : string;
  ac_object_id : option UUID;
  ac_effect : string
}.

Record MemoryStatusHistory := {
  h_id : UUID;
  h_memory_id : UUID;
  h_changed_by : UUID;
  h_old_state : MemoryState;
  h_new_state : MemoryState
}.

Record MemoryAccessLog := {
  l_id : UUID;
  l_memory_id : UUID;
  l_app_id : option UUID;         (* nullable=False *)
  l_access_type : string;
  l_metadata : JsonObject
}.

(** The database: one list per table, rows in storage order (the order an
    unordered [SELECT] returns them in). *)
Record DB := {
  users : list User;
  apps : list App;
  memories : list Memory;
  categories : list Category;
  memory_categories : list (UUID * UUID);   (* memory_id, category_id *)
  access_controls : list AccessControl;
  memory_status_history : list MemoryStatusHistory;
  memory_access_logs : list MemoryAccessLog
}.

(** ** Access control resolver ([routers/memories.py], lines 108-145) *)

Module ACL.

(** The filter of the query: [subject_type == "app"], [subject_id == app_id],
    [object_type == "memory"]. *)
Definition app_rule (app_id : UUID) (r : AccessControl) : bool :=
  String.eqb (ac_subject_type r) "app"
  && opt_eqb N.eqb (ac_subject_id r) (Some app_id)
  && String.eqb (ac_object_type r) "memory".

(** The [for rule in app_access] loop with its two accumulators.  [None] is
    Python's [None] (every memory is accessible); [Some s] is a set. *)
Fixpoint process_rules (rules : list AccessControl)
    (allowed_memory_ids denied_memory_ids : gset UUID) : option (gset UUID) :=
  match rules with
  | [] =>
      (* if allowed_memory_ids: allowed_memory_ids -= denied_memory_ids *)
      Some (if bool_decide (allowed_memory_ids = ∅) then allowed_memory_ids
            else allowed_memory_ids ∖ denied_memory_ids)
  | rule :: rest =>
      if String.eqb (ac_effect rule) "allow" then
        match ac_object_id rule with
        | Some oid => process_rules rest ({[oid]} ∪ allowed_memory_ids) denied_memory_ids
        | None => None                       (* return None *)
        end
      else if String.eqb (ac_effect rule) "deny" then
        match ac_object_id rule with
        | Some oid => process_rules rest allowed_memory_ids ({[oid]} ∪ denied_memory_ids)
        | None => Some ∅                     (* return set() *)
        end
      else process_rules rest allowed_memory_ids denied_memory_ids
  end.

Definition get_accessible_memory_ids (db : DB) (app_id : UUID) : option (gset UUID) :=
  let app_access := List.filter (app_rule app_id) (access_controls db) in
  match app_access with
  | [] => None                               (* if not app_access: return None *)
  | _ => process_rules app_access ∅ ∅
  end.

(** Rules with a null [object_id]: blanket allow and blanket deny. *)
Definition allow_all (r : AccessControl) : bool :=
  String.eqb (ac_effect r) "allow" && is_null (ac_object_id r).

Definition deny_all (r : AccessControl) : bool :=
  String.eqb (ac_effect r) "deny" && is_null (ac_object_id r).

End ACL.

(** ** The platform outside the repository

    What the embedded code takes from Python and from the database backend:
    the parsers [uuid.UUID(s)] and [int(s)] ([None] is [ValueError]), the
    sources of fresh identifiers and of time, and whether the backend rejects
    a comparison of a UUID column with a value that is not a UUID
    (PostgreSQL raises; a permissive backend finds no row).  Every theorem
    holds for every platform. *)
Record Platform := {
  UUID_of_string : string -> option UUID;
  int_of_string : string -> option Z;
  strict_uuid_compare : bool;
  uuid4_at : nat -> UUID;
  utcnow_at : nat -> Time
}.

(** ** Exceptions, sessions and the monad *)

Inductive exn :=
| ValueError
| TypeError
| DataError                       (* backend rejected a statement *)
| IntegrityError                  (* a constraint failed at flush *)
| PendingRollbackError            (* session used after a failed flush *)
| HTTPException (status : nat)
| CategorizationError.            (* raised by the categorization collaborator *)

Inductive Outcome (A : Type) :=
| Ret (a : A)
| Raise (e : exn).
Arguments Ret {A} a.
Arguments Raise {A} e.

(** [committed] is what other sessions see; [pending] is what this
    session's open transaction sees (flushed or not: no embedded function
    queries between an ORM mutation and the next flush).  [inactive] is set by
    a failed flush and cleared by [rollback]. *)
Record World := {
  committed : DB;
  pending : DB;
  inactive : bool;
  uuid_draws : nat;
  clock_reads : nat
}.

Definition M (A : Type) : Type := World -> Outcome A * World.

#[global] Instance M_ret : MRet M := fun A a w => (Ret a, w).
#[global] Instance M_bind : MBind M := fun A B f m w =>
  match m w with
  | (Ret a, w') => f a w'
  | (Raise e, w') => (Raise e, w')
  end.

Definition raise {A} (e : exn) : M A := fun w => (Raise e, w).

(** [try: body except <handles>: handler]. *)
Definition try_except {A} (body : M A) (handles : exn -> bool) (handler : exn -> M A) : M A :=
  fun w =>
    match body w with
    | (Ret a, w') => (Ret a, w')
    | (Raise e, w') => if handles e then handler e w' else (Raise e, w')
    end.

(** Every member of [exn] is a subclass of Python's [Exception]. *)
Definition Exception (e : exn) : bool := true.
Definition only_ValueError (e : exn) : bool :=
  match e with
  | ValueError => true
  | _ => false
  end.

Definition lift {A} (o : Outcome A) : M A := fun w => (o, w).

(** Record updates. *)
Definition with_pending (d : DB) (w : World) : World :=
  {| committed := committed w; pending := d; inactive := inactive w;
     uuid_draws := uuid_draws w; clock_reads := clock_reads w |}.

Definition with_memories (ms : list Memory) (d : DB) : DB :=
  {| users := users d; apps := apps d; memories := ms; categories := categories d;
     memory_categories := memory_categories d; access_controls := access_controls d;
     memory_status_history := memory_status_history d;
     memory_access_logs := memory_access_logs d |}.

Definition with_apps (l : list App) (d : DB) : DB :=
  {| users := users d; apps := l; memories := memories d; categories := categories d;
     memory_categories := memory_categories d; access_controls := access_controls d;
     memory_status_history := memory_status_history d;
     memory_access_logs := memory_access_logs d |}.

Definition with_categories (l : list Category) (d : DB) : DB :=
  {| users := users d; apps := apps d; memories := memories d; categories := l;
     memory_categories := memory_categories d; access_controls := access_controls d;
     memory_status_history := memory_status_history d;
     memory_access_logs := memory_access_logs d |}.

Definition with_memory_categories (l : list (UUID * UUID)) (d : DB) : DB :=
  {| users := users d; apps := apps d; memories := memories d; categories := categories d;
     memory_categories := l; access_controls := access_controls d;
     memory_status_history := memory_status_history d;
     memory_access_logs := memory_access_logs d |}.

Definition with_history (l : list MemoryStatusHistory) (d : DB) : DB :=
  {| users := users d; apps := apps d; memories := memories d; categories := categories d;
     memory_categories := memory_categories d; access_controls := access_controls d;
     memory_status_history := l;
     memory_access_logs := memory_access_logs d |}.

Definition with_access_logs (l : list MemoryAccessLog) (d : DB) : DB :=
  {| users := users d; apps := apps d; memories := memories d; categories := categories d;
     memory_categories := memory_categories d; access_controls := access_controls d;
     memory_status_history := memory_status_history d;
     memory_access_logs := l |}.

(** The [nullable=False] columns that the code can try to fill with [None]. *)
Definition schema_ok (d : DB) : bool :=
  forallb (fun m => negb (is_null (m_app_id m)) && negb (is_null (m_content m))) (memories d)
  && forallb (fun l => negb (is_null (l_app_id l))) (memory_access_logs d).

Module Session.

Definition gets {A} (f : World -> A) : M A := fun w => (Ret (f w), w).
Definition modify (f : World -> World) : M unit := fun w => (Ret tt, f w).

Definition set_inactive (b : bool) (w : World) : World :=
  {| committed := committed w; pending := pending w; inactive := b;
     uuid_draws := uuid_draws w; clock_reads := clock_reads w |}.

Definition publish (w : World) : World :=
  {| committed := pending w; pending := pending w; inactive := false;
     uuid_draws := uuid_draws w; clock_reads := clock_reads w |}.

Definition discard (w : World) : World :=
  {| committed := committed w; pending := committed w; inactive := false;
     uuid_draws := uuid_draws w; clock_reads := clock_reads w |}.

(** Any statement sent through an inactive session raises. *)
Definition guard_active : M unit := fun w =>
  if inactive w then (Raise PendingRollbackError, w) else (Ret tt, w).

(** [db.query(T).filter(p).first()] and [.all()]. *)
Definition query_first {A} (table : DB -> list A) (p : A -> bool) : M (option A) :=
  guard_active;; gets (fun w => List.find p (table (pending w))).

Definition query_all {A} (table : DB -> list A) (p : A -> bool) : M (list A) :=
  guard_active;; gets (fun w => List.filter p (table (pending w))).

(** [db.add(obj)], [db.delete(obj)] and attribute assignment on a loaded
    object: recorded in the session, written at the next flush. *)
Definition stage (f : DB -> DB) : M unit :=
  modify (fun w => with_pending (f (pending w)) w).

(** [db.execute(...)] and bulk [query.delete()]: sent at once. *)
Definition execute (f : DB -> DB) : M unit := guard_active;; stage f.

(** A flush that violates the schema raises and leaves the session
    inactive until [rollback]. *)
Definition flush : M unit :=
  guard_active;;
  ok ← gets (fun w => schema_ok (pending w));
  if ok : bool then mret tt
  else (modify (set_inactive true);; raise IntegrityError).

Definition commit : M unit := flush;; modify publish.

Definition rollback : M unit := modify discard.

(** [db.refresh(obj)]: a [SELECT] of the row. *)
Definition refresh : M unit := guard_active.

(** A statement that the backend rejects: the transaction is aborted, and
    the session raises on every use until [rollback]. *)
Definition reject {A} : M A :=
  guard_active;; modify (set_inactive true);; raise DataError.

End Session.

Definition next_draw (w : World) : World :=
  {| committed := committed w; pending := pending w; inactive := inactive w;
     uuid_draws := S (uuid_draws w); clock_reads := clock_reads w |}.

Definition next_tick (w : World) : World :=
  {| committed := committed w; pending := pending w; inactive := inactive w;
     uuid_draws := uuid_draws w; clock_reads := S (clock_reads w) |}.

Section Runtime.
Variable P : Platform.

(** [uuid.uuid4()], the [default] of every [id] column. *)
Definition uuid4 : M UUID := fun w => (Ret (uuid4_at P (uuid_draws w)), next_draw w).

(** [datetime.datetime.now(datetime.UTC)]. *)
Definition utcnow : M Time := fun w => (Ret (utcnow_at P (clock_reads w)), next_tick w).

(** [UUID(s)]: [TypeError] on [None], [ValueError] on a malformed string. *)
Definition UUID_ (s : option string) : M UUID :=
  match s with
  | None => raise TypeError
  | Some s =>
      match UUID_of_string P s with
      | Some u => mret u
      | None => raise ValueError
      end
  end.

Definition int_ (s : string) : M Z :=
  match int_of_string P s with
  | Some z => mret z
  | None => raise ValueError
  end.

End Runtime.

(** ** Row updates used by the embedded functions *)

(** Attribute assignment on the loaded [Memory] with primary key [mid]. *)
Definition update_memory (mid : UUID) (f : Memory -> Memory) (d : DB) : DB :=
  with_memories (List.map (fun m => if m_id m =? mid then f m else m) (memories d)) d.

Definition set_state (s : MemoryState) (m : Memory) : Memory :=
  {| m_id := m_id m; m_user_id := m_user_id m; m_app_id := m_app_id m;
     m_content := m_content m; m_metadata := m_metadata m; m_state := s;
     m_archived_at := m_archived_at m; m_deleted_at := m_deleted_at m |}.

Definition set_archived_at (t : Time) (m : Memory) : Memory :=
  {| m_id := m_id m; m_user_id := m_user_id m; m_app_id := m_app_id m;
     m_content := m_content m; m_metadata := m_metadata m; m_state := m_state m;
     m_archived_at := Some t; m_deleted_at := m_deleted_at m |}.

Definition set_deleted_at (t : Time) (m : Memory) : Memory :=
  {| m_id := m_id m; m_user_id := m_user_id m; m_app_id := m_app_id m;
     m_content := m_content m; m_metadata := m_metadata m; m_state := m_state m;
     m_archived_at := m_archived_at m; m_deleted_at := Some t |}.

Definition set_content (c : option string) (m : Memory) : Memory :=
  {| m_id := m_id m; m_user_id := m_user_id m; m_app_id := m_app_id m;
     m_content := c; m_metadata := m_metadata m; m_state := m_state m;
     m_archived_at := m_archived_at m; m_deleted_at := m_deleted_at m |}.

Definition set_metadata (j : JsonObject) (m : Memory) : Memory :=
  {| m_id := m_id m; m_user_id := m_user_id m; m_app_id := m_app_id m;
     m_content := m_content m; m_metadata := j; m_state := m_state m;
     m_archived_at := m_archived_at m; m_deleted_at := m_deleted_at m |}.

Definition add_memory (m : Memory) (d : DB) : DB := with_memories (memories d ++ [m]) d.
Definition add_category (c : Category) (d : DB) : DB := with_categories (categories d ++ [c]) d.
Definition add_history (h : MemoryStatusHistory) (d : DB) : DB :=
  with_history (memory_status_history d ++ [h]) d.
Definition add_access_log (l : MemoryAccessLog) (d : DB) : DB :=
  with_access_logs (memory_access_logs d ++ [l]) d.
Definition insert_memory_category (mid cid : UUID) (d : DB) : DB :=
  with_memory_categories (memory_categories d ++ [(mid, cid)]) d.

Definition mem_uuid (x : UUID) (l : list UUID) : bool := List.existsb (N.eqb x) l.

(** ** Categorization trigger ([models.py], lines 211-266) *)

Section Categorize.
Variable P : Platform.
(** The collaborator [get_categories_for_memory], applied to the content of
    the memory: labels, or an exception. *)
Variable get_categories_for_memory : option string -> Outcome (list string).

(** The body of [for category_name in categories]. *)
Fixpoint categorize_each (memory_id : UUID) (names : list string) : M unit :=
  match names with
  | [] => mret tt
  | category_name :: rest =>
      found ← Session.query_first categories (fun c => String.eqb (c_name c) category_name);
      category ← match found with
                 | Some c => mret c
                 | None =>
                     cid ← uuid4 P;
                     let c := {| c_id := cid; c_name := category_name |} in
                     Session.stage (add_category c);;
                     Session.flush;;
                     mret c
                 end;
      existing ← Session.query_first memory_categories
                   (fun r => (fst r =? memory_id) && (snd r =? c_id category));
      match existing with
      | None => Session.execute (insert_memory_category memory_id (c_id category))
      | Some _ => mret tt
      end;;
      categorize_each memory_id rest
  end.

Definition categorize_memory (memory : Memory) : M unit :=
  try_except
    (categories ← lift (get_categories_for_memory (m_content memory));
     categorize_each (m_id memory) categories;;
     Session.commit)
    Exception
    (fun _ => Session.rollback).

End Categorize.

(** ** State machine and batch delete ([routers/memories.py], lines 78-105
    and 428-453) *)

Section Memories.
Variable P : Platform.

Definition get_memory_or_404 (memory_id : UUID) : M Memory :=
  found ← Session.query_first memories (fun m => m_id m =? memory_id);
  match found with
  | Some memory => mret memory
  | None => raise (HTTPException 404)
  end.

Definition update_memory_state (memory_id : UUID) (new_state : MemoryState)
    (user_id : UUID) : M Memory :=
  memory ← get_memory_or_404 memory_id;
  let old_state := m_state memory in
  let memory := set_state new_state memory in
  memory ← match new_state with
           | archived => now ← utcnow P; mret (set_archived_at now memory)
           | deleted => now ← utcnow P; mret (set_deleted_at now memory)
           | _ => mret memory
           end;
  Session.stage (update_memory memory_id (fun _ => memory));;
  hid ← uuid4 P;
  Session.stage (add_history {| h_id := hid; h_memory_id := memory_id;
                                h_changed_by := user_id;
                                h_old_state := old_state; h_new_state := new_state |});;
  Session.commit;;
  mret memory.

(** The loop of [delete_memories]; the accumulator is [deleted_count]. *)
Fixpoint delete_memories_loop (user : User) (memory_ids : list UUID)
    (deleted_count : nat) : M nat :=
  match memory_ids with
  | [] => mret deleted_count
  | memory_id :: rest =>
      found ← Session.query_first memories (fun m => m_id m =? memory_id);
      match found with
      | None => delete_memories_loop user rest deleted_count            (* continue *)
      | Some memory =>
          if negb (u_is_admin user) && negb (m_user_id memory =? u_id user)
          then delete_memories_loop user rest deleted_count             (* continue *)
          else
            update_memory_state memory_id deleted (u_id user);;
            delete_memories_loop user rest (S deleted_count)
      end
  end.

(** Returns the ["deleted_memories"] field of the response. *)
Definition delete_memories (memory_ids : list UUID) (current_user : User) : M nat :=
  delete_memories_loop current_user memory_ids 0%nat.

End Memories.

(** ** The REST write paths ([routers/memories.py], lines 246-315 and
    752-800)

    The two sibling paths of the reconciler: what [create_memory] does with
    one [ADD] result of the vector store, and [update_memory_content]. *)

Section RestPaths.
Variable P : Platform.
Variable get_categories_for_memory : option string -> Outcome (list string).

(** Lines 246-315 of [create_memory], for one result whose event is [ADD]:
    [result_id] is [result['id']], [content] is
    [result.get('memory', request.text)]. *)
Definition create_memory_persist (result_id : string) (content : string)
    (request_metadata : JsonObject) (infer : bool) (user : User) (app_obj : App) : M Memory :=
  try_except
    (memory_id ← UUID_ P (Some result_id);
     existing_memory ← Session.query_first memories (fun m => m_id m =? memory_id);
     memory ← match existing_memory with
              | Some existing =>
                  let memory :=
                    set_metadata request_metadata
                      (set_content (Some content) (set_state active existing)) in
                  Session.stage (update_memory memory_id (fun _ => memory));;
                  Session.commit;;
                  Session.refresh;;
                  mret memory
              | None =>
                  let memory :=
                    {| m_id := memory_id; m_user_id := u_id user;
                       m_app_id := Some (a_id app_obj); m_content := Some content;
                       m_metadata := request_metadata; m_state := active;
                       m_archived_at := None; m_deleted_at := None |} in
                  Session.stage (add_memory memory);;
                  hid ← uuid4 P;
                  Session.stage (add_history
                    {| h_id := hid; h_memory_id := memory_id; h_changed_by := u_id user;
                       h_old_state := deleted; h_new_state := active |});;
                  Session.commit;;
                  Session.refresh;;
                  (if infer then
                     try_except
                       (categorize_memory P get_categories_for_memory memory;;
                        Session.commit)
                       Exception (fun _ => mret tt)
                   else mret tt);;
                  mret memory
              end;
     Session.commit;;
     Session.refresh;;
     mret memory)
    Exception
    (fun _ => Session.rollback;; raise (HTTPException 500)).

(** [update_memory_content]; returns the updated row. *)
Definition update_memory_content (memory_id : UUID) (memory_content : string)
    (current_user : User) : M Memory :=
  found ← Session.query_first memories (fun m => m_id m =? memory_id);
  match found with
  | None => raise (HTTPException 404)
  | Some memory =>
      if negb (u_is_admin current_user) && negb (m_user_id memory =? u_id current_user)
      then raise (HTTPException 403)
      else
        let previous_content := m_content memory in
        let memory := set_content (Some memory_content) memory in
        Session.stage (update_memory memory_id (fun _ => memory));;
        Session.commit;;
        Session.refresh;;
        app_obj ← Session.query_first apps
                    (fun a => opt_eqb N.eqb (Some (a_id a)) (m_app_id memory));
        try_except
          (lid ← uuid4 P;
           Session.stage (add_access_log
             {| l_id := lid; l_memory_id := m_id memory;
                l_app_id := option_map a_id app_obj;
                l_access_type := "update";
                l_metadata := [("assistant_text", m_content memory);
                               ("previous_memory", previous_content)] |});;
           Session.commit)
          Exception (fun _ => mret tt);;
        mret memory
  end.

End RestPaths.

(** ** App cascade purge ([routers/apps.py], lines 293-336) *)

Module Apps.

Definition get_app_or_404 (app_id : UUID) : M App :=
  found ← Session.query_first apps (fun a => a_id a =? app_id);
  match found with
  | Some app => mret app
  | None => raise (HTTPException 404)
  end.

Definition owned_by (app_id : UUID) (m : Memory) : bool :=
  opt_eqb N.eqb (m_app_id m) (Some app_id).

Definition delete_categories_of (ids : list UUID) (d : DB) : DB :=
  with_memory_categories
    (List.filter (fun r => negb (mem_uuid (fst r) ids)) (memory_categories d)) d.

Definition delete_access_logs_of (ids : list UUID) (d : DB) : DB :=
  with_access_logs
    (List.filter (fun l => negb (mem_uuid (l_memory_id l) ids)) (memory_access_logs d)) d.

Definition delete_history_of (ids : list UUID) (d : DB) : DB :=
  with_history
    (List.filter (fun h => negb (mem_uuid (h_memory_id h) ids)) (memory_status_history d)) d.

Definition delete_memories_of_app (app_id : UUID) (d : DB) : DB :=
  with_memories (List.filter (fun m => negb (owned_by app_id m)) (memories d)) d.

Definition delete_app_row (app_id : UUID) (d : DB) : DB :=
  with_apps (List.filter (fun a => negb (a_id a =? app_id)) (apps d)) d.

Definition delete_app (app_id : UUID) (current_user : User) : M unit :=
  app ← get_app_or_404 app_id;
  if negb (u_is_admin current_user) && negb (a_owner_id app =? u_id current_user)
  then raise (HTTPException 403)
  else
    owned ← Session.query_all memories (owned_by app_id);
    let memory_ids := List.map m_id owned in
    match memory_ids with
    | [] => mret tt
    | _ =>
        Session.execute (delete_categories_of memory_ids);;
        Session.execute (delete_access_logs_of memory_ids);;
        Session.execute (delete_history_of memory_ids)
    end;;
    Session.execute (delete_memories_of_app app_id);;
    Session.stage (delete_app_row app_id);;     (* db.delete(app): flushed by commit *)
    Session.commit.

End Apps.

(** ** Vector sync reconciler ([mcp_utils.py], lines 8-136) *)

(** The vector-store result: [result.get('id')], [result.get('memory')],
    [result.get('metadata')] and [result.get('event')]; [None] is an absent
    key. *)
Record SyncResult := {
  r_id : option string;
  r_memory : option string;
  r_metadata : option JsonObject;
  r_event : option string
}.

Section Reconciler.
Variable P : Platform.
Variable get_categories_for_memory : option string -> Outcome (list string).

(** [db.query(MemoryModel).filter(MemoryModel.id == mem_id).first()] with
    [mem_id] a string (or [None], which compiles to [IS NULL]). *)
Definition query_memory_by_id_text (mem_id : option string) : M (option Memory) :=
  match mem_id with
  | None => Session.query_first memories (fun _ => false)
  | Some s =>
      match UUID_of_string P s with
      | Some u => Session.query_first memories (fun m => m_id m =? u)
      | None =>
          if strict_uuid_compare P then Session.reject
          else Session.query_first memories (fun _ => false)
      end
  end.

(** [db.query(App).filter(App.id == aid).first()] with [aid] a Python [int]:
    the UUID column [App.id] never equals an integer. *)
Definition query_app_by_int_id (aid : Z) : M (option App) :=
  if strict_uuid_compare P then Session.reject
  else Session.query_first apps (fun _ => false).

(** [.order_by(App.created_at.desc()).first()]: the first row, in storage
    order, among those with the greatest [created_at]. *)
Definition newest (l : list App) : option App :=
  List.fold_left
    (fun best a =>
       match best with
       | None => Some a
       | Some b => if a_created_at b <? a_created_at a then Some a else Some b
       end) l None.

(** Lines 18-29: the owner, by primary key, then [user_id], then [email]. *)
Definition find_user (user_id : string) : M (option User) :=
  user_obj ← try_except
                (user_uuid ← UUID_ P (Some user_id);
                 Session.query_first users (fun u => u_id u =? user_uuid))
                only_ValueError
                (fun _ => mret None);
  match user_obj with
  | Some u => mret (Some u)
  | None =>
      user_obj ← Session.query_first users (fun u => String.eqb (u_user_id u) user_id);
      match user_obj with
      | Some u => mret (Some u)
      | None => Session.query_first users
                  (fun u => opt_eqb String.eqb (u_email u) (Some user_id))
      end
  end.

(** Lines 34-57: the App context.  Returns the (possibly reassigned)
    [agent_id] together with [app_obj]. *)
Definition resolve_app (result : SyncResult) (agent_id : option string)
    (user_obj : User) : M (option string * option App) :=
  let agent_id :=
    if negb (truthy_str agent_id) && truthy_obj (r_metadata result)
    then json_get "agent_id" (default [] (r_metadata result))
    else agent_id in
  app_obj ← (if truthy_str agent_id then
               let agent := default "" agent_id in
               app_obj ← try_except
                           (aid ← int_ P agent;
                            query_app_by_int_id aid)
                           only_ValueError
                           (fun _ => mret None);
               match app_obj with
               | Some a => mret (Some a)
               | None =>
                   all ← Session.query_all apps (fun _ => true);
                   mret (List.find (fun a => str_contains (a_name a) agent) all)
               end
             else mret None);
  app_obj ← match app_obj with
            | Some a => mret (Some a)
            | None =>
                own ← Session.query_all apps (fun a => a_owner_id a =? u_id user_obj);
                mret (newest own)
            end;
  mret (agent_id, app_obj).

(** The [metadata_] of the access logs written by the reconciler. *)
Definition log_metadata (agent_id : option string) (result : SyncResult)
    (default_event : string) : JsonObject :=
  [("agent_id", agent_id); ("source", Some "mcp_tool");
   ("event", Some (default default_event (r_event result)))].

(** Lines 59-72: build, add and commit the new row. *)
Definition insert_memory (result : SyncResult) (user_obj : User)
    (app_obj : option App) : M Memory :=
  new_mem_id ← UUID_ P (r_id result);
  let new_memory :=
    {| m_id := new_mem_id; m_user_id := u_id user_obj;
       m_app_id := option_map a_id app_obj;
       m_content := r_memory result;
       m_metadata := default [] (r_metadata result);
       m_state := active;
       m_archived_at := None; m_deleted_at := None |} in
  Session.stage (add_memory new_memory);;
  Session.commit;;
  Session.refresh;;
  mret new_memory.

(** Lines 75-89: the [ADD] access log. *)
Definition log_add (result : SyncResult) (agent_id : option string)
    (new_memory : Memory) (app_obj : option App) : M unit :=
  match app_obj with
  | None => mret tt
  | Some app =>
      lid ← uuid4 P;
      Session.stage (add_access_log
        {| l_id := lid; l_memory_id := m_id new_memory; l_app_id := Some (a_id app);
           l_access_type := "ADD";
           l_metadata := log_metadata agent_id result "ADD" |});;
      Session.commit
  end.

(** Lines 17-93: the creation block.  The [try] of lines 59-93 assigns
    [db_memory] between its two commits, so it is split at that assignment:
    a failure before it leaves [db_memory] unset, a failure after it leaves
    it set, and both run the same handler ([db.rollback()]). *)
Definition create_if_absent (result : SyncResult) (user_id : string)
    (agent_id : option string) : M (option string * option Memory) :=
  user_obj ← find_user user_id;
  match user_obj with
  | None => mret (agent_id, None)
  | Some user_obj =>
      '(agent_id, app_obj) ← resolve_app result agent_id user_obj;
      db_memory ← try_except
                    (new_memory ← insert_memory result user_obj app_obj;
                     mret (Some new_memory))
                    Exception
                    (fun _ => Session.rollback;; mret None);
      match db_memory with
      | None => mret (agent_id, None)
      | Some new_memory =>
          try_except (log_add result agent_id new_memory app_obj)
            Exception (fun _ => Session.rollback);;
          mret (agent_id, Some new_memory)
      end
  end.

(** Lines 95-133: categorize, then update the content if it differs. *)
Definition categorize_and_update (result : SyncResult) (agent_id : option string)
    (db_memory : Memory) : M unit :=
  categorize_memory P get_categories_for_memory db_memory;;
  if negb (opt_eqb String.eqb (m_content db_memory) (r_memory result)) then
    Session.stage (update_memory (m_id db_memory) (set_content (r_memory result)));;
    (if truthy_obj (r_metadata result)
     then Session.stage (update_memory (m_id db_memory)
                           (set_metadata (default [] (r_metadata result))))
     else mret tt);;
    Session.commit;;
    match m_app_id db_memory with
    | None => mret tt
    | Some app_id =>
        lid ← uuid4 P;
        Session.stage (add_access_log
          {| l_id := lid; l_memory_id := m_id db_memory; l_app_id := Some app_id;
             l_access_type := "UPDATE";
             l_metadata := log_metadata agent_id result "UPDATE" |});;
        Session.commit
    end
  else mret tt.

Definition _sync_memory_to_pg (result : SyncResult) (user_id : string)
    (agent_id : option string) : M unit :=
  let mem_id := r_id result in
  try_except
    (db_memory ← query_memory_by_id_text mem_id;
     '(agent_id, db_memory) ← match db_memory with
                               | Some m => mret (agent_id, Some m)
                               | None => create_if_absent result user_id agent_id
                               end;
     match db_memory with
     | Some m => categorize_and_update result agent_id m
     | None => mret tt
     end)
    Exception
    (fun _ => mret tt).                       (* logging.error(...) *)

End Reconciler.

(** ** A concrete platform, for the examples

    [UUID(s)] on the canonical text form (32 hexadecimal digits, hyphens
    ignored) and [int(s)] on an optionally signed decimal numeral. *)

Module Demo.

Definition hex_digit (c : ascii) : option N :=
  let n := N_of_ascii c in
  if (48 <=? n) && (n <=? 57) then Some (n - 48)
  else if (97 <=? n) && (n <=? 102) then Some (n - 87)
  else if (65 <=? n) && (n <=? 70) then Some (n - 55)
  else None.

Fixpoint hex_value (s : string) (digits : nat) (acc : N) : option N :=
  match s with
  | EmptyString => if Nat.eqb digits 32 then Some acc else None
  | String c s' =>
      if Ascii.eqb c "-" then hex_value s' digits acc
      else match hex_digit c with
           | Some d => hex_value s' (S digits) (16 * acc + d)
           | None => None
           end
  end.

Definition uuid_of_text (s : string) : option UUID := hex_value s 0 0.

Fixpoint dec_value (s : string) (acc : Z) : option Z :=
  match s with
  | EmptyString => Some acc
  | String c s' =>
      let n := N_of_ascii c in
      if (48 <=? n) && (n <=? 57) then dec_value s' (10 * acc + Z.of_N (n - 48))%Z
      else None
  end.

Definition int_of_text (s : string) : option Z :=
  match s with
  | EmptyString => None
  | String c s' =>
      if Ascii.eqb c "-" then
        match s' with
        | EmptyString => None
        | _ => option_map Z.opp (dec_value s' 0%Z)
        end
      else dec_value s 0%Z
  end.

Definition platform (strict : bool) : Platform :=
  {| UUID_of_string := uuid_of_text;
     int_of_string := int_of_text;
     strict_uuid_compare := strict;
     uuid4_at := fun n => 1000000 + N.of_nat n;
     utcnow_at := fun n => 5000 + N.of_nat n |}.

Definition world (d : DB) : World :=
  {| committed := d; pending := d; inactive := false; uuid_draws := 0; clock_reads := 0 |}.

End Demo.

(** * Specification vocabulary

    The predicates and functions in which the theorems are stated. *)

Local Open Scope list_scope.

(** A session that can be used: no failed flush is pending, and the open
    transaction satisfies the schema. *)
Definition usable (w : World) : Prop :=
  inactive w = false /\ schema_ok (pending w) = true.

Definition find_memory (mid : UUID) (d : DB) : option Memory :=
  List.find (fun m => m_id m =? mid) (memories d).



Definition row_ok (m : Memory) : bool :=
  negb (is_null (m_app_id m)) && negb (is_null (m_content m)).

(** The row that [update_memory_state] leaves for a memory. *)
Definition stamped (new_state : MemoryState) (now : Time) (m : Memory) : Memory :=
  match new_state with
  | archived => set_archived_at now (set_state new_state m)
  | deleted => set_deleted_at now (set_state new_state m)
  | _ => set_state new_state m
  end.

Definition after_set_state (P : Platform) (mid : UUID) (new_state : MemoryState)
    (user_id : UUID) (m : Memory) (w : World) : DB :=
  add_history {| h_id := uuid4_at P (uuid_draws w); h_memory_id := mid;
                 h_changed_by := user_id;
                 h_old_state := m_state m; h_new_state := new_state |}
    (update_memory mid (fun _ => stamped new_state (utcnow_at P (clock_reads w)) m)
       (pending w)).

(** The guard of the loop in [delete_memories]: the memory exists and the
    caller is an admin or its owner. *)
Definition deletable (user : User) (d : DB) (mid : UUID) : bool :=
  match find_memory mid d with
  | None => false
  | Some m => u_is_admin user || (m_user_id m =? u_id user)
  end.

(** Two database images that differ at most in [categories] and
    [memory_categories]. *)
Definition except_categories (d d' : DB) : Prop :=
  users d' = users d /\ apps d' = apps d /\ memories d' = memories d
  /\ access_controls d' = access_controls d
  /\ memory_status_history d' = memory_status_history d
  /\ memory_access_logs d' = memory_access_logs d.

(** What the loop of [categorize_memory] may do to a session. *)
Definition categorizing (w w' : World) : Prop :=
  committed w' = committed w
  /\ except_categories (pending w) (pending w')
  /\ (NoDup (memory_categories (pending w)) -> NoDup (memory_categories (pending w'))).

(** *** The reconciler, block by block *)

Section ReconcilerPlan.
Variable P : Platform.

(** Lines 18-29 as a function of the [users] table. *)
Definition lookup_user (d : DB) (user_id : string) : option User :=
  let by_key :=
    match UUID_of_string P user_id with
    | Some user_uuid => List.find (fun u => u_id u =? user_uuid) (users d)
    | None => None
    end in
  match by_key with
  | Some u => Some u
  | None =>
      match List.find (fun u => String.eqb (u_user_id u) user_id) (users d) with
      | Some u => Some u
      | None => List.find (fun u => opt_eqb String.eqb (u_email u) (Some user_id)) (users d)
      end
  end.

(** Lines 37-39: the agent id in force after the metadata fallback. *)
Definition effective_agent_id (result : SyncResult) (agent_id : option string) : option string :=
  if negb (truthy_str agent_id) && truthy_obj (r_metadata result)
  then json_get "agent_id" (default [] (r_metadata result))
  else agent_id.

(** The lookup by integer id is sent, and rejected by a strict backend. *)
Definition rejected (result : SyncResult) (agent_id : option string) : bool :=
  strict_uuid_compare P
  && truthy_str (effective_agent_id result agent_id)
  && negb (is_null (int_of_string P (default "" (effective_agent_id result agent_id)))).

(** Lines 41-57 as a function of the [apps] table, when nothing is
    rejected: first App whose name contains the agent id, else the newest App
    of the owner. *)
Definition choose_app (d : DB) (result : SyncResult) (agent_id : option string)
    (user_obj : User) : option App :=
  let agent := effective_agent_id result agent_id in
  let by_name :=
    if truthy_str agent
    then List.find (fun a => str_contains (a_name a) (default "" agent)) (apps d)
    else None in
  match by_name with
  | Some a => Some a
  | None => newest (List.filter (fun a => a_owner_id a =? u_id user_obj) (apps d))
  end.

(** The row built on lines 61-68. *)
Definition new_row (result : SyncResult) (new_mem_id : UUID) (user_obj : User)
    (app_obj : option App) : Memory :=
  {| m_id := new_mem_id; m_user_id := u_id user_obj;
     m_app_id := option_map a_id app_obj;
     m_content := r_memory result;
     m_metadata := default [] (r_metadata result);
     m_state := active;
     m_archived_at := None; m_deleted_at := None |}.

End ReconcilerPlan.

(** A session with nothing pending: active, the transaction equal to the
    committed image, the schema satisfied. *)
Definition clean (w : World) : Prop :=
  inactive w = false /\ pending w = committed w /\ schema_ok (pending w) = true.

(** The identifier carried by the event, when it parses. *)
Definition event_uuid (P : Platform) (result : SyncResult) : option UUID :=
  match r_id result with
  | Some s => UUID_of_string P s
  | None => None
  end.

(** The session after a successful creation: the row, and the [ADD] access
    log when an App was resolved, both committed. *)
Definition created (P : Platform) (result : SyncResult) (agent : option string)
    (row : Memory) (app_obj : option App) (w : World) : World :=
  let w1 := Session.publish (with_pending (add_memory row (pending w)) w) in
  match app_obj with
  | None => w1
  | Some app =>
      Session.publish (with_pending
                 (add_access_log
                    {| l_id := uuid4_at P (uuid_draws w1); l_memory_id := m_id row;
                       l_app_id := Some (a_id app); l_access_type := "ADD";
                       l_metadata := log_metadata agent result "ADD" |}
                    (pending w1))
                 (next_draw w1))
  end.

(** Replaying the event leaves the session exactly as it is, whatever the
    categorization collaborator would answer. *)
Definition quiescent (P : Platform) (result : SyncResult) (user_id : string)
    (agent_id : option string) (w : World) : Prop :=
  forall cat, _sync_memory_to_pg P cat result user_id agent_id w = (Ret tt, w).


(** The database lets the event with identifier [u] be stored: its memory
    is already there, or the owner is found, the App lookup is not rejected,
    and the row built for it satisfies the schema (an App was resolved and the
    event carries a content). *)
Definition accepts (P : Platform) (result : SyncResult) (user_id : string)
    (agent_id : option string) (d : DB) (u : UUID) : Prop :=
  (exists m, find_memory u d = Some m)
  \/ (exists user_obj,
        lookup_user P d user_id = Some user_obj
        /\ rejected P result agent_id = false
        /\ row_ok (new_row result u user_obj (choose_app d result agent_id user_obj)) = true).


(** The transaction after lines 110-114: content replaced, and metadata
    too when the event carries a non-empty one. *)
Definition content_updated (result : SyncResult) (mid : UUID) (d : DB) : DB :=
  let d1 := update_memory mid (set_content (r_memory result)) d in
  if truthy_obj (r_metadata result)
  then update_memory mid (set_metadata (default [] (r_metadata result))) d1
  else d1.



(** [m] relates every session it is run in to the session it leaves,
    whether it returns or raises. *)
Definition preserves (R : World -> World -> Prop) {A} (m : M A) : Prop :=
  forall w, R w (snd (m w)).

(** The reconciler and the history table. *)
Definition history_kept (w w' : World) : Prop :=
  (memory_status_history (pending w') = memory_status_history (pending w)
   \/ memory_status_history (pending w') = memory_status_history (committed w))
  /\ (memory_status_history (committed w') = memory_status_history (pending w)
      \/ memory_status_history (committed w') = memory_status_history (committed w)).

(** The [ForeignKey] declarations of [models.py]: every reference names an
    existing row. *)
Definition fk_consistent (d : DB) : bool :=
  let user_ids := List.map u_id (users d) in
  let app_ids := List.map a_id (apps d) in
  let memory_ids := List.map m_id (memories d) in
  let category_ids := List.map c_id (categories d) in
  let refers (ids : list UUID) (x : option UUID) :=
    match x with
    | Some i => mem_uuid i ids
    | None => true
    end in
  forallb (fun a => mem_uuid (a_owner_id a) user_ids) (apps d)
  && forallb (fun m => mem_uuid (m_user_id m) user_ids && refers app_ids (m_app_id m))
       (memories d)
  && forallb (fun r => mem_uuid (fst r) memory_ids && mem_uuid (snd r) category_ids)
       (memory_categories d)
  && forallb (fun h => mem_uuid (h_memory_id h) memory_ids
                       && mem_uuid (h_changed_by h) user_ids)
       (memory_status_history d)
  && forallb (fun l => mem_uuid (l_memory_id l) memory_ids && refers app_ids (l_app_id l))
       (memory_access_logs d).

(** The image left by the deletes of [delete_app], in their order. *)
Definition purged (app_id : UUID) (d : DB) : DB :=
  let memory_ids := List.map m_id (List.filter (Apps.owned_by app_id) (memories d)) in
  let d1 := match memory_ids with
            | [] => d
            | _ => Apps.delete_history_of memory_ids
                     (Apps.delete_access_logs_of memory_ids
                        (Apps.delete_categories_of memory_ids d))
            end in
  Apps.delete_app_row app_id (Apps.delete_memories_of_app app_id d1).

(** ** Scenarios *)

Module Scenario.

(** Rules of the App with id 1 over memories. *)
Definition rule (effect : string) (object_id : option UUID) : AccessControl :=
  {| ac_subject_type := "app"; ac_subject_id := Some 1;
     ac_object_type := "memory"; ac_object_id := object_id; ac_effect := effect |}.

Definition db_of_rules (rules : list AccessControl) : DB :=
  {| users := []; apps := []; memories := []; categories := [];
     memory_categories := []; access_controls := rules;
     memory_status_history := []; memory_access_logs := [] |}.

Definition alice : User :=
  {| u_id := 1; u_user_id := "alice"; u_email := None; u_is_admin := false |}.

Definition bob : User :=
  {| u_id := 2; u_user_id := "bob"; u_email := None; u_is_admin := false |}.

(** Two Apps of alice: the older one carries [agent_id = 7], the name of
    the other contains the digit 7. *)
Definition kitchen : App :=
  {| a_id := 10; a_owner_id := 1; a_name := "kitchen"; a_is_active := true;
     a_created_at := 100; a_agent_id := Some 7%Z |}.

Definition dev7 : App :=
  {| a_id := 11; a_owner_id := 1; a_name := "dev7"; a_is_active := true;
     a_created_at := 50; a_agent_id := None |}.

Definition base (l : list App) : DB :=
  {| users := [alice; bob]; apps := l; memories := []; categories := [];
     memory_categories := []; access_controls := [];
     memory_status_history := []; memory_access_logs := [] |}.

Definition tea : SyncResult :=
  {| r_id := Some "00000000-0000-0000-0000-0000000000a1";
     r_memory := Some "likes tea"; r_metadata := None; r_event := Some "add" |}.

Definition coffee : SyncResult :=
  {| r_id := Some "00000000-0000-0000-0000-0000000000a1";
     r_memory := Some "likes coffee"; r_metadata := None; r_event := Some "update" |}.

Definition malformed : SyncResult :=
  {| r_id := Some "not-a-uuid";
     r_memory := Some "likes tea"; r_metadata := None; r_event := Some "add" |}.

(** A categorization collaborator that labels each content by its drink. *)
Definition labels (content : option string) : Outcome (list string) :=
  match content with
  | Some "likes tea" => Ret ["tea"]
  | Some "likes coffee" => Ret ["coffee"]
  | _ => Raise CategorizationError
  end.


Definition memory_row (id user app : UUID) (content : string) : Memory :=
  {| m_id := id; m_user_id := user; m_app_id := Some app; m_content := Some content;
     m_metadata := []; m_state := active; m_archived_at := None; m_deleted_at := None |}.

(** The memory [a1] of alice, stored through [kitchen]. *)
Definition stored : DB := with_memories [memory_row 161 1 10 "likes tea"] (base [kitchen]).

(** Two Apps with one memory each; [kitchen] has also searched the memory
    of [dev7], which left an access log naming [kitchen]. *)
Definition shared : DB :=
  {| users := [alice; bob]; apps := [kitchen; dev7];
     memories := [memory_row 161 1 10 "likes tea"; memory_row 162 1 11 "likes jazz"];
     categories := [{| c_id := 20; c_name := "tea" |}];
     memory_categories := [(161, 20)];
     access_controls := [];
     memory_status_history :=
       [{| h_id := 30; h_memory_id := 161; h_changed_by := 1;
           h_old_state := deleted; h_new_state := active |}];
     memory_access_logs :=
       [{| l_id := 40; l_memory_id := 161; l_app_id := Some 10;
           l_access_type := "ADD"; l_metadata := [] |};
        {| l_id := 41; l_memory_id := 162; l_app_id := Some 10;
           l_access_type := "search"; l_metadata := [] |}] |}.

(** Memories of two owners. *)
Definition two_owners : DB :=
  with_memories [memory_row 161 1 10 "likes tea"; memory_row 163 2 10 "likes rain"]
    (base [kitchen]).

Definition sync (strict : bool) (cat : option string -> Outcome (list string))
    (result : SyncResult) (agent_id : option string) (d : DB) : Outcome unit * World :=
  _sync_memory_to_pg (Demo.platform strict) cat result "alice" agent_id (Demo.world d).

End Scenario.

(** * Further code

    Functions of the same files that the reconciler, the state machine and
    the purge sit next to, and the vocabulary of their theorems. *)

(** ** Access control: the specific rules *)

(** The memory ids named by the rules of one effect. *)
Fixpoint specific_ids (effect : string) (rules : list AccessControl) : gset UUID :=
  match rules with
  | [] => ∅
  | r :: rest =>
      match ac_object_id r with
      | Some oid =>
          if String.eqb (ac_effect r) effect then {[oid]} ∪ specific_ids effect rest
          else specific_ids effect rest
      | None => specific_ids effect rest
      end
  end.

(** ** [update_memory_state_endpoint] ([routers/memories.py], lines 393-424) *)

(** [MemoryState(request.state)]: the enumeration is looked up by value;
    [None] is [ValueError]. *)
Definition MemoryState_of_string (s : string) : option MemoryState :=
  if String.eqb s "active" then Some active
  else if String.eqb s "paused" then Some paused
  else if String.eqb s "archived" then Some archived
  else if String.eqb s "deleted" then Some deleted
  else None.

Section StateEndpoint.
Variable P : Platform.

(** The loop over [request.memory_ids]; the accumulator is
    [updated_memories]. *)
Fixpoint update_state_loop (user : User) (new_state : MemoryState)
    (memory_ids : list UUID) (updated_memories : list Memory) : M (list Memory) :=
  match memory_ids with
  | [] => mret updated_memories
  | memory_id :: rest =>
      found ← Session.query_first memories (fun m => m_id m =? memory_id);
      match found with
      | None => raise (HTTPException 404)
      | Some memory =>
          if negb (u_is_admin user) && negb (m_user_id memory =? u_id user)
          then raise (HTTPException 403)
          else
            updated_memory ← update_memory_state P memory_id new_state (u_id user);
            update_state_loop user new_state rest (updated_memories ++ [updated_memory])
      end
  end.

(** Returns the ["updated_memories"] field of the response. *)
Definition update_memory_state_endpoint (memory_ids : list UUID) (state : string)
    (current_user : User) : M nat :=
  new_state ← try_except
                 (match MemoryState_of_string state with
                  | Some s => mret s
                  | None => raise ValueError
                  end)
                 only_ValueError
                 (fun _ => raise (HTTPException 400));
  updated_memories ← update_state_loop current_user new_state memory_ids [];
  mret (length updated_memories).

End StateEndpoint.

(** ** Categorization: what a run establishes *)

(** In [d], the memory [mid] is linked to the category that a lookup by
    [name] returns. *)
Definition linked (d : DB) (mid : UUID) (name : string) : Prop :=
  exists c,
    List.find (fun c => String.eqb (c_name c) name) (categories d) = Some c
    /\ In (mid, c_id c) (memory_categories d).

(** ** Tables that a computation leaves as it found them *)

(** After the run, the pending and the committed value of [t] are each the
    pending or the committed value of before. *)
Definition table_kept {T} (t : DB -> T) (w w' : World) : Prop :=
  (t (pending w') = t (pending w) \/ t (pending w') = t (committed w))
  /\ (t (committed w') = t (pending w) \/ t (committed w') = t (committed w)).

(** ** The callers of the reconciler ([mcp_server.py], [add_memories])

    All the calls of one request go through the same session [db]. *)

Section SyncCallers.
Variable P : Platform.
Variable get_categories_for_memory : option string -> Outcome (list string).

(** ["id" in item], an absent key being [None]. *)
Definition has_id (item : SyncResult) : bool := negb (is_null (r_id item)).

(** Lines 230-232 and 254-256: [for item in items_to_sync]. *)
Fixpoint sync_items (items_to_sync : list SyncResult) (user_id : string)
    (agent_id : option string) : M unit :=
  match items_to_sync with
  | [] => mret tt
  | item :: rest =>
      (if has_id item
       then _sync_memory_to_pg P get_categories_for_memory item user_id agent_id
       else mret tt);;
      sync_items rest user_id agent_id
  end.

(** Lines 193-208: [for result in result_batch], the database part. *)
Fixpoint sync_results (result_batch : list SyncResult) (user_id : string)
    (agent_id : option string) : M unit :=
  match result_batch with
  | [] => mret tt
  | result :: rest =>
      let event := r_event result in
      (if opt_eqb String.eqb event (Some "add") then
         if has_id result
         then _sync_memory_to_pg P get_categories_for_memory result user_id agent_id
         else mret tt
       else if opt_eqb String.eqb event (Some "update") then
         if has_id result
         then _sync_memory_to_pg P get_categories_for_memory result user_id agent_id
         else mret tt
       else mret tt);;
      sync_results rest user_id agent_id
  end.

End SyncCallers.

(** ** Categorization ([utils/categorization.py]) *)

Definition PREDEFINED_CATEGORIES : list string :=
  ["个人信息"; "技术"; "学习"; "工作"; "生活"; "健康";
   "娱乐"; "旅行"; "财务"; "家庭"; "社交"; "饮食"; "喜好"; "其他"].

(** The dictionary, in insertion order. *)
Definition CATEGORY_KEYWORDS : list (string * list string) :=
  [("个人信息", ["名字"; "电话"; "邮箱"; "地址"; "生日"; "身份"; "账号"; "密码"; "证件"]);
   ("技术", ["编程"; "代码"; "开发"; "项目"; "Python"; "JavaScript"; "Java"; "C++"; "前端";
             "后端"; "API"; "数据库"; "AI"; "模型"]);
   ("学习", ["学习"; "课程"; "考试"; "作业"; "研究"; "论文"; "知识"; "书"; "阅读"]);
   ("工作", ["工作"; "公司"; "会议"; "项目"; "任务"; "汇报"; "合作"; "同事"; "老板"; "客户"]);
   ("生活", ["睡觉"; "购物"; "电影"; "音乐"; "运动"; "日常"; "天气"]);
   ("饮食", ["吃"; "喝"; "水果"; "菜"; "饭"; "酒"; "茶"; "咖啡"; "早餐"; "午餐"; "晚餐";
             "零食"; "口味"; "辣"; "甜"]);
   ("喜好", ["喜欢"; "爱"; "讨厌"; "不喜欢"; "偏好"; "感兴趣"; "粉丝"; "最爱"]);
   ("健康", ["身体"; "疾病"; "医院"; "医生"; "药物"; "锻炼"; "减肥"; "体重"; "身高"]);
   ("旅行", ["旅游"; "旅行"; "景点"; "酒店"; "机票"; "行程"; "城市"; "出差"; "签证"]);
   ("财务", ["钱"; "工资"; "投资"; "股票"; "银行"; "支出"; "收入"; "账单"; "消费"]);
   ("家庭", ["父母"; "孩子"; "配偶"; "家人"; "亲戚"; "家务"; "家庭"; "老公"; "老婆"; "儿子";
             "女儿"; "爸"; "妈"]);
   ("社交", ["朋友"; "聚会"; "活动"; "聊天"; "交流"; "沟通"; "社交"; "群"]);
   ("娱乐", ["游戏"; "玩"; "漫画"; "动漫"; "综艺"; "剧"])].

Section Categorization.
(** [str.lower]. *)
Variable lower : string -> string.
(** [OPENAI_AVAILABLE and client]. *)
Variable client_available : bool.
(** The body of the [try] of one attempt: the chat completion, the clean-up
    of the answer and [json.loads].  [Ret (Some l)] is an answer that parses
    to a dictionary whose ['categories'] is the list [l], [Ret None] an
    answer that parses to anything else, [Raise] an exception. *)
Variable llm_attempt : nat -> option string -> Outcome (option (list string)).

(** The loop over [CATEGORY_KEYWORDS.items()]. *)
Fixpoint keyword_loop (text_lower : string) (items : list (string * list string))
    (categories : list string) : list string :=
  match items with
  | [] => categories
  | (category, keywords) :: rest =>
      keyword_loop text_lower rest
        (if List.existsb (fun keyword => str_contains text_lower (lower keyword)) keywords
         then categories ++ [category]
         else categories)
  end.

Definition keyword_based_categorization (text : string) : list string :=
  let text_lower := lower text in
  let categories := keyword_loop text_lower CATEGORY_KEYWORDS [] in
  match categories with
  | [] => ["其他"]
  | _ => categories
  end.

Definition max_retries : nat := 2.

(** [for attempt in range(max_retries + 1)]: [Some] is the [return] inside
    the loop, [None] is falling out of it. *)
Fixpoint llm_loop (attempts : list nat) (memory : option string) : option (list string) :=
  match attempts with
  | [] => None
  | attempt :: rest =>
      match llm_attempt attempt memory with
      | Ret (Some (c :: categories)) => Some (c :: categories)
      | _ => llm_loop rest memory
      end
  end.

(** On [None] the fallback raises ([None] has no [lower]). *)
Definition get_categories_for_memory (memory : option string) : Outcome (list string) :=
  match (if client_available then llm_loop (List.seq 0 (max_retries + 1)) memory else None) with
  | Some categories => Ret categories
  | None =>
      match memory with
      | Some text => Ret (keyword_based_categorization text)
      | None => Raise CategorizationError
      end
  end.

End Categorization.

(** ** [update_memory_categories] ([routers/memories.py], lines 829-882) *)

Section CategoriesEndpoint.
Variable P : Platform.

(** [memory_categories.insert()]: the pair (memory_id, category_id) is the
    primary key of the table ([models.py], lines 129-134); a second insert
    of a pair is refused by the backend and aborts the transaction. *)
Definition insert_link (memory_id category_id : UUID) : M unit :=
  Session.guard_active;;
  present ← Session.gets (fun w =>
              List.existsb (fun r : UUID * UUID => (fst r =? memory_id) && (snd r =? category_id))
                (memory_categories (pending w)));
  if present : bool
  then Session.modify (Session.set_inactive true);; raise IntegrityError
  else Session.stage (insert_memory_category memory_id category_id).

Definition delete_links_of (memory_id : UUID) (d : DB) : DB :=
  with_memory_categories
    (List.filter (fun r => negb (fst r =? memory_id)) (memory_categories d)) d.

(** The body of [for category_name in request.categories]. *)
Fixpoint add_categories (memory_id : UUID) (names : list string) : M unit :=
  match names with
  | [] => mret tt
  | category_name :: rest =>
      found ← Session.query_first categories (fun c => String.eqb (c_name c) category_name);
      category ← match found with
                 | Some c => mret c
                 | None =>
                     cid ← uuid4 P;
                     let c := {| c_id := cid; c_name := category_name |} in
                     Session.stage (add_category c);;
                     Session.flush;;
                     mret c
                 end;
      insert_link memory_id (c_id category);;
      add_categories memory_id rest
  end.

(** The response, read from the relationship [memory.categories], is not
    part of the model. *)
Definition update_memory_categories (memory_id : UUID) (request_categories : list string)
    (current_user : User) : M unit :=
  found ← Session.query_first memories (fun m => m_id m =? memory_id);
  match found with
  | None => raise (HTTPException 404)
  | Some memory =>
      if negb (u_is_admin current_user) && negb (m_user_id memory =? u_id current_user)
      then raise (HTTPException 403)
      else
        Session.execute (delete_links_of memory_id);;
        add_categories memory_id request_categories;;
        Session.commit;;
        Session.refresh
  end.

End CategoriesEndpoint.

(** The category ids linked to a memory, in storage order. *)
Definition links_of (mid : UUID) (d : DB) : list UUID :=
  List.map snd (List.filter (fun r => fst r =? mid) (memory_categories d)).

(** A lookup by [name] finds the category with id [cid]. *)
Definition category_named (d : DB) (name : string) (cid : UUID) : Prop :=
  exists c, List.find (fun c => String.eqb (c_name c) name) (categories d) = Some c
            /\ c_id c = cid.

(** Identifiers drawn from now on are new: [uuid4] does not repeat itself
    and does not hit the id of a stored category. *)
Definition fresh_category_ids (P : Platform) (w : World) : Prop :=
  (forall n m, uuid4_at P n = uuid4_at P m -> n = m)
  /\ (forall n, (uuid_draws w <= n)%nat ->
        ~ In (uuid4_at P n) (List.map c_id (categories (pending w)))).

(** ** [update_app_details] ([routers/apps.py], lines 275-290) *)

Definition set_is_active (b : bool) (a : App) : App :=
  {| a_id := a_id a; a_owner_id := a_owner_id a; a_name := a_name a; a_is_active := b;
     a_created_at := a_created_at a; a_agent_id := a_agent_id a |}.

Definition update_app (app_id : UUID) (f : App -> App) (d : DB) : DB :=
  with_apps (List.map (fun a => if a_id a =? app_id then f a else a) (apps d)) d.

Definition update_app_details (app_id : UUID) (is_active : bool) (current_user : User)
    : M unit :=
  app ← Apps.get_app_or_404 app_id;
  if negb (u_is_admin current_user) && negb (a_owner_id app =? u_id current_user)
  then raise (HTTPException 403)
  else
    Session.stage (update_app app_id (set_is_active is_active));;
    Session.commit.

(** * Theorems *)

(** ** Equality tests *)

Lemma MemoryState_eqb_eq a b : MemoryState_eqb a b = true <-> a = b.
Proof. destruct a, b; simpl; split; intro H; congruence. Qed.

Lemma opt_eqb_string_eq x y : opt_eqb String.eqb x y = true <-> x = y.
Proof.
  destruct x as [a|], y as [b|]; simpl; try (split; congruence).
  rewrite String.eqb_eq. split; congruence.
Qed.

Lemma opt_eqb_N_eq (x y : option N) : opt_eqb N.eqb x y = true <-> x = y.
Proof.
  destruct x as [a|], y as [b|]; simpl; try (split; congruence).
  rewrite N.eqb_eq. split; congruence.
Qed.

(** ** Access control resolver *)

Module ACLFacts.
Import ACL Scenario.

(** A blanket allow that is met before any blanket deny ends the loop with
    [None], whatever the accumulators hold. *)
Lemma process_rules_allow_first pre r post A D :
  allow_all r = true ->
  (forall x, In x pre -> deny_all x = false) ->
  process_rules (pre ++ r :: post) A D = None.
Proof.
  intros Hr. revert A D.
  induction pre as [|x pre IH]; intros A D Hpre; simpl.
  - unfold allow_all in Hr. apply andb_true_iff in Hr as [He Hn].
    rewrite He. destruct (ac_object_id r); [discriminate | reflexivity].
  - assert (Hx : deny_all x = false) by (apply Hpre; left; reflexivity).
    assert (Hrest : forall y, In y pre -> deny_all y = false)
      by (intros y Hy; apply Hpre; right; exact Hy).
    destruct (String.eqb (ac_effect x) "allow") eqn:Ea.
    + destruct (ac_object_id x); [apply IH; exact Hrest | reflexivity].
    + unfold deny_all in Hx.
      destruct (String.eqb (ac_effect x) "deny") eqn:Ed.
      * destruct (ac_object_id x); [apply IH; exact Hrest | discriminate].
      * apply IH; exact Hrest.
Qed.

(** A blanket deny that is met before any blanket allow ends the loop with
    the empty set. *)
Lemma process_rules_deny_first pre r post A D :
  deny_all r = true ->
  (forall x, In x pre -> allow_all x = false) ->
  process_rules (pre ++ r :: post) A D = Some ∅.
Proof.
  intros Hr. revert A D.
  induction pre as [|x pre IH]; intros A D Hpre; simpl.
  - unfold deny_all in Hr. apply andb_true_iff in Hr as [He Hn].
    destruct (String.eqb (ac_effect r) "allow") eqn:Ea.
    + apply String.eqb_eq in Ea. apply String.eqb_eq in He. congruence.
    + rewrite He. destruct (ac_object_id r); [discriminate | reflexivity].
  - assert (Hx : allow_all x = false) by (apply Hpre; left; reflexivity).
    assert (Hrest : forall y, In y pre -> allow_all y = false)
      by (intros y Hy; apply Hpre; right; exact Hy).
    unfold allow_all in Hx.
    destruct (String.eqb (ac_effect x) "allow") eqn:Ea.
    + destruct (ac_object_id x); [apply IH; exact Hrest | discriminate].
    + destruct (String.eqb (ac_effect x) "deny") eqn:Ed.
      * destruct (ac_object_id x) eqn:Eo; [apply IH; exact Hrest |].
        (* a blanket deny inside [pre]: the loop stops there, with the same answer *)
        reflexivity.
      * apply IH; exact Hrest.
Qed.

(** C1, as amended: when the rules of an App, in the order the store
    returns them, contain an allow rule with a null object_id that no deny
    rule with a null object_id precedes, [get_accessible_memory_ids] returns
    [None] (unrestricted), whatever specific deny rules and whatever later
    rules are present. *)
Theorem get_accessible_memory_ids_allow_all
    (db : DB) (app_id : UUID) (pre post : list AccessControl) (r : AccessControl) :
  List.filter (app_rule app_id) (access_controls db) = pre ++ r :: post ->
  allow_all r = true ->
  (forall x, In x pre -> deny_all x = false) ->
  get_accessible_memory_ids db app_id = None.
Proof.
  intros Hrules Hr Hpre. unfold get_accessible_memory_ids.
  rewrite Hrules.
  destruct (pre ++ r :: post) eqn:E; [reflexivity |].
  rewrite <- E. apply process_rules_allow_first; assumption.
Qed.

(** The scenario of the specification: [{allow: null}] then [{deny: m1}]. *)
Lemma get_accessible_memory_ids_allow_all_witness :
  get_accessible_memory_ids (db_of_rules [rule "deny" (Some 7); rule "allow" None; rule "deny" None]) 1
  = None.
Proof.
  apply (get_accessible_memory_ids_allow_all _ 1
           [rule "deny" (Some 7)] [rule "deny" None] (rule "allow" None)).
  - reflexivity.
  - reflexivity.
  - intros x [<- | []]. reflexivity.
Defined.

(** C1 as stated fails: the store may return a blanket deny before the
    blanket allow, and then the result is the empty set. *)
Lemma get_accessible_memory_ids_order_dependent :
  let db := db_of_rules [rule "deny" None; rule "allow" None] in
  (exists r, In r (List.filter (app_rule 1) (access_controls db)) /\ allow_all r = true)
  /\ get_accessible_memory_ids db 1 = Some ∅
  /\ get_accessible_memory_ids db 1 <> None.
Proof.
  simpl. split; [| split].
  - exists (rule "allow" None). split; [right; left; reflexivity | reflexivity].
  - reflexivity.
  - discriminate.
Qed.

End ACLFacts.

(** ** Running the session primitives *)

Lemma run_bind {A B} (m : M A) (f : A -> M B) (w : World) :
  (m ≫= f) w = match m w with
               | (Ret a, w') => f a w'
               | (Raise e, w') => (Raise e, w')
               end.
Proof. reflexivity. Qed.

Lemma run_bind_assoc {A B C} (m : M A) (f : A -> M B) (g : B -> M C) (w : World) :
  ((m ≫= f) ≫= g) w = (m ≫= (fun a => f a ≫= g)) w.
Proof. rewrite !run_bind. destruct (m w) as [[a|e] w']; reflexivity. Qed.

Lemma run_ret {A} (a : A) (w : World) : (mret a : M A) w = (Ret a, w).
Proof. reflexivity. Qed.

Module SessionFacts.
Import Session.

Lemma guard_active_run w : inactive w = false -> guard_active w = (Ret tt, w).
Proof. intros H. unfold guard_active. rewrite H. reflexivity. Qed.

Lemma guard_active_raise w :
  inactive w = true -> guard_active w = (Raise PendingRollbackError, w).
Proof. intros H. unfold guard_active. rewrite H. reflexivity. Qed.

Lemma query_first_run {A} (t : DB -> list A) p w :
  inactive w = false -> query_first t p w = (Ret (List.find p (t (pending w))), w).
Proof. intros H. unfold query_first. rewrite run_bind, guard_active_run by exact H. reflexivity. Qed.

Lemma query_first_raise {A} (t : DB -> list A) p w :
  inactive w = true -> query_first t p w = (Raise PendingRollbackError, w).
Proof. intros H. unfold query_first. rewrite run_bind, guard_active_raise by exact H. reflexivity. Qed.

Lemma query_all_run {A} (t : DB -> list A) p w :
  inactive w = false -> query_all t p w = (Ret (List.filter p (t (pending w))), w).
Proof. intros H. unfold query_all. rewrite run_bind, guard_active_run by exact H. reflexivity. Qed.

Lemma stage_run f w : stage f w = (Ret tt, with_pending (f (pending w)) w).
Proof. reflexivity. Qed.

Lemma execute_run f w :
  inactive w = false -> execute f w = (Ret tt, with_pending (f (pending w)) w).
Proof. intros H. unfold execute. rewrite run_bind, guard_active_run by exact H. reflexivity. Qed.

Lemma flush_run w : usable w -> flush w = (Ret tt, w).
Proof.
  intros [Hi Hs]. unfold flush. rewrite run_bind, guard_active_run by exact Hi.
  rewrite run_bind. unfold gets. rewrite Hs. reflexivity.
Qed.

Lemma flush_raise w :
  inactive w = false -> schema_ok (pending w) = false ->
  flush w = (Raise IntegrityError, set_inactive true w).
Proof.
  intros Hi Hs. unfold flush. rewrite run_bind, guard_active_run by exact Hi.
  rewrite run_bind. unfold gets. rewrite Hs. reflexivity.
Qed.

Lemma uuid4_run P w : uuid4 P w = (Ret (uuid4_at P (uuid_draws w)), next_draw w).
Proof. reflexivity. Qed.

Lemma utcnow_run P w : utcnow P w = (Ret (utcnow_at P (clock_reads w)), next_tick w).
Proof. reflexivity. Qed.

Lemma commit_run w : usable w -> commit w = (Ret tt, publish w).
Proof. intros H. unfold commit. rewrite run_bind, flush_run by exact H. reflexivity. Qed.

Lemma commit_raise w :
  inactive w = false -> schema_ok (pending w) = false ->
  commit w = (Raise IntegrityError, set_inactive true w).
Proof. intros Hi Hs. unfold commit. rewrite run_bind, flush_raise by assumption. reflexivity. Qed.

(** Whatever happens, a commit either publishes the transaction or leaves
    the committed image alone. *)
Lemma commit_cases w :
  (commit w = (Ret tt, publish w) /\ usable w)
  \/ (exists e, commit w = (Raise e, set_inactive (inactive w || negb (schema_ok (pending w))) w)).
Proof.
  destruct (inactive w) eqn:Hi.
  - right. exists PendingRollbackError. unfold commit, flush.
    rewrite !run_bind, guard_active_raise by exact Hi.
    destruct w; simpl in *; subst; reflexivity.
  - destruct (schema_ok (pending w)) eqn:Hs.
    + left. split; [apply commit_run; split; assumption | split; assumption].
    + right. exists IntegrityError. rewrite commit_raise by assumption. reflexivity.
Qed.

End SessionFacts.

(** One step of a monadic computation whose head never fails. *)
Ltac mstep :=
  rewrite ?run_bind_assoc;
  rewrite run_bind;
  first [ rewrite SessionFacts.stage_run
        | rewrite SessionFacts.uuid4_run
        | rewrite SessionFacts.utcnow_run
        | rewrite run_ret ];
  cbv beta iota.

(** ** Memory state machine *)

Module StateFacts.
Import Session SessionFacts.

Lemma find_memory_In mid d m : find_memory mid d = Some m -> In m (memories d) /\ m_id m = mid.
Proof.
  unfold find_memory. intros H. apply List.find_some in H as [Hin Heq].
  split; [exact Hin | apply N.eqb_eq; exact Heq].
Qed.

Lemma schema_ok_row d m : schema_ok d = true -> In m (memories d) -> row_ok m = true.
Proof.
  unfold schema_ok. intros H Hin. apply andb_true_iff in H as [H _].
  rewrite forallb_forall in H. apply H; exact Hin.
Qed.

Lemma schema_ok_update_memory mid f d :
  schema_ok d = true ->
  (forall m, In m (memories d) -> row_ok (f m) = true) ->
  schema_ok (update_memory mid f d) = true.
Proof.
  unfold schema_ok. intros H Hf. apply andb_true_iff in H as [Hm Hl].
  apply andb_true_iff. split; [| exact Hl].
  simpl. rewrite forallb_forall in *. intros x Hx.
  apply in_map_iff in Hx as [m [<- Hin]].
  destruct (m_id m =? mid); [apply (Hf m Hin) | apply Hm; exact Hin].
Qed.

Lemma find_memory_update_memory mid f d m :
  find_memory mid d = Some m -> m_id (f m) = mid ->
  find_memory mid (update_memory mid f d) = Some (f m).
Proof.
  unfold find_memory, update_memory. simpl.
  induction (memories d) as [|x l IH]; simpl; [discriminate |].
  intros H Hid. destruct (m_id x =? mid) eqn:E.
  - inversion H; subst x. simpl. rewrite Hid, N.eqb_refl. reflexivity.
  - simpl. rewrite E. apply IH; assumption.
Qed.

Lemma update_memory_state_run P mid new_state user_id m w :
  usable w -> find_memory mid (pending w) = Some m ->
  exists w',
    update_memory_state P mid new_state user_id w
      = (Ret (stamped new_state (utcnow_at P (clock_reads w)) m), w')
    /\ committed w' = after_set_state P mid new_state user_id m w
    /\ pending w' = committed w'
    /\ inactive w' = false.
Proof.
  intros [Hi Hs] Hfind.
  destruct (find_memory_In _ _ _ Hfind) as [Hin Hid].
  assert (Hrow : row_ok m = true) by (eapply schema_ok_row; eassumption).
  assert (Hok : forall m', row_ok m' = true ->
             schema_ok (update_memory mid (fun _ => m') (pending w)) = true).
  { intros m' Hm'. apply schema_ok_update_memory; [exact Hs | intros _ _; exact Hm']. }
  unfold update_memory_state, get_memory_or_404.
  rewrite !run_bind, query_first_run by exact Hi.
  fold (find_memory mid (pending w)). rewrite Hfind. cbn [mret M_ret].
  destruct new_state; cbn [stamped]; repeat mstep;
    (rewrite run_bind, commit_run; [| split; [exact Hi | apply Hok; exact Hrow]]);
    eexists; (split; [reflexivity |]); repeat split; reflexivity.
Qed.

End StateFacts.

Module StateMachine.
Import Session SessionFacts StateFacts.

Lemma row_ok_stamped s now m : row_ok (stamped s now m) = row_ok m.
Proof. destruct s; reflexivity. Qed.

Lemma stamped_id s now m : m_id (stamped s now m) = m_id m.
Proof. destruct s; reflexivity. Qed.

Lemma stamped_state s now m : m_state (stamped s now m) = s.
Proof. destruct s; reflexivity. Qed.

Lemma after_set_state_schema P mid s u m w :
  schema_ok (pending w) = true -> In m (memories (pending w)) ->
  schema_ok (after_set_state P mid s u m w) = true.
Proof.
  intros Hs Hin. unfold after_set_state.
  change (schema_ok (update_memory mid
            (fun _ => stamped s (utcnow_at P (clock_reads w)) m) (pending w)) = true).
  apply schema_ok_update_memory; [exact Hs |].
  intros _ _. rewrite row_ok_stamped. eapply schema_ok_row; eassumption.
Qed.

Lemma after_set_state_find P mid s u m w :
  find_memory mid (pending w) = Some m ->
  find_memory mid (after_set_state P mid s u m w)
  = Some (stamped s (utcnow_at P (clock_reads w)) m).
Proof.
  intros Hfind. unfold after_set_state.
  etransitivity;
    [| apply (find_memory_update_memory mid
                (fun _ => stamped s (utcnow_at P (clock_reads w)) m) (pending w) m)].
  - reflexivity.
  - exact Hfind.
  - rewrite stamped_id. apply (find_memory_In _ _ _ Hfind).
Qed.

Lemma after_set_state_history P mid s u m w :
  memory_status_history (after_set_state P mid s u m w)
  = memory_status_history (pending w)
    ++ [{| h_id := uuid4_at P (uuid_draws w); h_memory_id := mid; h_changed_by := u;
           h_old_state := m_state m; h_new_state := s |}].
Proof. reflexivity. Qed.




End StateMachine.

(** ** Batch delete *)

Module BatchDelete.
Import Session SessionFacts StateFacts StateMachine.

Lemma find_memory_update_memory_other mid mid' f d :
  mid' <> mid ->
  (forall x, m_id x = mid -> m_id (f x) = mid) ->
  find_memory mid' (update_memory mid f d) = find_memory mid' d.
Proof.
  intros Hne Hf. unfold find_memory, update_memory. simpl.
  induction (memories d) as [|x l IH]; simpl; [reflexivity |].
  destruct (m_id x =? mid) eqn:E.
  - apply N.eqb_eq in E. rewrite (Hf x E).
    assert (E1 : (mid =? mid') = false) by (apply N.eqb_neq; congruence).
    assert (E2 : (m_id x =? mid') = false) by (apply N.eqb_neq; congruence).
    rewrite E1, E2. exact IH.
  - destruct (m_id x =? mid'); [reflexivity | exact IH].
Qed.

Lemma after_set_state_find_other P mid mid' s u m w :
  mid' <> mid -> m_id m = mid ->
  find_memory mid' (after_set_state P mid s u m w) = find_memory mid' (pending w).
Proof.
  intros Hne Hid. unfold after_set_state.
  etransitivity; [| apply (find_memory_update_memory_other mid mid'
                             (fun _ => stamped s (utcnow_at P (clock_reads w)) m))].
  - reflexivity.
  - exact Hne.
  - intros _ _. rewrite stamped_id. exact Hid.
Qed.

Lemma stamped_user s now m : m_user_id (stamped s now m) = m_user_id m.
Proof. destruct s; reflexivity. Qed.

Lemma deletable_after_set_state P user mid s u m w x :
  find_memory mid (pending w) = Some m ->
  deletable user (after_set_state P mid s u m w) x = deletable user (pending w) x.
Proof.
  intros Hfind. unfold deletable.
  destruct (N.eq_dec x mid) as [-> | Hne].
  - rewrite (after_set_state_find P mid s u m w Hfind), Hfind, stamped_user. reflexivity.
  - rewrite (after_set_state_find_other P mid x s u m w Hne); [reflexivity |].
    apply (find_memory_In _ _ _ Hfind).
Qed.

Lemma filter_ext_eq {A} (f g : A -> bool) (l : list A) :
  (forall x, f x = g x) -> List.filter f l = List.filter g l.
Proof. intros H. apply List.filter_ext. exact H. Qed.

(** The loop, for any value of the accumulator. *)
Lemma delete_memories_loop_run P user ids :
  forall w acc, usable w ->
  exists w' added,
    delete_memories_loop P user ids acc w
      = (Ret (acc + length (List.filter (deletable user (pending w)) ids))%nat, w')
    /\ usable w'
    /\ memory_status_history (pending w') = memory_status_history (pending w) ++ added
    /\ length added = length (List.filter (deletable user (pending w)) ids)
    /\ Forall (fun h => h_new_state h = deleted /\ h_changed_by h = u_id user
                        /\ In (h_memory_id h) ids
                        /\ deletable user (pending w) (h_memory_id h) = true) added
    /\ (forall x, deletable user (pending w') x = deletable user (pending w) x)
    /\ (forall x, In x ids -> deletable user (pending w) x = true ->
          exists m', find_memory x (pending w') = Some m' /\ m_state m' = deleted)
    /\ (forall x, ~ In x ids \/ deletable user (pending w) x = false ->
          find_memory x (pending w') = find_memory x (pending w)).
Proof.
  induction ids as [|mid ids IH]; intros w acc Hu.
  - exists w, []. simpl. rewrite Nat.add_0_r, List.app_nil_r.
    split; [reflexivity |]. split; [exact Hu |]. split; [reflexivity |].
    split; [reflexivity |]. split; [constructor |]. split; [reflexivity |].
    split; [intros x [] | reflexivity].
  - destruct (deletable user (pending w) mid) eqn:Hd.
    + (* the memory exists and the caller may delete it *)
      pose proof Hd as Hd'. unfold deletable in Hd'.
      destruct (find_memory mid (pending w)) as [m|] eqn:Hfind; [| discriminate].
      destruct (update_memory_state_run P mid deleted (u_id user) m w Hu Hfind)
        as (w1 & Hrun1 & Hc1 & Hp1 & Hi1).
      assert (Hpend1 : pending w1 = after_set_state P mid deleted (u_id user) m w)
        by (rewrite Hp1; exact Hc1).
      assert (Hu1 : usable w1).
      { split; [exact Hi1 |]. rewrite Hpend1.
        apply after_set_state_schema; [apply Hu | apply (find_memory_In _ _ _ Hfind)]. }
      assert (Hsame : forall x, deletable user (pending w1) x = deletable user (pending w) x).
      { intros x. rewrite Hpend1. apply deletable_after_set_state. exact Hfind. }
      destruct (IH w1 (S acc) Hu1)
        as (w' & added & Hrun & Hu' & Hh & Hl & Hall & Hst & Hdel & Hkeep).
      rewrite (filter_ext_eq _ _ ids Hsame) in Hrun, Hl.
      exists w', ({| h_id := uuid4_at P (uuid_draws w); h_memory_id := mid;
                     h_changed_by := u_id user; h_old_state := m_state m;
                     h_new_state := deleted |} :: added).
      cbn [List.filter]. rewrite Hd.
      split.
      { cbn [delete_memories_loop].
        rewrite run_bind, query_first_run by apply Hu. cbv beta iota.
        fold (find_memory mid (pending w)). rewrite Hfind.
        replace (negb (u_is_admin user) && negb (m_user_id m =? u_id user)) with false
          by (destruct (u_is_admin user), (m_user_id m =? u_id user); simpl in *; congruence).
        rewrite run_bind, Hrun1. cbv beta iota. rewrite Hrun. simpl.
        f_equal. f_equal. lia. }
      split; [exact Hu' |].
      split.
      { rewrite Hh, Hpend1, after_set_state_history, <- List.app_assoc. reflexivity. }
      split; [simpl; rewrite Hl; reflexivity |].
      split.
      { constructor.
        - simpl. repeat split; try reflexivity; [left; reflexivity | exact Hd].
        - eapply List.Forall_impl; [| exact Hall]. simpl. intros h (H1 & H2 & H3 & H4).
          repeat split; try assumption; [right; exact H3 | rewrite <- Hsame; exact H4]. }
      split; [intros x; rewrite Hst; apply Hsame |].
      split.
      { intros x Hin Hx.
        destruct (in_dec N.eq_dec x ids) as [Hin' | Hnin].
        - apply Hdel; [exact Hin' | rewrite Hsame; exact Hx].
        - destruct Hin as [<- | Hin]; [| contradiction].
          rewrite (Hkeep mid (or_introl Hnin)), Hpend1.
          rewrite (after_set_state_find P mid deleted (u_id user) m w Hfind).
          eexists; split; [reflexivity | apply stamped_state]. }
      { intros x Hx.
        assert (Hne : x <> mid).
        { intros ->. destruct Hx as [Hn | Hx]; [apply Hn; left; reflexivity | congruence]. }
        rewrite Hkeep.
        - rewrite Hpend1. apply after_set_state_find_other; [exact Hne |].
          apply (find_memory_In _ _ _ Hfind).
        - destruct Hx as [Hn | Hx].
          + left. intros Hin. apply Hn. right; exact Hin.
          + right. rewrite Hsame. exact Hx. }
    + (* skipped: the loop continues with the same session and count *)
      destruct (IH w acc Hu)
        as (w' & added & Hrun & Hu' & Hh & Hl & Hall & Hst & Hdel & Hkeep).
      exists w', added.
      cbn [List.filter]. rewrite Hd.
      split.
      { cbn [delete_memories_loop].
        rewrite run_bind, query_first_run by apply Hu. cbv beta iota.
        fold (find_memory mid (pending w)).
        unfold deletable in Hd.
        destruct (find_memory mid (pending w)) as [m|]; [| exact Hrun].
        replace (negb (u_is_admin user) && negb (m_user_id m =? u_id user)) with true
          by (destruct (u_is_admin user), (m_user_id m =? u_id user); simpl in *; congruence).
        exact Hrun. }
      split; [exact Hu' |]. split; [exact Hh |].
      split; [exact Hl |]. split; [| split; [exact Hst | split]].
      * eapply List.Forall_impl; [| exact Hall]. simpl. intros h (H1 & H2 & H3 & H4).
        repeat split; try assumption. right; exact H3.
      * intros x [<- | Hin] Hx; [congruence | apply Hdel; assumption].
      * intros x [Hn | Hx].
        -- apply Hkeep. left. intros Hin. apply Hn. right; exact Hin.
        -- apply Hkeep. right; exact Hx.
Qed.

End BatchDelete.

Module BatchDeleteSpec.
Import BatchDelete.


End BatchDeleteSpec.

(** ** Categorization trigger *)

Module CategorizeFacts.
Import Session SessionFacts.

Lemma except_categories_refl d : except_categories d d.
Proof. repeat split. Qed.

Lemma except_categories_trans d1 d2 d3 :
  except_categories d1 d2 -> except_categories d2 d3 -> except_categories d1 d3.
Proof.
  intros (A1 & A2 & A3 & A4 & A5 & A6) (B1 & B2 & B3 & B4 & B5 & B6).
  repeat split; congruence.
Qed.

Lemma except_categories_schema d d' :
  except_categories d d' -> schema_ok d' = schema_ok d.
Proof.
  intros (_ & _ & Hm & _ & _ & Hl). unfold schema_ok. rewrite Hm, Hl. reflexivity.
Qed.

Lemma categorizing_refl w : categorizing w w.
Proof. split; [reflexivity | split; [apply except_categories_refl | tauto]]. Qed.

Lemma categorizing_trans w1 w2 w3 :
  categorizing w1 w2 -> categorizing w2 w3 -> categorizing w1 w3.
Proof.
  intros (A1 & A2 & A3) (B1 & B2 & B3). split; [congruence |].
  split; [eapply except_categories_trans; eassumption | tauto].
Qed.

Lemma find_none_not_in (mid cid : UUID) (l : list (UUID * UUID)) :
  List.find (fun r => (fst r =? mid) && (snd r =? cid)) l = None -> ~ In (mid, cid) l.
Proof.
  intros H Hin. apply (List.find_none _ _ H) in Hin. simpl in Hin.
  rewrite !N.eqb_refl in Hin. discriminate.
Qed.

Lemma NoDup_snoc {A} (l : list A) (x : A) : NoDup l -> ~ In x l -> NoDup (l ++ [x]).
Proof.
  intros Hl Hx. apply NoDup_app. split; [exact Hl |].
  split; [| apply NoDup_singleton].
  intros y Hy Hy'. apply list_elem_of_In in Hy. apply list_elem_of_In in Hy'.
  destruct Hy' as [<- | []]. contradiction.
Qed.

(** The loop never touches the committed image, changes nothing but the two
    category tables in the transaction, and, checking for an existing pair
    before each insert, never duplicates an association. *)
Lemma categorize_each_categorizing P mid names :
  forall w, categorizing w (snd (categorize_each P mid names w)).
Proof.
  induction names as [|name names IH]; intros w; [apply categorizing_refl |].
  cbn [categorize_each].
  destruct (inactive w) eqn:Hi.
  { rewrite ?run_bind_assoc, run_bind, query_first_raise by exact Hi.
    apply categorizing_refl. }
  rewrite run_bind, query_first_run by exact Hi. cbv beta iota.
  (* both ways of obtaining [category] lead to the same continuation *)
  assert (Hk : forall c w1, categorizing w w1 ->
    categorizing w
      (snd ((existing ← query_first memory_categories
                          (fun r => (fst r =? mid) && (snd r =? c_id c));
             match existing with
             | None => execute (insert_memory_category mid (c_id c))
             | Some _ => mret tt
             end;;
             categorize_each P mid names) w1))).
  { intros c w1 H1.
    destruct (inactive w1) eqn:Hi1.
    { rewrite ?run_bind_assoc, run_bind, query_first_raise by exact Hi1. exact H1. }
    rewrite ?run_bind_assoc, run_bind, query_first_run by exact Hi1. cbv beta iota.
    destruct (List.find _ (memory_categories (pending w1))) eqn:Hfind.
    - rewrite run_bind, run_ret. cbv beta iota.
      eapply categorizing_trans; [exact H1 | apply IH].
    - rewrite run_bind, execute_run by exact Hi1. cbv beta iota.
      eapply categorizing_trans; [exact H1 |].
      eapply categorizing_trans; [| apply IH].
      split; [reflexivity |]. split; [repeat split |].
      simpl. intros Hnd. apply NoDup_snoc; [exact Hnd |].
      apply find_none_not_in. exact Hfind. }
  destruct (List.find _ (categories (pending w))) as [c|] eqn:Hc.
  - rewrite run_bind, run_ret. cbv beta iota. apply Hk. apply categorizing_refl.
  - rewrite ?run_bind_assoc. repeat mstep.
    rewrite ?run_bind_assoc, run_bind.
    match goal with |- context [flush ?W] => set (w1 := W) end.
    assert (H1 : categorizing w w1).
    { split; [reflexivity |]. split; [repeat split | tauto]. }
    destruct (schema_ok (pending w1)) eqn:Hs.
    + rewrite flush_run by (split; [exact Hi | exact Hs]). cbv beta iota.
      rewrite run_bind, run_ret. cbv beta iota. apply Hk. exact H1.
    + rewrite flush_raise by (try exact Hi; exact Hs). cbv beta iota. exact H1.
Qed.

End CategorizeFacts.

Module CategorizeSpec.
Import Session SessionFacts CategorizeFacts.

(** [categorize_memory] always returns; the session it leaves is active
    and has nothing pending; and the committed image is either the one it
    found or the transaction as left by the loop. *)
Lemma categorize_memory_run P cat memory w :
  exists w',
    categorize_memory P cat memory w = (Ret tt, w')
    /\ inactive w' = false
    /\ pending w' = committed w'
    /\ (committed w' = committed w
        \/ exists names w1,
             cat (m_content memory) = Ret names
             /\ categorizing w w1 /\ committed w' = pending w1).
Proof.
  unfold categorize_memory, try_except, lift.
  rewrite run_bind.
  destruct (cat (m_content memory)) as [names | e] eqn:Hcat.
  2:{ eexists. split; [reflexivity |]. repeat split. left; reflexivity. }
  rewrite run_bind.
  pose proof (categorize_each_categorizing P (m_id memory) names w) as Hcz.
  destruct (categorize_each P (m_id memory) names w) as [[[] | e] w1]; simpl in Hcz.
  - destruct (commit_cases w1) as [[-> _] | [e ->]].
    + eexists. split; [reflexivity |]. repeat split.
      right. exists names, w1. repeat split; try apply Hcz. 
    + eexists. split; [reflexivity |]. repeat split.
      left. simpl. apply Hcz.
  - eexists. split; [reflexivity |]. repeat split. left. simpl. apply Hcz.
Qed.


End CategorizeSpec.

(** ** Reconciler: what each block computes in an active session *)

Module ReconcilerRun.
Import Session SessionFacts.

Lemma try_except_ret {A} (body : M A) handles handler w a w' :
  body w = (Ret a, w') -> try_except body handles handler w = (Ret a, w').
Proof. intros H. unfold try_except. rewrite H. reflexivity. Qed.

Lemma try_except_raise {A} (body : M A) handles handler w e w' :
  body w = (Raise e, w') -> handles e = true ->
  try_except body handles handler w = handler e w'.
Proof. intros H He. unfold try_except. rewrite H, He. reflexivity. Qed.

Lemma reject_run {A} w :
  inactive w = false -> @reject A w = (Raise DataError, set_inactive true w).
Proof. intros H. unfold reject. rewrite run_bind, guard_active_run by exact H. reflexivity. Qed.

Lemma find_user_run P user_id w :
  inactive w = false ->
  find_user P user_id w = (Ret (lookup_user P (pending w) user_id), w).
Proof.
  intros Hi. unfold find_user, lookup_user, UUID_.
  rewrite run_bind.
  destruct (UUID_of_string P user_id) as [u|] eqn:Hu.
  - erewrite try_except_ret
      by (rewrite run_bind, run_ret; cbv beta iota; apply query_first_run; exact Hi).
    destruct (List.find _ (users (pending w))) as [x|]; [reflexivity |].
    rewrite run_bind, query_first_run by exact Hi. cbv beta iota.
    destruct (List.find _ (users (pending w))) as [x|]; [reflexivity |].
    apply query_first_run; exact Hi.
  - erewrite try_except_raise by reflexivity. rewrite run_ret.
    rewrite run_bind, query_first_run by exact Hi. cbv beta iota.
    destruct (List.find _ (users (pending w))) as [x|]; [reflexivity |].
    apply query_first_run; exact Hi.
Qed.

Lemma resolve_app_run P result agent_id user_obj w :
  inactive w = false ->
  resolve_app P result agent_id user_obj w
  = if rejected P result agent_id then (Raise DataError, set_inactive true w)
    else (Ret (effective_agent_id result agent_id,
               choose_app (pending w) result agent_id user_obj), w).
Proof.
  intros Hi. unfold resolve_app, rejected, choose_app.
  fold (effective_agent_id result agent_id).
  set (agent := effective_agent_id result agent_id).
  assert (Hown : forall (o : option App) w0, inactive w0 = false ->
     ((match o with
       | Some a => mret (Some a)
       | None => own ← query_all apps (fun a => a_owner_id a =? u_id user_obj);
                 mret (newest own)
       end ≫= fun app_obj => mret (agent, app_obj)) : M _) w0
     = (Ret (agent, match o with
                    | Some a => Some a
                    | None => newest (List.filter (fun a => a_owner_id a =? u_id user_obj)
                                        (apps (pending w0)))
                    end), w0)).
  { intros [a|] w0 H0.
    - rewrite run_bind, run_ret. reflexivity.
    - rewrite run_bind, run_bind, query_all_run by exact H0. reflexivity. }
  assert (Hname : forall w0, inactive w0 = false ->
     ((all ← query_all apps (fun _ => true);
       mret (List.find (fun a => str_contains (a_name a) (default "" agent)) all)) : M _) w0
     = (Ret (List.find (fun a => str_contains (a_name a) (default "" agent))
               (apps (pending w0))), w0)).
  { intros w0 H0. rewrite run_bind, query_all_run by exact H0. cbv beta iota.
    rewrite run_ret. f_equal. f_equal. f_equal.
    induction (apps (pending w0)) as [|x l IH]; simpl; congruence. }
  rewrite run_bind.
  destruct (truthy_str agent) eqn:Ht.
  - rewrite run_bind. unfold int_, query_app_by_int_id.
    destruct (int_of_string P (default "" agent)) as [z|] eqn:Hz.
    + destruct (strict_uuid_compare P) eqn:Hs; cbn [andb negb is_null].
      * unfold try_except. rewrite run_bind, run_ret. cbv beta iota.
        rewrite reject_run by exact Hi. reflexivity.
      * erewrite try_except_ret
          by (rewrite run_bind, run_ret; cbv beta iota; apply query_first_run; exact Hi).
        replace (List.find (fun _ : App => false) (apps (pending w))) with (@None App)
          by (induction (apps (pending w)); simpl; congruence).
        cbv beta iota. rewrite Hname by exact Hi. apply Hown. exact Hi.
    + rewrite andb_false_r.
      erewrite try_except_raise by reflexivity. rewrite run_ret.
      cbv beta iota. rewrite Hname by exact Hi. apply Hown. exact Hi.
  - rewrite andb_false_r. cbn [andb]. rewrite run_ret. apply (Hown None). exact Hi.
Qed.

End ReconcilerRun.

Module ReconcilerCreate.
Import Session SessionFacts StateFacts ReconcilerRun.

Lemma clean_usable w : clean w -> usable w.
Proof. intros (Hi & _ & Hs). split; assumption. Qed.

Lemma discard_clean w : inactive w = false -> pending w = committed w -> discard w = w.
Proof. destruct w; simpl. intros -> ->. reflexivity. Qed.

Lemma discard_stage_clean f b w :
  pending w = committed w ->
  discard (set_inactive b (with_pending f w)) = discard w.
Proof. reflexivity. Qed.

Lemma insert_memory_bad_id P result user_obj app_obj w :
  event_uuid P result = None ->
  exists e, insert_memory P result user_obj app_obj w = (Raise e, w).
Proof.
  unfold event_uuid, insert_memory, UUID_. intros H. rewrite run_bind.
  destruct (r_id result) as [s|]; [rewrite H |]; eexists; reflexivity.
Qed.

Lemma insert_memory_run P result user_obj app_obj u w :
  inactive w = false -> event_uuid P result = Some u ->
  insert_memory P result user_obj app_obj w
  = let row := new_row result u user_obj app_obj in
    let w1 := with_pending (add_memory row (pending w)) w in
    if schema_ok (add_memory row (pending w)) then (Ret row, publish w1)
    else (Raise IntegrityError, set_inactive true w1).
Proof.
  intros Hi Hu. unfold event_uuid in Hu. unfold insert_memory, UUID_. rewrite run_bind.
  destruct (r_id result) as [s|]; [| discriminate]. rewrite Hu, run_ret. cbv beta iota zeta.
  fold (new_row result u user_obj app_obj).
  mstep. rewrite run_bind.
  destruct (schema_ok (add_memory (new_row result u user_obj app_obj) (pending w))) eqn:Hs.
  - rewrite commit_run by (split; [exact Hi | exact Hs]). cbv beta iota.
    rewrite run_bind. unfold refresh. rewrite guard_active_run by reflexivity. reflexivity.
  - rewrite commit_raise by (try exact Hi; exact Hs). reflexivity.
Qed.

Lemma schema_ok_add_access_log l d :
  is_null (l_app_id l) = false ->
  schema_ok (add_access_log l d) = schema_ok d.
Proof.
  intros Hl. unfold schema_ok. simpl. rewrite forallb_app. simpl. rewrite Hl. simpl.
  rewrite andb_true_r. reflexivity.
Qed.

Lemma log_add_run P result agent row app_obj w :
  usable w ->
  log_add P result agent row app_obj w
  = (Ret tt, match app_obj with
             | None => w
             | Some app =>
                 publish (with_pending
                   (add_access_log
                      {| l_id := uuid4_at P (uuid_draws w); l_memory_id := m_id row;
                         l_app_id := Some (a_id app); l_access_type := "ADD";
                         l_metadata := log_metadata agent result "ADD" |}
                      (pending w))
                   (next_draw w))
             end).
Proof.
  intros [Hi Hs]. unfold log_add. destruct app_obj as [app|]; [| reflexivity].
  repeat mstep. rewrite commit_run; [reflexivity |].
  split; [exact Hi |]. simpl. rewrite schema_ok_add_access_log by reflexivity. exact Hs.
Qed.

(** The creation block, run in a clean session. *)
Lemma create_if_absent_run P result user_id agent_id w :
  clean w ->
  create_if_absent P result user_id agent_id w
  = match lookup_user P (pending w) user_id with
    | None => (Ret (agent_id, None), w)
    | Some user_obj =>
        if rejected P result agent_id then (Raise DataError, set_inactive true w)
        else
          let agent := effective_agent_id result agent_id in
          let app_obj := choose_app (pending w) result agent_id user_obj in
          match event_uuid P result with
          | None => (Ret (agent, None), w)
          | Some u =>
              let row := new_row result u user_obj app_obj in
              if schema_ok (add_memory row (pending w))
              then (Ret (agent, Some row), created P result agent row app_obj w)
              else (Ret (agent, None), w)
          end
    end.
Proof.
  intros (Hi & Hp & Hs). unfold create_if_absent.
  rewrite run_bind, find_user_run by exact Hi. cbv beta iota.
  destruct (lookup_user P (pending w) user_id) as [user_obj|]; [| reflexivity].
  rewrite run_bind, resolve_app_run by exact Hi.
  destruct (rejected P result agent_id); [reflexivity |]. cbv beta iota zeta.
  rewrite run_bind.
  set (agent := effective_agent_id result agent_id).
  set (app_obj := choose_app (pending w) result agent_id user_obj).
  destruct (event_uuid P result) as [u|] eqn:Hu.
  - unfold try_except at 1. rewrite run_bind.
    rewrite (insert_memory_run P result user_obj app_obj u w Hi Hu). cbv zeta.
    destruct (schema_ok (add_memory (new_row result u user_obj app_obj) (pending w))) eqn:Hok.
    + rewrite run_ret. cbv beta iota. rewrite run_bind.
      erewrite try_except_ret
        by (apply log_add_run; split; [reflexivity | exact Hok]).
      rewrite run_ret. unfold created. destruct app_obj; reflexivity.
    + cbn [Exception]. cbv beta iota. rewrite run_bind. unfold rollback, modify.
      rewrite run_ret. cbv beta iota.
      rewrite discard_stage_clean by exact Hp.
      rewrite discard_clean by assumption. reflexivity.
  - destruct (insert_memory_bad_id P result user_obj app_obj w Hu) as [e He].
    unfold try_except at 1. rewrite run_bind, He. cbn [Exception]. cbv beta iota.
    rewrite run_bind. unfold rollback, modify. rewrite run_ret. cbv beta iota.
    rewrite discard_clean by assumption. reflexivity.
Qed.

End ReconcilerCreate.

(** ** Reconciler: one call *)

Module ReconcilerStep.
Import Session SessionFacts StateFacts CategorizeFacts CategorizeSpec ReconcilerRun
       ReconcilerCreate.

Lemma query_memory_by_id_text_run P result w :
  inactive w = false ->
  query_memory_by_id_text P (r_id result) w
  = match r_id result with
    | None => (Ret None, w)
    | Some s =>
        match UUID_of_string P s with
        | Some u => (Ret (find_memory u (pending w)), w)
        | None => if strict_uuid_compare P then (Raise DataError, set_inactive true w)
                  else (Ret None, w)
        end
    end.
Proof.
  intros Hi. unfold query_memory_by_id_text.
  assert (Hnone : forall A (l : list A), List.find (fun _ => false) l = None)
    by (intros A l; induction l; simpl; congruence).
  destruct (r_id result) as [s|].
  - destruct (UUID_of_string P s) as [u|].
    + rewrite query_first_run by exact Hi. reflexivity.
    + destruct (strict_uuid_compare P).
      * apply reject_run; exact Hi.
      * rewrite query_first_run, Hnone by exact Hi. reflexivity.
  - rewrite query_first_run, Hnone by exact Hi. reflexivity.
Qed.

Lemma query_memory_by_id_text_inactive P mem_id w :
  inactive w = true ->
  query_memory_by_id_text P mem_id w = (Raise PendingRollbackError, w).
Proof.
  intros Hi. unfold query_memory_by_id_text.
  destruct mem_id as [s|]; [destruct (UUID_of_string P s); [| destruct (strict_uuid_compare P)] |];
    try (apply query_first_raise; exact Hi).
  unfold reject. rewrite run_bind, guard_active_raise by exact Hi. reflexivity.
Qed.

(** An inactive session swallows every replay. *)
Lemma sync_inactive P result user_id agent_id w :
  inactive w = true -> quiescent P result user_id agent_id w.
Proof.
  intros Hi cat. unfold _sync_memory_to_pg, try_except.
  rewrite run_bind, query_memory_by_id_text_inactive by exact Hi. reflexivity.
Qed.

(** [_sync_memory_to_pg] returns normally from every session. *)
Lemma sync_returns P cat result user_id agent_id w :
  exists w', _sync_memory_to_pg P cat result user_id agent_id w = (Ret tt, w').
Proof.
  unfold _sync_memory_to_pg, try_except.
  match goal with |- context [match ?b w with _ => _ end] => destruct (b w) as [[[]|e] w'] end;
    eexists; reflexivity.
Qed.

Lemma categorize_memory_clean P cat memory w :
  clean w ->
  exists w2,
    categorize_memory P cat memory w = (Ret tt, w2)
    /\ clean w2
    /\ except_categories (pending w) (pending w2)
    /\ (NoDup (memory_categories (pending w)) -> NoDup (memory_categories (pending w2))).
Proof.
  intros (Hi & Hp & Hs).
  destruct (categorize_memory_run P cat memory w) as (w2 & Hrun & Hi2 & Hp2 & Hc).
  exists w2. split; [exact Hrun |].
  assert (Hx : except_categories (pending w) (pending w2)
               /\ (NoDup (memory_categories (pending w)) ->
                   NoDup (memory_categories (pending w2)))).
  { destruct Hc as [Hc | (names & w1 & _ & (_ & Hx & Hn) & Hc)].
    - rewrite Hp2, Hc, <- Hp. split; [apply except_categories_refl | tauto].
    - rewrite Hp2, Hc. split; assumption. }
  destruct Hx as [Hx Hn].
  split; [| split; assumption].
  split; [exact Hi2 |]. split; [exact Hp2 |].
  rewrite (except_categories_schema _ _ Hx). exact Hs.
Qed.

End ReconcilerStep.

Module ReconcilerUpdate.
Import Session SessionFacts StateFacts CategorizeFacts CategorizeSpec ReconcilerRun
       ReconcilerCreate ReconcilerStep.



Lemma content_updated_find result m d :
  find_memory (m_id m) d = Some m ->
  exists m', find_memory (m_id m) (content_updated result (m_id m) d) = Some m'
             /\ m_content m' = r_memory result /\ m_app_id m' = m_app_id m.
Proof.
  intros Hfind. unfold content_updated.
  pose proof (find_memory_update_memory (m_id m) (set_content (r_memory result)) d m
                Hfind eq_refl) as H1.
  destruct (truthy_obj (r_metadata result)).
  - eexists. split; [| split].
    + apply (find_memory_update_memory (m_id m)
               (set_metadata (default [] (r_metadata result))) _ _ H1). reflexivity.
    + reflexivity.
    + reflexivity.
  - eexists. split; [exact H1 | split; reflexivity].
Qed.

Lemma stage_content_updated result mid w :
  ((Session.stage (update_memory mid (set_content (r_memory result)));;
    (if truthy_obj (r_metadata result)
     then Session.stage (update_memory mid (set_metadata (default [] (r_metadata result))))
     else mret tt)) : M unit) w
  = (Ret tt, with_pending (content_updated result mid (pending w)) w).
Proof.
  rewrite run_bind, stage_run. cbv beta iota. unfold content_updated.
  destruct (truthy_obj (r_metadata result)); [rewrite stage_run | rewrite run_ret];
    destruct w; reflexivity.
Qed.

(** Lines 95-133 when the stored content already equals the event's. *)
Lemma categorize_and_update_same P cat result agent m w :
  clean w -> m_content m = r_memory result ->
  exists w2,
    categorize_and_update P cat result agent m w = (Ret tt, w2)
    /\ clean w2
    /\ except_categories (pending w) (pending w2)
    /\ (NoDup (memory_categories (pending w)) -> NoDup (memory_categories (pending w2))).
Proof.
  intros Hc Hm.
  destruct (categorize_memory_clean P cat m w Hc) as (w2 & Hrun & H2).
  exists w2. split; [| exact H2].
  unfold categorize_and_update. rewrite run_bind, Hrun. cbv beta iota.
  rewrite Hm. replace (opt_eqb String.eqb (r_memory result) (r_memory result)) with true
    by (symmetry; apply opt_eqb_string_eq; reflexivity).
  reflexivity.
Qed.


End ReconcilerUpdate.

Module ReconcilerCases.
Import Session SessionFacts StateFacts CategorizeFacts CategorizeSpec ReconcilerRun
       ReconcilerCreate ReconcilerStep ReconcilerUpdate.

Section Cases.
Variable P : Platform.
Variable result : SyncResult.
Variable user_id : string.
Variable agent_id : option string.

Lemma sync_lookup_raises cat w e w' :
  query_memory_by_id_text P (r_id result) w = (Raise e, w') ->
  _sync_memory_to_pg P cat result user_id agent_id w = (Ret tt, w').
Proof.
  intros H. unfold _sync_memory_to_pg, try_except. rewrite run_bind, H. reflexivity.
Qed.

Lemma sync_create_raises cat w e w' :
  query_memory_by_id_text P (r_id result) w = (Ret None, w) ->
  create_if_absent P result user_id agent_id w = (Raise e, w') ->
  _sync_memory_to_pg P cat result user_id agent_id w = (Ret tt, w').
Proof.
  intros H H'. unfold _sync_memory_to_pg, try_except.
  rewrite run_bind, H. cbv beta iota. rewrite run_bind, H'. reflexivity.
Qed.

Lemma sync_not_created cat w a :
  query_memory_by_id_text P (r_id result) w = (Ret None, w) ->
  create_if_absent P result user_id agent_id w = (Ret (a, None), w) ->
  _sync_memory_to_pg P cat result user_id agent_id w = (Ret tt, w).
Proof.
  intros H H'. unfold _sync_memory_to_pg, try_except.
  rewrite run_bind, H. cbv beta iota. rewrite run_bind, H'. reflexivity.
Qed.

Lemma sync_created cat w a row w1 :
  query_memory_by_id_text P (r_id result) w = (Ret None, w) ->
  create_if_absent P result user_id agent_id w = (Ret (a, Some row), w1) ->
  _sync_memory_to_pg P cat result user_id agent_id w
  = (Ret tt, snd (categorize_and_update P cat result a row w1)).
Proof.
  intros H H'. unfold _sync_memory_to_pg, try_except.
  rewrite run_bind, H. cbv beta iota. rewrite run_bind, H'. cbv beta iota.
  destruct (categorize_and_update P cat result a row w1) as [[[]|e] w2]; reflexivity.
Qed.

Lemma sync_found cat w m :
  query_memory_by_id_text P (r_id result) w = (Ret (Some m), w) ->
  _sync_memory_to_pg P cat result user_id agent_id w
  = (Ret tt, snd (categorize_and_update P cat result agent_id m w)).
Proof.
  intros H. unfold _sync_memory_to_pg, try_except.
  rewrite run_bind, H. cbv beta iota. rewrite run_bind, run_ret. cbv beta iota.
  destruct (categorize_and_update P cat result agent_id m w) as [[[]|e] w2]; reflexivity.
Qed.




End Cases.
End ReconcilerCases.

Module ReconcilerOnce.
Import Session SessionFacts StateFacts CategorizeFacts CategorizeSpec ReconcilerRun
       ReconcilerCreate ReconcilerStep ReconcilerUpdate ReconcilerCases.

Section Once.
Variable P : Platform.
Variable result : SyncResult.
Variable user_id : string.
Variable agent_id : option string.

Lemma created_facts agent row app_obj w :
  schema_ok (add_memory row (pending w)) = true ->
  clean (created P result agent row app_obj w)
  /\ memories (pending (created P result agent row app_obj w)) = memories (pending w) ++ [row]
  /\ memory_categories (pending (created P result agent row app_obj w))
     = memory_categories (pending w)
  /\ memory_status_history (pending (created P result agent row app_obj w))
     = memory_status_history (pending w).
Proof.
  intros Hs. unfold created. destruct app_obj as [app|]; simpl.
  - repeat split. simpl. rewrite schema_ok_add_access_log by reflexivity. exact Hs.
  - repeat split. exact Hs.
Qed.




Lemma schema_ok_add_memory row d :
  schema_ok (add_memory row d) = schema_ok d && row_ok row.
Proof.
  unfold schema_ok, add_memory, row_ok. simpl. rewrite forallb_app. simpl.
  rewrite andb_true_r.
  destruct (forallb _ (memories d)), (forallb _ (memory_access_logs d)),
    (negb (is_null (m_app_id row)) && negb (is_null (m_content row))); reflexivity.
Qed.


End Once.
End ReconcilerOnce.

(** ** Reconciler: replays *)

Module Idempotence.
Import Session SessionFacts StateFacts ReconcilerStep ReconcilerCases ReconcilerOnce.

Section Replays.
Variable P : Platform.
Variable result : SyncResult.
Variable user_id : string.
Variable agent_id : option string.





End Replays.
End Idempotence.

(** ** Reconciler: malformed identifiers *)

Module Malformed.
Import Session SessionFacts ReconcilerRun ReconcilerCreate ReconcilerStep ReconcilerCases.

Lemma create_if_absent_bad_id P result user_id agent_id w :
  inactive w = false -> event_uuid P result = None ->
  exists o w', create_if_absent P result user_id agent_id w = (o, w')
               /\ committed w' = committed w
               /\ (forall a row, o <> Ret (a, Some row)).
Proof.
  intros Hi Hu. unfold create_if_absent.
  rewrite run_bind, find_user_run by exact Hi. cbv beta iota.
  destruct (lookup_user P (pending w) user_id) as [user_obj|].
  2:{ eexists _, w. split; [reflexivity |]. split; [reflexivity | discriminate]. }
  rewrite run_bind, resolve_app_run by exact Hi.
  destruct (rejected P result agent_id).
  { eexists _, _. split; [reflexivity |]. split; [reflexivity | discriminate]. }
  cbv beta iota zeta. rewrite run_bind.
  destruct (insert_memory_bad_id P result user_obj
              (choose_app (pending w) result agent_id user_obj) w Hu) as [e He].
  unfold try_except at 1. rewrite run_bind, He. cbn [Exception]. cbv beta iota.
  rewrite run_bind. unfold rollback, modify. rewrite run_ret. cbv beta iota.
  eexists _, _. split; [reflexivity |]. split; [reflexivity | discriminate].
Qed.

(** C3, as amended: when the [id] of the event cannot be parsed as a UUID
    (or is missing), [_sync_memory_to_pg] returns normally, the error being
    logged and swallowed, and the committed database is left exactly as it
    was: no Memory row is inserted or updated. *)
Theorem sync_malformed_id_swallowed (P : Platform)
    (cat : option string -> Outcome (list string))
    (result : SyncResult) (user_id : string) (agent_id : option string) (w : World) :
  event_uuid P result = None ->
  exists w',
    _sync_memory_to_pg P cat result user_id agent_id w = (Ret tt, w')
    /\ committed w' = committed w.
Proof.
  intros Hu.
  destruct (inactive w) eqn:Hi.
  { exists w. split; [apply sync_inactive; exact Hi | reflexivity]. }
  pose proof (query_memory_by_id_text_run P result w Hi) as Hq.
  assert (Hcases : query_memory_by_id_text P (r_id result) w = (Ret None, w)
                   \/ query_memory_by_id_text P (r_id result) w
                      = (Raise DataError, set_inactive true w)).
  { unfold event_uuid in Hu. destruct (r_id result) as [s|]; [| left; exact Hq].
    rewrite Hu in Hq. destruct (strict_uuid_compare P); [right | left]; exact Hq. }
  destruct Hcases as [Hnone | Hraise].
  - destruct (create_if_absent_bad_id P result user_id agent_id w Hi Hu)
      as (o & w' & Hrun & Hc & Hno).
    exists w'. split; [| exact Hc].
    destruct o as [[a [row|]] | e].
    + exfalso. apply (Hno a row). reflexivity.
    + unfold _sync_memory_to_pg, try_except.
      rewrite run_bind, Hnone. cbv beta iota. rewrite run_bind, Hrun. reflexivity.
    + apply (sync_create_raises P result user_id agent_id cat w e w' Hnone Hrun).
  - exists (set_inactive true w).
    split; [apply (sync_lookup_raises P result user_id agent_id cat w _ _ Hraise) | reflexivity].
Qed.

End Malformed.

(** ** Relations preserved by a computation *)

Section Preservation.
Variable R : World -> World -> Prop.
Hypothesis R_refl : forall w, R w w.
Hypothesis R_trans : forall w1 w2 w3, R w1 w2 -> R w2 w3 -> R w1 w3.

Lemma preserves_ret {A} (a : A) : preserves R (mret a : M A).
Proof. intros w. apply R_refl. Qed.

Lemma preserves_raise {A} e : preserves R (raise e : M A).
Proof. intros w. apply R_refl. Qed.

Lemma preserves_lift {A} (o : Outcome A) : preserves R (lift o).
Proof. intros w. apply R_refl. Qed.

Lemma preserves_gets {A} (f : World -> A) : preserves R (Session.gets f).
Proof. intros w. apply R_refl. Qed.

Lemma preserves_modify f : (forall w, R w (f w)) -> preserves R (Session.modify f).
Proof. intros H w. apply H. Qed.

Lemma preserves_bind {A B} (m : M A) (f : A -> M B) :
  preserves R m -> (forall a, preserves R (f a)) -> preserves R (m ≫= f).
Proof.
  intros Hm Hf w. rewrite run_bind. specialize (Hm w).
  destruct (m w) as [[a|e] w1]; simpl in *; [| exact Hm].
  eapply R_trans; [exact Hm | apply Hf].
Qed.

Lemma preserves_try {A} (body : M A) handles handler :
  preserves R body -> (forall e, preserves R (handler e)) ->
  preserves R (try_except body handles handler).
Proof.
  intros Hb Hh w. unfold try_except. specialize (Hb w).
  destruct (body w) as [[a|e] w1]; simpl in *; [exact Hb |].
  destruct (handles e); [| exact Hb].
  eapply R_trans; [exact Hb | apply Hh].
Qed.

Lemma preserves_guard : preserves R Session.guard_active.
Proof. intros w. unfold Session.guard_active. destruct (inactive w); apply R_refl. Qed.

End Preservation.

Module HistoryFacts.
Import Session.

Lemma history_kept_refl w : history_kept w w.
Proof. split; [left | right]; reflexivity. Qed.

Lemma history_kept_trans w1 w2 w3 :
  history_kept w1 w2 -> history_kept w2 w3 -> history_kept w1 w3.
Proof.
  unfold history_kept. intros [[A|A] [B|B]] [[C|C] [D|D]];
    rewrite ?C, ?D, ?A, ?B; split; auto.
Qed.

#[local] Abbreviation keeps := (preserves history_kept).

Lemma keeps_bind {A B} (m : M A) (f : A -> M B) :
  keeps m -> (forall a, keeps (f a)) -> keeps (m ≫= f).
Proof. apply preserves_bind. apply history_kept_trans. Qed.

Lemma keeps_try {A} (body : M A) handles handler :
  keeps body -> (forall e, keeps (handler e)) -> keeps (try_except body handles handler).
Proof. apply preserves_try. apply history_kept_trans. Qed.

Lemma keeps_ret {A} (a : A) : keeps (mret a : M A).
Proof. apply preserves_ret, history_kept_refl. Qed.

Lemma keeps_raise {A} e : keeps (raise e : M A).
Proof. apply preserves_raise, history_kept_refl. Qed.

Lemma keeps_guard : keeps guard_active.
Proof. apply preserves_guard, history_kept_refl. Qed.

Lemma keeps_query_first {A} (t : DB -> list A) p : keeps (query_first t p).
Proof.
  apply keeps_bind; [apply keeps_guard | intros _; apply preserves_gets, history_kept_refl].
Qed.

Lemma keeps_query_all {A} (t : DB -> list A) p : keeps (query_all t p).
Proof.
  apply keeps_bind; [apply keeps_guard | intros _; apply preserves_gets, history_kept_refl].
Qed.

Lemma keeps_stage f :
  (forall d, memory_status_history (f d) = memory_status_history d) -> keeps (stage f).
Proof. intros H w. split; [left; apply H | right; reflexivity]. Qed.

Lemma keeps_execute f :
  (forall d, memory_status_history (f d) = memory_status_history d) -> keeps (execute f).
Proof. intros H. apply keeps_bind; [apply keeps_guard | intros _; apply keeps_stage, H]. Qed.

Lemma keeps_flush : keeps flush.
Proof.
  apply keeps_bind; [apply keeps_guard | intros _].
  apply keeps_bind; [apply preserves_gets, history_kept_refl | intros [|]].
  - apply keeps_ret.
  - apply keeps_bind; [| intros _; apply keeps_raise].
    apply preserves_modify. intros w. split; [left | right]; reflexivity.
Qed.

Lemma keeps_commit : keeps commit.
Proof.
  apply keeps_bind; [apply keeps_flush | intros _].
  intros w. split; left; reflexivity.
Qed.

Lemma keeps_rollback : keeps rollback.
Proof. intros w. split; right; reflexivity. Qed.

Lemma keeps_reject {A} : keeps (@reject A).
Proof.
  apply keeps_bind; [apply keeps_guard | intros _].
  apply keeps_bind; [| intros _; apply keeps_raise].
  apply preserves_modify. intros w. split; [left | right]; reflexivity.
Qed.

Lemma keeps_uuid4 P : keeps (uuid4 P).
Proof. intros w. split; [left | right]; reflexivity. Qed.

Lemma keeps_UUID_ P s : keeps (UUID_ P s).
Proof.
  unfold UUID_. destruct s as [s|]; [destruct (UUID_of_string P s) |];
    first [apply keeps_ret | apply keeps_raise].
Qed.

Lemma keeps_int_ P s : keeps (int_ P s).
Proof. unfold int_. destruct (int_of_string P s); [apply keeps_ret | apply keeps_raise]. Qed.

(** Composite computations are handled by decomposing them. *)
Ltac keeps_step :=
  first
    [ apply keeps_ret | apply keeps_raise | apply keeps_guard | apply keeps_query_first
    | apply keeps_query_all | apply keeps_flush | apply keeps_commit | apply keeps_rollback
    | apply keeps_reject | apply keeps_uuid4 | apply keeps_UUID_ | apply keeps_int_
    | apply preserves_lift, history_kept_refl
    | apply keeps_stage; intros; reflexivity
    | apply keeps_execute; intros; reflexivity
    | apply keeps_bind; [| intros ?]
    | apply keeps_try; [| intros ?]
    | match goal with
      | |- keeps (match ?x with _ => _ end) => destruct x
      | |- keeps (if ?x then _ else _) => destruct x
      | |- keeps (let '(_, _) := ?x in _) => destruct x
      end ].

Lemma keeps_categorize_each P mid names : keeps (categorize_each P mid names).
Proof.
  induction names as [|name names IH]; cbn [categorize_each]; [apply keeps_ret |].
  repeat first [exact IH | keeps_step].
Qed.

Lemma keeps_categorize_memory P cat memory : keeps (categorize_memory P cat memory).
Proof.
  unfold categorize_memory. repeat first [apply keeps_categorize_each | keeps_step].
Qed.

Lemma keeps_find_user P user_id : keeps (find_user P user_id).
Proof. unfold find_user. repeat keeps_step. Qed.

Lemma keeps_resolve_app P result agent_id user_obj :
  keeps (resolve_app P result agent_id user_obj).
Proof. unfold resolve_app, query_app_by_int_id. repeat keeps_step. Qed.

Lemma keeps_create_if_absent P result user_id agent_id :
  keeps (create_if_absent P result user_id agent_id).
Proof.
  unfold create_if_absent, insert_memory, log_add, refresh.
  repeat first [apply keeps_find_user | apply keeps_resolve_app | keeps_step].
Qed.

Lemma keeps_categorize_and_update P cat result agent_id m :
  keeps (categorize_and_update P cat result agent_id m).
Proof.
  unfold categorize_and_update.
  repeat first [apply keeps_categorize_memory | keeps_step].
Qed.

(** The reconciler never writes to [memory_status_history]: in any session
    and for any event, the table it leaves, pending or committed, is one it
    found. *)
Lemma sync_writes_no_history P cat result user_id agent_id :
  keeps (_sync_memory_to_pg P cat result user_id agent_id).
Proof.
  unfold _sync_memory_to_pg, query_memory_by_id_text.
  repeat first [apply keeps_create_if_absent | apply keeps_categorize_and_update | keeps_step].
Qed.

End HistoryFacts.

(** ** App cascade purge *)

Module PurgeFacts.
Import Session SessionFacts Apps.

Lemma forallb_filter {A} (p q : A -> bool) (l : list A) :
  forallb p l = true -> forallb p (List.filter q l) = true.
Proof.
  rewrite !forallb_forall. intros H x Hx. apply List.filter_In in Hx as [Hx _]. auto.
Qed.

Lemma schema_ok_purged app_id d : schema_ok d = true -> schema_ok (purged app_id d) = true.
Proof.
  unfold schema_ok, purged. intros H. apply andb_true_iff in H as [Hm Hl].
  destruct (List.map m_id (List.filter (owned_by app_id) (memories d))); simpl;
    apply andb_true_iff; split; try (apply forallb_filter; assumption); assumption.
Qed.

Lemma delete_app_run app_id current_user app w :
  usable w ->
  List.find (fun a => a_id a =? app_id) (apps (pending w)) = Some app ->
  negb (u_is_admin current_user) && negb (a_owner_id app =? u_id current_user) = false ->
  delete_app app_id current_user w
  = (Ret tt, publish (with_pending (purged app_id (pending w)) w)).
Proof.
  intros [Hi Hs] Hfind Hperm. unfold delete_app, get_app_or_404.
  rewrite ?run_bind_assoc, run_bind, query_first_run by exact Hi. cbv beta iota.
  rewrite Hfind, run_bind, run_ret. cbv beta iota. rewrite Hperm.
  rewrite run_bind, query_all_run by exact Hi. cbv beta iota.
  pose proof (schema_ok_purged app_id (pending w) Hs) as Hok. unfold purged in *.
  destruct (List.map m_id (List.filter (owned_by app_id) (memories (pending w)))) as [|i ids].
  - rewrite ?run_bind_assoc, run_bind, run_ret. cbv beta iota.
    rewrite run_bind, execute_run by exact Hi. cbv beta iota.
    mstep. rewrite commit_run; [reflexivity | split; [exact Hi | exact Hok]].
  - do 4 (rewrite ?run_bind_assoc, run_bind, execute_run by exact Hi; cbv beta iota).
    mstep. rewrite commit_run; [reflexivity | split; [exact Hi | exact Hok]].
Qed.

Lemma mem_uuid_In x l : mem_uuid x l = true <-> In x l.
Proof.
  unfold mem_uuid. rewrite existsb_exists. split.
  - intros (y & Hy & E). apply N.eqb_eq in E. subst. exact Hy.
  - intros H. exists x. split; [exact H | apply N.eqb_refl].
Qed.

(** What the purge guarantees: the App row and its Memory rows are gone, and
    no category link, access log or history row names a removed Memory. *)
Lemma purged_no_memory_refs app_id d :
  let gone := List.map m_id (List.filter (owned_by app_id) (memories d)) in
  (forall a, In a (apps (purged app_id d)) -> a_id a <> app_id)
  /\ (forall m, In m (memories (purged app_id d)) -> m_app_id m <> Some app_id)
  /\ (forall r, In r (memory_categories (purged app_id d)) -> ~ In (fst r) gone)
  /\ (forall l, In l (memory_access_logs (purged app_id d)) -> ~ In (l_memory_id l) gone)
  /\ (forall h, In h (memory_status_history (purged app_id d)) -> ~ In (h_memory_id h) gone).
Proof.
  cbv zeta. unfold purged.
  split; [| split].
  - intros a Ha. simpl in Ha. apply List.filter_In in Ha as [_ Ha].
    apply negb_true_iff, N.eqb_neq in Ha. exact Ha.
  - intros m Hm. simpl in Hm.
    assert (Hf : In m (List.filter (fun m => negb (owned_by app_id m)) (memories d))).
    { destruct (List.map m_id (List.filter (owned_by app_id) (memories d))); exact Hm. }
    apply List.filter_In in Hf as [_ Hf]. apply negb_true_iff in Hf.
    intros E. unfold owned_by in Hf. rewrite E in Hf. simpl in Hf.
    rewrite N.eqb_refl in Hf. discriminate.
  - destruct (List.map m_id (List.filter (owned_by app_id) (memories d))) as [|i ids] eqn:E.
    + repeat split; intros x _ [].
    + repeat split; intros x Hx Hin;
        cbn [memory_categories memory_access_logs memory_status_history
             delete_app_row delete_memories_of_app delete_history_of
             delete_access_logs_of delete_categories_of with_apps with_memories
             with_history with_access_logs with_memory_categories] in Hx;
        apply List.filter_In in Hx as [_ Hx]; apply negb_true_iff in Hx;
        apply mem_uuid_In in Hin; congruence.
Qed.

End PurgeFacts.

(** ** The code at the inputs where claims fail *)

Module ScenarioFacts.
Import Scenario.

(** C2, the code at the failing input: the reconciler stores the new
    memory in state [active] and writes no status-history row, on either
    backend; and in no session, for no event, does it ever write one.  On the
    same input the sibling path [create_memory] stores the same row together
    with the history entry (deleted, active). *)
Theorem sync_creates_without_history :
  (forall P cat result user_id agent_id w,
     history_kept w (snd (_sync_memory_to_pg P cat result user_id agent_id w)))
  /\ (let w' := snd (sync false labels tea None (base [kitchen])) in
      find_memory 161 (committed w') = Some (memory_row 161 1 10 "likes tea")
      /\ memory_status_history (committed w') = [])
  /\ (let w' := snd (sync true labels tea None (base [kitchen])) in
      find_memory 161 (committed w') = Some (memory_row 161 1 10 "likes tea")
      /\ memory_status_history (committed w') = [])
  /\ (let w' := snd (create_memory_persist (Demo.platform true) labels
                        "00000000-0000-0000-0000-0000000000a1" "likes tea" [] true
                        alice kitchen (Demo.world (base [kitchen]))) in
      find_memory 161 (committed w') = Some (memory_row 161 1 10 "likes tea")
      /\ List.map (fun h => (h_memory_id h, h_old_state h, h_new_state h))
           (memory_status_history (committed w'))
         = [(161, deleted, active)]).
Proof.
  split; [| split; [| split]].
  - intros. apply HistoryFacts.sync_writes_no_history.
  - vm_compute. split; reflexivity.
  - vm_compute. split; reflexivity.
  - vm_compute. split; reflexivity.
Qed.

(** C3 as stated fails: with an [id] that is not a UUID the call returns
    normally on either backend; no error reaches the caller. *)
Lemma sync_malformed_id_returns :
  event_uuid (Demo.platform false) malformed = None
  /\ fst (sync false labels malformed None (base [kitchen])) = Ret tt
  /\ fst (sync true labels malformed None (base [kitchen])) = Ret tt
  /\ ~ (exists e, fst (sync false labels malformed None (base [kitchen])) = Raise e)
  /\ ~ (exists e, fst (sync true labels malformed None (base [kitchen])) = Raise e).
Proof.
  repeat split; try reflexivity; intros [e He]; vm_compute in He; discriminate.
Qed.

Lemma sync_malformed_id_swallowed_witness :
  event_uuid (Demo.platform true) malformed = None
  /\ exists w',
       _sync_memory_to_pg (Demo.platform true) labels malformed "alice" None
         (Demo.world (base [kitchen])) = (Ret tt, w')
       /\ committed w' = committed (Demo.world (base [kitchen])).
Proof.
  split; [reflexivity |].
  apply (Malformed.sync_malformed_id_swallowed (Demo.platform true) labels malformed
           "alice" None (Demo.world (base [kitchen]))).
  reflexivity.
Defined.

(** C4, the code at the failing input: the stored content "likes tea" is
    replaced by "likes coffee" and an [UPDATE] access log is written, but its
    metadata holds the agent id, the source and the event kind only, neither
    the previous nor the new content; and the categories linked to the memory
    are those of the previous content, categorization having run before the
    update.  On the same input the sibling path [update_memory_content] logs
    both the new and the previous content. *)
Theorem sync_update_log_lacks_contents :
  let w' := snd (sync true labels coffee None stored) in
  find_memory 161 (committed w') = Some (memory_row 161 1 10 "likes coffee")
  /\ List.map (fun l => (l_access_type l, l_metadata l)) (memory_access_logs (committed w'))
     = [("UPDATE", [("agent_id", None); ("source", Some "mcp_tool");
                    ("event", Some "update")])]
  /\ Forall (fun l => Forall (fun kv => snd kv <> Some "likes tea"
                                        /\ snd kv <> Some "likes coffee") (l_metadata l))
       (memory_access_logs (committed w'))
  /\ List.map c_name (categories (committed w')) = ["tea"]
  /\ memories (committed (snd (sync false labels coffee None stored)))
     = memories (committed w')
  /\ memory_access_logs (committed (snd (sync false labels coffee None stored)))
     = memory_access_logs (committed w')
  /\ categories (committed (snd (sync false labels coffee None stored)))
     = categories (committed w')
  /\ List.map (fun l => (l_access_type l, l_metadata l))
       (memory_access_logs
          (committed (snd (update_memory_content (Demo.platform true) 161 "likes coffee"
                             alice (Demo.world stored)))))
     = [("update", [("assistant_text", Some "likes coffee");
                    ("previous_memory", Some "likes tea")])].
Proof.
  vm_compute. repeat split; try reflexivity.
  repeat constructor; simpl; discriminate.
Qed.

(** C7, the code at the failing input: with [agent_id = "7"] the App
    whose [agent_id] column is 7 is not chosen.  A permissive backend links
    the memory to the App whose name contains "7"; a strict backend rejects
    the lookup and stores nothing.  The lookup by integer id never returns an
    App at all.  And an owner without Apps gets no Memory row. *)
Theorem sync_ignores_agent_id_column :
  (forall P aid w a, fst (query_app_by_int_id P aid w) <> Ret (Some a))
  /\ List.map m_app_id
       (memories (committed (snd (sync false labels tea (Some "7") (base [kitchen; dev7])))))
     = [Some 11]
  /\ memories (committed (snd (sync true labels tea (Some "7") (base [kitchen; dev7])))) = []
  /\ memories (committed (snd (sync false labels tea None (base [])))) = []
  /\ memories (committed (snd (sync true labels tea None (base [])))) = [].
Proof.
  split; [| vm_compute; repeat split; reflexivity].
  intros P aid w a. unfold query_app_by_int_id, Session.reject, Session.query_first.
  destruct (strict_uuid_compare P); rewrite !run_bind; unfold Session.guard_active;
    destruct (inactive w); simpl; try discriminate.
  induction (apps (pending w)); simpl; [discriminate | assumption].
Qed.


End ScenarioFacts.

(** ** Instances of the general theorems *)

Module Witness.
Import Scenario.





(** The database of the scenario accepts the event, and the first call
    stores its memory: the last two clauses of the theorem are not vacuous
    there. *)
Example scenario_accepts :
  accepts (Demo.platform true) tea "alice" None (committed (Demo.world (base [kitchen]))) 161
  /\ find_memory 161
       (committed (snd (_sync_memory_to_pg (Demo.platform true) labels tea "alice" None
                          (Demo.world (base [kitchen])))))
     = Some (memory_row 161 1 10 "likes tea").
Proof.
  split; [| vm_compute; reflexivity].
  right. exists alice. repeat split; reflexivity.
Qed.

End Witness.

(** * Further theorems *)

(** ** Access control resolver: the remaining cases *)

Module ACLMore.
Import ACL ACLFacts.

(** X1: when the rules of an App, in store order, contain a deny rule with
    a null object_id that no allow rule with a null object_id precedes, the
    App sees nothing: the result is the empty set, whatever specific rules
    are present. *)
Theorem get_accessible_memory_ids_deny_all
    (db : DB) (app_id : UUID) (pre post : list AccessControl) (r : AccessControl) :
  List.filter (app_rule app_id) (access_controls db) = pre ++ r :: post ->
  deny_all r = true ->
  (forall x, In x pre -> allow_all x = false) ->
  get_accessible_memory_ids db app_id = Some ∅.
Proof.
  intros Hrules Hr Hpre. unfold get_accessible_memory_ids.
  rewrite Hrules.
  destruct (pre ++ r :: post) eqn:E.
  - destruct pre; discriminate.
  - rewrite <- E. apply process_rules_deny_first; assumption.
Qed.

Lemma get_accessible_memory_ids_deny_all_witness :
  get_accessible_memory_ids
    (Scenario.db_of_rules [Scenario.rule "allow" (Some 7); Scenario.rule "deny" None;
                           Scenario.rule "allow" None]) 1
  = Some ∅.
Proof.
  apply (get_accessible_memory_ids_deny_all _ 1
           [Scenario.rule "allow" (Some 7)] [Scenario.rule "allow" None]
           (Scenario.rule "deny" None)).
  - reflexivity.
  - reflexivity.
  - intros x [<- | []]. reflexivity.
Defined.

(** The loop over rules none of which has a null object_id. *)
Lemma process_rules_specific rules :
  (forall r, In r rules -> ac_object_id r <> None) ->
  forall A D,
    process_rules rules A D
    = Some (if bool_decide (specific_ids "allow" rules ∪ A = ∅)
            then specific_ids "allow" rules ∪ A
            else (specific_ids "allow" rules ∪ A) ∖ (specific_ids "deny" rules ∪ D)).
Proof.
  induction rules as [|r rules IH]; intros Hall A D.
  - simpl. rewrite !(left_id_L ∅ (∪)). reflexivity.
  - assert (Hr : ac_object_id r <> None) by (apply Hall; left; reflexivity).
    assert (Hrest : forall x, In x rules -> ac_object_id x <> None)
      by (intros x Hx; apply Hall; right; exact Hx).
    cbn [process_rules specific_ids].
    destruct (ac_object_id r) as [oid|]; [| congruence].
    destruct (String.eqb (ac_effect r) "allow") eqn:Ea.
    + assert (Ed : String.eqb (ac_effect r) "deny" = false).
      { apply String.eqb_eq in Ea. rewrite Ea. reflexivity. }
      rewrite Ed, (IH Hrest).
      rewrite (assoc_L (∪) (specific_ids "allow" rules)),
        (comm_L (∪) (specific_ids "allow" rules) {[oid]}).
      reflexivity.
    + destruct (String.eqb (ac_effect r) "deny") eqn:Ed.
      * rewrite (IH Hrest).
        rewrite (assoc_L (∪) (specific_ids "deny" rules)),
          (comm_L (∪) (specific_ids "deny" rules) {[oid]}).
        reflexivity.
      * apply IH; exact Hrest.
Qed.

(** X2: when an App has rules and none of them has a null object_id, it
    sees exactly the memories named by an allow rule and by no deny rule; in
    particular an App with deny rules only sees nothing. *)
Theorem get_accessible_memory_ids_specific (db : DB) (app_id : UUID) :
  List.filter (app_rule app_id) (access_controls db) <> [] ->
  (forall r, In r (List.filter (app_rule app_id) (access_controls db)) ->
             ac_object_id r <> None) ->
  get_accessible_memory_ids db app_id
  = Some (specific_ids "allow" (List.filter (app_rule app_id) (access_controls db))
          ∖ specific_ids "deny" (List.filter (app_rule app_id) (access_controls db))).
Proof.
  intros Hne Hall. unfold get_accessible_memory_ids.
  destruct (List.filter (app_rule app_id) (access_controls db)) as [|r rules] eqn:E;
    [congruence |].
  rewrite (process_rules_specific (r :: rules) Hall ∅ ∅).
  rewrite !(right_id_L ∅ (∪)). f_equal.
  case_bool_decide as Hempty; [| reflexivity].
  rewrite Hempty, empty_difference_L. reflexivity.
Qed.

Lemma get_accessible_memory_ids_specific_witness :
  get_accessible_memory_ids
    (Scenario.db_of_rules [Scenario.rule "allow" (Some 7); Scenario.rule "deny" (Some 7);
                           Scenario.rule "allow" (Some 8)]) 1
  = Some (specific_ids "allow"
            [Scenario.rule "allow" (Some 7); Scenario.rule "deny" (Some 7);
             Scenario.rule "allow" (Some 8)]
          ∖ specific_ids "deny"
              [Scenario.rule "allow" (Some 7); Scenario.rule "deny" (Some 7);
               Scenario.rule "allow" (Some 8)]).
Proof.
  apply (get_accessible_memory_ids_specific
           (Scenario.db_of_rules [Scenario.rule "allow" (Some 7); Scenario.rule "deny" (Some 7);
                                  Scenario.rule "allow" (Some 8)]) 1).
  - discriminate.
  - intros r [<- | [<- | [<- | []]]]; discriminate.
Defined.

End ACLMore.

(** ** Batch state update *)

Module StateEndpointFacts.
Import Session SessionFacts StateFacts StateMachine BatchDelete ReconcilerCreate.

(** The loop over a run of ids that all name a memory the caller may
    update, followed by any other ids. *)
Lemma update_state_loop_prefix P user s pre :
  forall rest w acc,
    usable w ->
    Forall (fun x => deletable user (pending w) x = true) pre ->
    exists w' rows added,
      update_state_loop P user s (pre ++ rest) acc w
        = update_state_loop P user s rest (acc ++ rows) w'
      /\ length rows = length pre
      /\ usable w'
      /\ (pre <> [] -> committed w' = pending w')
      /\ (pre = [] -> w' = w)
      /\ memory_status_history (pending w') = memory_status_history (pending w) ++ added
      /\ length added = length pre
      /\ Forall (fun h => h_new_state h = s /\ h_changed_by h = u_id user
                          /\ In (h_memory_id h) pre) added
      /\ (forall x, deletable user (pending w') x = deletable user (pending w) x)
      /\ (forall x, In x pre ->
            exists m', find_memory x (pending w') = Some m' /\ m_state m' = s)
      /\ (forall x, ~ In x pre -> find_memory x (pending w') = find_memory x (pending w)).
Proof.
  induction pre as [|mid pre IH]; intros rest w acc Hu Hall.
  - exists w, [], []. rewrite !List.app_nil_r. simpl.
    split; [reflexivity |]. split; [reflexivity |]. split; [exact Hu |].
    split; [congruence |]. split; [reflexivity |]. split; [reflexivity |].
    split; [reflexivity |]. split; [constructor |]. split; [reflexivity |].
    split; [intros x [] | reflexivity].
  - apply Forall_cons in Hall as [Hd Hall].
    pose proof Hd as Hd'. unfold deletable in Hd'.
    destruct (find_memory mid (pending w)) as [m|] eqn:Hfind; [| discriminate].
    destruct (update_memory_state_run P mid s (u_id user) m w Hu Hfind)
      as (w1 & Hrun1 & Hc1 & Hp1 & Hi1).
    assert (Hpend1 : pending w1 = after_set_state P mid s (u_id user) m w)
      by (rewrite Hp1; exact Hc1).
    assert (Hu1 : usable w1).
    { split; [exact Hi1 |]. rewrite Hpend1.
      apply after_set_state_schema; [apply Hu | apply (find_memory_In _ _ _ Hfind)]. }
    assert (Hsame : forall x, deletable user (pending w1) x = deletable user (pending w) x).
    { intros x. rewrite Hpend1. apply deletable_after_set_state. exact Hfind. }
    assert (Hall1 : Forall (fun x => deletable user (pending w1) x = true) pre).
    { eapply List.Forall_impl; [| exact Hall]. intros x Hx. rewrite Hsame. exact Hx. }
    destruct (IH rest w1 (acc ++ [stamped s (utcnow_at P (clock_reads w)) m]) Hu1 Hall1)
      as (w' & rows & added & Hrun & Hlen & Hu' & Hcp & Hnil & Hh & Hl & Hfa & Hst & Hdone & Hkeep).
    exists w', (stamped s (utcnow_at P (clock_reads w)) m :: rows),
      ({| h_id := uuid4_at P (uuid_draws w); h_memory_id := mid;
          h_changed_by := u_id user; h_old_state := m_state m;
          h_new_state := s |} :: added).
    split.
    { cbn [List.app update_state_loop].
      rewrite run_bind, query_first_run by apply Hu. cbv beta iota.
      fold (find_memory mid (pending w)). rewrite Hfind.
      replace (negb (u_is_admin user) && negb (m_user_id m =? u_id user)) with false
        by (destruct (u_is_admin user), (m_user_id m =? u_id user); simpl in *; congruence).
      rewrite run_bind, Hrun1. cbv beta iota. rewrite Hrun, <- List.app_assoc. reflexivity. }
    split; [simpl; rewrite Hlen; reflexivity |].
    split; [exact Hu' |].
    split.
    { intros _. destruct pre as [|y pre'].
      - rewrite (Hnil eq_refl). symmetry. exact Hp1.
      - apply Hcp. discriminate. }
    split; [discriminate |].
    split.
    { rewrite Hh, Hpend1, after_set_state_history, <- List.app_assoc. reflexivity. }
    split; [simpl; rewrite Hl; reflexivity |].
    split.
    { constructor.
      - simpl. repeat split; try reflexivity. left; reflexivity.
      - eapply List.Forall_impl; [| exact Hfa]. simpl. intros h (H1 & H2 & H3).
        repeat split; try assumption. right; exact H3. }
    split; [intros x; rewrite Hst; apply Hsame |].
    split.
    { intros x Hin.
      destruct (in_dec N.eq_dec x pre) as [Hin' | Hnin].
      - apply Hdone; exact Hin'.
      - destruct Hin as [<- | Hin]; [| contradiction].
        rewrite (Hkeep mid Hnin), Hpend1.
        rewrite (after_set_state_find P mid s (u_id user) m w Hfind).
        eexists; split; [reflexivity | apply stamped_state]. }
    { intros x Hx.
      assert (Hne : x <> mid) by (intros ->; apply Hx; left; reflexivity).
      rewrite Hkeep.
      - rewrite Hpend1. apply after_set_state_find_other; [exact Hne |].
        apply (find_memory_In _ _ _ Hfind).
      - intros Hin. apply Hx. right; exact Hin. }
Qed.

(** X3: when the state name is valid and every id of the request names a
    memory the caller owns (or any memory, for an admin), the endpoint
    returns the number of ids; it appends one history row per id, each to the
    requested state and by the caller, and every named memory ends in that
    state, all of it committed. *)
Theorem update_memory_state_endpoint_all (P : Platform) (memory_ids : list UUID)
    (state : string) (new_state : MemoryState) (current_user : User) (w : World) :
  usable w ->
  MemoryState_of_string state = Some new_state ->
  Forall (fun x => deletable current_user (pending w) x = true) memory_ids ->
  exists w' added,
    update_memory_state_endpoint P memory_ids state current_user w
      = (Ret (length memory_ids), w')
    /\ memory_status_history (pending w') = memory_status_history (pending w) ++ added
    /\ length added = length memory_ids
    /\ Forall (fun h => h_new_state h = new_state /\ h_changed_by h = u_id current_user
                        /\ In (h_memory_id h) memory_ids) added
    /\ (forall x, In x memory_ids ->
          exists m', find_memory x (pending w') = Some m' /\ m_state m' = new_state)
    /\ (forall x, ~ In x memory_ids -> find_memory x (pending w') = find_memory x (pending w))
    /\ (memory_ids <> [] -> committed w' = pending w').
Proof.
  intros Hu Hs Hall.
  destruct (update_state_loop_prefix P current_user new_state memory_ids [] w [] Hu Hall)
    as (w' & rows & added & Hrun & Hlen & _ & Hcp & _ & Hh & Hl & Hfa & _ & Hdone & Hkeep).
  exists w', added. split.
  - unfold update_memory_state_endpoint, try_except. rewrite run_bind, Hs, run_ret.
    cbv beta iota. rewrite run_bind.
    rewrite List.app_nil_r in Hrun. rewrite Hrun. cbn [update_state_loop].
    rewrite run_ret. cbv beta iota. rewrite run_ret. simpl. rewrite Hlen. reflexivity.
  - repeat split; assumption.
Qed.

(** X4: the batch is not atomic.  A state name outside the enumeration is
    answered with 400 before anything is read.  Otherwise, when the ids
    before the first one that is missing (404) or not permitted (403) can all
    be updated, the call raises that error and yet the transitions and history
    rows of those earlier ids stay committed. *)
Theorem update_memory_state_endpoint_partial (P : Platform) (pre post : list UUID)
    (bad : UUID) (state : string) (current_user : User) (w : World) :
  usable w ->
  Forall (fun x => deletable current_user (pending w) x = true) pre ->
  deletable current_user (pending w) bad = false ->
  (MemoryState_of_string state = None ->
   update_memory_state_endpoint P (pre ++ bad :: post) state current_user w
   = (Raise (HTTPException 400), w))
  /\ (forall new_state,
        MemoryState_of_string state = Some new_state ->
        exists w' added,
          update_memory_state_endpoint P (pre ++ bad :: post) state current_user w
            = (Raise (HTTPException
                        (if is_null (find_memory bad (pending w)) then 404 else 403)%nat), w')
          /\ memory_status_history (pending w')
             = memory_status_history (pending w) ++ added
          /\ length added = length pre
          /\ (forall x, In x pre ->
                exists m', find_memory x (pending w') = Some m' /\ m_state m' = new_state)
          /\ (pre <> [] -> committed w' = pending w')).
Proof.
  intros Hu Hall Hbad. split.
  - intros Hs. unfold update_memory_state_endpoint, try_except.
    rewrite run_bind, Hs. reflexivity.
  - intros new_state Hs.
    destruct (update_state_loop_prefix P current_user new_state pre (bad :: post) w [] Hu Hall)
      as (w' & rows & added & Hrun & _ & Hu' & Hcp & _ & Hh & Hl & _ & Hst & Hdone & Hkeep).
    exists w', added. split; [| repeat split; assumption].
    unfold update_memory_state_endpoint, try_except. rewrite run_bind, Hs, run_ret.
    cbv beta iota. rewrite run_bind, Hrun. cbn [update_state_loop].
    rewrite run_bind, query_first_run by apply Hu'. cbv beta iota.
    fold (find_memory bad (pending w')).
    assert (Hfind : find_memory bad (pending w') = find_memory bad (pending w)).
    { destruct (in_dec N.eq_dec bad pre) as [Hin | Hnin]; [| apply Hkeep; exact Hnin].
      rewrite List.Forall_forall in Hall. rewrite (Hall bad Hin) in Hbad. discriminate. }
    rewrite Hfind. unfold deletable in Hbad.
    destruct (find_memory bad (pending w)) as [m|]; [| reflexivity].
    replace (negb (u_is_admin current_user) && negb (m_user_id m =? u_id current_user))
      with true
      by (destruct (u_is_admin current_user), (m_user_id m =? u_id current_user);
          simpl in *; congruence).
    reflexivity.
Qed.

(** X5: deleting again.  A second [delete_memories] call with the same
    request finds the soft-deleted rows still there: it returns the same
    count as the first and appends that many history rows once more. *)
Theorem delete_memories_twice (P : Platform) (memory_ids : list UUID)
    (current_user : User) (w : World) :
  usable w ->
  exists n w1 w2 added1 added2,
    delete_memories P memory_ids current_user w = (Ret n, w1)
    /\ delete_memories P memory_ids current_user w1 = (Ret n, w2)
    /\ memory_status_history (pending w2)
       = memory_status_history (pending w) ++ added1 ++ added2
    /\ length added1 = n /\ length added2 = n.
Proof.
  intros Hu.
  destruct (delete_memories_loop_run P current_user memory_ids w 0%nat Hu)
    as (w1 & added1 & Hrun1 & Hu1 & Hh1 & Hl1 & _ & Hst1 & _).
  destruct (delete_memories_loop_run P current_user memory_ids w1 0%nat Hu1)
    as (w2 & added2 & Hrun2 & _ & Hh2 & Hl2 & _).
  rewrite (filter_ext_eq _ _ memory_ids Hst1) in Hrun2, Hl2.
  exists (length (List.filter (deletable current_user (pending w)) memory_ids)),
    w1, w2, added1, added2.
  split; [exact Hrun1 |]. split; [exact Hrun2 |].
  split; [rewrite Hh2, Hh1, <- List.app_assoc; reflexivity |].
  split; assumption.
Qed.

End StateEndpointFacts.

(** ** Categorization: links and idempotence *)

(** ** Categorization: links and idempotence *)

Module CategorizeLinks.
Import Session SessionFacts CategorizeFacts CategorizeSpec ReconcilerCreate.

Lemma find_snoc_some {A} (p : A -> bool) l x y :
  List.find p l = Some y -> List.find p (l ++ [x]) = Some y.
Proof.
  induction l as [|a l IH]; simpl; [discriminate |].
  destruct (p a); [trivial | exact IH].
Qed.

Lemma find_snoc_none {A} (p : A -> bool) l x :
  List.find p l = None -> p x = true -> List.find p (l ++ [x]) = Some x.
Proof.
  induction l as [|a l IH]; simpl; intros H Hx.
  - rewrite Hx. reflexivity.
  - destruct (p a); [discriminate | apply IH; assumption].
Qed.

Lemma find_name_not_in name (l : list Category) :
  List.find (fun c => String.eqb (c_name c) name) l = None ->
  ~ In name (List.map c_name l).
Proof.
  intros H Hin. apply in_map_iff in Hin as (c & Hc & Hin).
  apply (List.find_none _ _ H) in Hin. simpl in Hin.
  rewrite Hc, String.eqb_refl in Hin. discriminate.
Qed.

Lemma find_pair_In (mid cid : UUID) (l : list (UUID * UUID)) r :
  List.find (fun r : UUID * UUID => (fst r =? mid) && (snd r =? cid)) l = Some r -> In (mid, cid) l.
Proof.
  intros H. apply List.find_some in H as [Hin Hp].
  apply andb_true_iff in Hp as [H1 H2]. apply N.eqb_eq in H1, H2.
  destruct r as [a b]; simpl in *; subst. exact Hin.
Qed.

Lemma In_find_pair (mid cid : UUID) (l : list (UUID * UUID)) :
  In (mid, cid) l ->
  exists r, List.find (fun r : UUID * UUID => (fst r =? mid) && (snd r =? cid)) l = Some r.
Proof.
  intros Hin.
  destruct (List.find (fun r : UUID * UUID => (fst r =? mid) && (snd r =? cid)) l) as [r|] eqn:E;
    [eexists; reflexivity |].
  apply (List.find_none _ _ E) in Hin. simpl in Hin. rewrite !N.eqb_refl in Hin. discriminate.
Qed.

(** What one run of the loop does to a usable session. *)
Definition linking (mid : UUID) (names : list string) (w w' : World) : Prop :=
  usable w'
  /\ committed w' = committed w
  /\ except_categories (pending w) (pending w')
  /\ (forall name, In name names -> linked (pending w') mid name)
  /\ (forall x name, linked (pending w) x name -> linked (pending w') x name)
  /\ (NoDup (List.map c_name (categories (pending w))) ->
      NoDup (List.map c_name (categories (pending w'))))
  /\ (forall c, In c (categories (pending w)) -> In c (categories (pending w')))
  /\ (forall c, In c (categories (pending w')) ->
        In c (categories (pending w)) \/ In (c_name c) names)
  /\ (forall r, In r (memory_categories (pending w')) ->
        In r (memory_categories (pending w)) \/ fst r = mid).

Lemma linked_add_category d x name c :
  linked d x name -> linked (add_category c d) x name.
Proof.
  intros (c0 & Hf & Hin). exists c0. split; [| exact Hin].
  simpl. apply find_snoc_some. exact Hf.
Qed.

Lemma linked_insert d x name mid cid :
  linked d x name -> linked (insert_memory_category mid cid d) x name.
Proof.
  intros (c0 & Hf & Hin). exists c0. split; [exact Hf |].
  simpl. apply in_or_app. left. exact Hin.
Qed.

Lemma categorize_each_run P mid names :
  forall w, usable w ->
  exists w', categorize_each P mid names w = (Ret tt, w') /\ linking mid names w w'.
Proof.
  induction names as [|name names IH]; intros w Hu.
  - exists w. split; [reflexivity |].
    split; [exact Hu |]. split; [reflexivity |]. split; [apply except_categories_refl |].
    split; [intros ? [] |]. split; [tauto |]. split; [tauto |]. split; [tauto |].
    split; [left; assumption | left; assumption].
  - destruct Hu as [Hi Hs].
    (* the category of [name], found or created *)
    assert (Hcat : exists c w1,
      usable w1 /\ committed w1 = committed w
      /\ memories (pending w1) = memories (pending w)
      /\ users (pending w1) = users (pending w) /\ apps (pending w1) = apps (pending w)
      /\ access_controls (pending w1) = access_controls (pending w)
      /\ memory_status_history (pending w1) = memory_status_history (pending w)
      /\ memory_access_logs (pending w1) = memory_access_logs (pending w)
      /\ memory_categories (pending w1) = memory_categories (pending w)
      /\ List.find (fun c => String.eqb (c_name c) name) (categories (pending w1)) = Some c
      /\ (forall x n, linked (pending w) x n -> linked (pending w1) x n)
      /\ (NoDup (List.map c_name (categories (pending w))) ->
          NoDup (List.map c_name (categories (pending w1))))
      /\ (forall c', In c' (categories (pending w)) -> In c' (categories (pending w1)))
      /\ (forall c', In c' (categories (pending w1)) ->
            In c' (categories (pending w)) \/ c_name c' = name)
      /\ forall k : Category -> M unit,
           (found ← query_first categories (fun c => String.eqb (c_name c) name);
            category ← match found with
                       | Some c => mret c
                       | None =>
                           cid ← uuid4 P;
                           let c := {| c_id := cid; c_name := name |} in
                           stage (add_category c);; flush;; mret c
                       end;
            k category) w = k c w1).
    { destruct (List.find (fun c => String.eqb (c_name c) name) (categories (pending w)))
        as [c|] eqn:Hfind.
      - exists c, w. repeat split; try assumption; try tauto.
        intros k. rewrite run_bind, query_first_run by exact Hi. cbv beta iota.
        rewrite Hfind, run_bind, run_ret. reflexivity.
      - set (c := {| c_id := uuid4_at P (uuid_draws w); c_name := name |}).
        exists c, (with_pending (add_category c (pending w)) (next_draw w)).
        split; [split; [exact Hi | exact Hs] |].
        repeat split.
        + simpl. apply find_snoc_none; [exact Hfind | simpl; apply String.eqb_refl].
        + intros x n Hl. apply linked_add_category. exact Hl.
        + intros Hnd. simpl. rewrite List.map_app. simpl. apply NoDup_snoc; [exact Hnd |].
          apply find_name_not_in. exact Hfind.
        + intros c' Hc'. simpl. apply in_or_app. left. exact Hc'.
        + intros c' Hc'. simpl in Hc'. apply in_app_or in Hc' as [Hc' | [<- | []]];
            [left; exact Hc' | right; reflexivity].
        + intros k. rewrite run_bind, query_first_run by exact Hi. cbv beta iota.
          rewrite Hfind. rewrite ?run_bind_assoc. repeat mstep.
          rewrite ?run_bind_assoc, run_bind, flush_run by (split; [exact Hi | exact Hs]).
          cbv beta iota. rewrite run_bind, run_ret. reflexivity. }
    destruct Hcat as (c & w1 & Hu1 & Hc1 & Hm1 & Hus1 & Hap1 & Hac1 & Hh1 & Hl1 & Hmc1
                      & Hf1 & Hlk1 & Hnd1 & Hin1 & Hout1 & Hk).
    (* the association, found or inserted *)
    assert (Hpair : exists w2,
      usable w2 /\ committed w2 = committed w1
      /\ except_categories (pending w1) (pending w2)
      /\ categories (pending w2) = categories (pending w1)
      /\ In (mid, c_id c) (memory_categories (pending w2))
      /\ (forall r, In r (memory_categories (pending w1)) ->
            In r (memory_categories (pending w2)))
      /\ (forall r, In r (memory_categories (pending w2)) ->
            In r (memory_categories (pending w1)) \/ fst r = mid)
      /\ forall k : M unit,
           (existing ← query_first memory_categories
                         (fun r => (fst r =? mid) && (snd r =? c_id c));
            match existing with
            | None => execute (insert_memory_category mid (c_id c))
            | Some _ => mret tt
            end;;
            k) w1 = k w2).
    { destruct Hu1 as [Hi1 Hs1].
      destruct (List.find (fun r : UUID * UUID => (fst r =? mid) && (snd r =? c_id c))
                  (memory_categories (pending w1))) as [r|] eqn:Hfind.
      - exists w1. split; [split; assumption |]. split; [reflexivity |].
        split; [apply except_categories_refl |]. split; [reflexivity |].
        split; [eapply find_pair_In; exact Hfind |]. split; [tauto |]. split; [tauto |].
        intros k. rewrite ?run_bind_assoc, run_bind, query_first_run by exact Hi1.
        cbv beta iota. rewrite Hfind, run_bind, run_ret. reflexivity.
      - exists (with_pending (insert_memory_category mid (c_id c) (pending w1)) w1).
        split; [split; [exact Hi1 | exact Hs1] |]. split; [reflexivity |].
        split; [repeat split |]. split; [reflexivity |].
        split; [simpl; apply in_or_app; right; left; reflexivity |].
        split; [intros r Hr; simpl; apply in_or_app; left; exact Hr |].
        split.
        { intros r Hr. simpl in Hr. apply in_app_or in Hr as [Hr | [<- | []]];
            [left; exact Hr | right; reflexivity]. }
        intros k. rewrite ?run_bind_assoc, run_bind, query_first_run by exact Hi1.
        cbv beta iota. rewrite Hfind, run_bind, execute_run by exact Hi1. reflexivity. }
    destruct Hpair as (w2 & Hu2 & Hc2 & Hx2 & Hcat2 & Hin2 & Hkeep2 & Hnew2 & Hk2).
    destruct (IH w2 Hu2) as (w' & Hrun & Hu' & Hc' & Hx' & Hall' & Hlk' & Hnd' & Hin' & Hout'
                             & Hmc').
    exists w'. split.
    { cbn [categorize_each]. rewrite (Hk (fun category =>
        existing ← query_first memory_categories
                     (fun r => (fst r =? mid) && (snd r =? c_id category));
        match existing with
        | None => execute (insert_memory_category mid (c_id category))
        | Some _ => mret tt
        end;;
        categorize_each P mid names)).
      rewrite (Hk2 (categorize_each P mid names)). exact Hrun. }
    assert (Hlk2 : forall x n, linked (pending w1) x n -> linked (pending w2) x n).
    { intros x n (c0 & Hf & Hin). exists c0. rewrite Hcat2. split; [exact Hf | apply Hkeep2, Hin]. }
    split; [exact Hu' |]. split; [congruence |].
    split.
    { eapply except_categories_trans; [| exact Hx'].
      eapply except_categories_trans; [| exact Hx2]. repeat split; assumption. }
    split.
    { intros n [<- | Hn]; [| apply Hall'; exact Hn].
      apply Hlk'. exists c. rewrite Hcat2. split; [exact Hf1 | exact Hin2]. }
    split; [intros x n Hl; apply Hlk', Hlk2, Hlk1, Hl |].
    split; [intros Hnd; apply Hnd'; rewrite Hcat2; apply Hnd1, Hnd |].
    split; [intros c0 Hc0; apply Hin'; rewrite Hcat2; apply Hin1, Hc0 |].
    split.
    { intros c0 Hc0. apply Hout' in Hc0 as [Hc0 | Hc0]; [| right; right; exact Hc0].
      rewrite Hcat2 in Hc0. apply Hout1 in Hc0 as [Hc0 | Hc0];
        [left; exact Hc0 | right; left; symmetry; exact Hc0]. }
    { intros r Hr. apply Hmc' in Hr as [Hr | Hr]; [| right; exact Hr].
      apply Hnew2 in Hr as [Hr | Hr]; [| right; exact Hr].
      left. rewrite <- Hmc1. exact Hr. }
Qed.

(** When every label is already linked the loop changes nothing. *)
Lemma categorize_each_linked P mid names :
  forall w, inactive w = false ->
  (forall name, In name names -> linked (pending w) mid name) ->
  categorize_each P mid names w = (Ret tt, w).
Proof.
  induction names as [|name names IH]; intros w Hi Hall; [reflexivity |].
  destruct (Hall name (or_introl eq_refl)) as (c & Hf & Hin).
  destruct (In_find_pair mid (c_id c) _ Hin) as [r Hr].
  cbn [categorize_each].
  rewrite run_bind, query_first_run by exact Hi. cbv beta iota.
  rewrite Hf, run_bind, run_ret. cbv beta iota.
  rewrite run_bind, query_first_run by exact Hi. cbv beta iota.
  rewrite Hr, run_bind, run_ret. cbv beta iota.
  apply IH; [exact Hi |]. intros n Hn. apply Hall. right. exact Hn.
Qed.

Lemma categorize_memory_linking P cat memory names w :
  usable w -> cat (m_content memory) = Ret names ->
  exists w1,
    linking (m_id memory) names w w1
    /\ categorize_memory P cat memory w = (Ret tt, publish w1).
Proof.
  intros Hu Hcat.
  destruct (categorize_each_run P (m_id memory) names w Hu) as (w1 & Hrun & Hl).
  exists w1. split; [exact Hl |].
  unfold categorize_memory, try_except, lift.
  rewrite run_bind, Hcat. cbv beta iota.
  rewrite run_bind, Hrun. cbv beta iota.
  rewrite commit_run by apply Hl. reflexivity.
Qed.

(** X6: when the collaborator answers with labels and the session is usable,
    [categorize_memory] returns with everything committed, and in the
    committed database every label has a category row of that name (the one
    a lookup by name finds) linked to the memory.  Links that existed are
    kept, category names that were unique stay unique, every category row
    that is new carries one of the labels, every new link is a link of this
    memory, and no other table is touched. *)
Theorem categorize_memory_links (P : Platform)
    (cat : option string -> Outcome (list string)) (memory : Memory)
    (names : list string) (w : World) :
  usable w ->
  cat (m_content memory) = Ret names ->
  exists w',
    categorize_memory P cat memory w = (Ret tt, w')
    /\ usable w' /\ pending w' = committed w'
    /\ (forall name, In name names -> linked (committed w') (m_id memory) name)
    /\ (forall x name, linked (pending w) x name -> linked (committed w') x name)
    /\ (NoDup (List.map c_name (categories (pending w))) ->
        NoDup (List.map c_name (categories (committed w'))))
    /\ (forall c, In c (categories (committed w')) ->
          In c (categories (pending w)) \/ In (c_name c) names)
    /\ (forall r, In r (memory_categories (committed w')) ->
          In r (memory_categories (pending w)) \/ fst r = m_id memory)
    /\ except_categories (pending w) (committed w').
Proof.
  intros Hu Hcat.
  destruct (categorize_memory_linking P cat memory names w Hu Hcat)
    as (w1 & (Hu1 & Hc1 & Hx1 & Hall & Hlk & Hnd & Hin & Hout & Hmc) & Hrun).
  exists (publish w1). split; [exact Hrun |].
  split; [split; [reflexivity | apply Hu1] |].
  split; [reflexivity |]. cbn [committed publish].
  repeat (split; [assumption |]). assumption.
Qed.

(** X7: categorizing a memory a second time, with labels among those of the
    first run, changes nothing at all: no category row, no link, no
    identifier drawn, and the call returns. *)
Theorem categorize_memory_twice (P : Platform)
    (cat cat' : option string -> Outcome (list string)) (memory : Memory)
    (names names' : list string) (w : World) :
  usable w ->
  cat (m_content memory) = Ret names ->
  cat' (m_content memory) = Ret names' ->
  incl names' names ->
  exists w1,
    categorize_memory P cat memory w = (Ret tt, w1)
    /\ categorize_memory P cat' memory w1 = (Ret tt, w1).
Proof.
  intros Hu Hcat Hcat' Hincl.
  destruct (categorize_memory_linking P cat memory names w Hu Hcat)
    as (w1 & (Hu1 & Hc1 & Hx1 & Hall & Hlk & Hnd & Hin & Hout & Hmc) & Hrun).
  exists (publish w1). split; [exact Hrun |].
  unfold categorize_memory, try_except, lift.
  rewrite run_bind, Hcat'. cbv beta iota.
  rewrite run_bind, (categorize_each_linked P (m_id memory) names' (publish w1)).
  - cbv beta iota. rewrite commit_run by (split; [reflexivity | apply Hu1]). reflexivity.
  - reflexivity.
  - intros name Hn. apply Hall, Hincl, Hn.
Qed.

End CategorizeLinks.

(** ** [update_memory_content] *)

Module ContentUpdate.
Import Session SessionFacts StateFacts ReconcilerCreate.


(** X8: [update_memory_content] refuses an id that names no memory (404)
    and a memory of somebody else when the caller is no admin (403), and in
    both cases nothing at all is changed. *)
Theorem update_memory_content_refused (P : Platform) (memory_id : UUID)
    (memory_content : string) (current_user : User) (w : World) :
  inactive w = false ->
  deletable current_user (pending w) memory_id = false ->
  update_memory_content P memory_id memory_content current_user w
  = (Raise (HTTPException
              (if is_null (find_memory memory_id (pending w)) then 404 else 403)%nat), w).
Proof.
  intros Hi Hd. unfold update_memory_content.
  rewrite run_bind, query_first_run by exact Hi. cbv beta iota.
  fold (find_memory memory_id (pending w)). unfold deletable in Hd.
  destruct (find_memory memory_id (pending w)) as [m|]; [| reflexivity].
  replace (negb (u_is_admin current_user) && negb (m_user_id m =? u_id current_user))
    with true
    by (destruct (u_is_admin current_user), (m_user_id m =? u_id current_user);
        simpl in *; congruence).
  reflexivity.
Qed.


End ContentUpdate.

(** ** [create_memory]: persisting one [ADD] result *)

Module CreatePath.
Import Session SessionFacts StateFacts CategorizeFacts CategorizeSpec ReconcilerRun ReconcilerCreate.

(** X10: the persistence block of [create_memory] surfaces one error only.
    In every session it either returns the stored row or raises HTTP 500
    after a rollback, which leaves the session usable again with nothing
    pending; an id that is no UUID always takes the second way, and the
    committed database is then exactly what it was. *)
Theorem create_memory_persist_errors (P : Platform)
    (cat : option string -> Outcome (list string)) (result_id content : string)
    (request_metadata : JsonObject) (infer : bool) (user : User) (app_obj : App)
    (w : World) :
  ((exists memory w',
      create_memory_persist P cat result_id content request_metadata infer user app_obj w
      = (Ret memory, w'))
   \/ (exists w',
         create_memory_persist P cat result_id content request_metadata infer user app_obj w
         = (Raise (HTTPException 500), w')
         /\ inactive w' = false /\ pending w' = committed w'))
  /\ (UUID_of_string P result_id = None ->
      create_memory_persist P cat result_id content request_metadata infer user app_obj w
      = (Raise (HTTPException 500), discard w)).
Proof.
  split.
  - unfold create_memory_persist, try_except.
    match goal with |- context [match ?b w with _ => _ end] => destruct (b w) as [[m | e] w1] end.
    + left. exists m, w1. reflexivity.
    + right. cbn [Exception]. exists (discard w1). split; [reflexivity |]. split; reflexivity.
  - intros Hbad. unfold create_memory_persist, try_except, UUID_.
    rewrite run_bind, Hbad. reflexivity.
Qed.

(** X11: a result whose id names no memory yet.  In a usable session the
    block returns the new row (the id of the vector store, the caller as
    owner, the App, state active) and commits it together with exactly one
    history row, from [deleted] to [active] by the caller.  Users, Apps and
    access logs are not touched, and without [infer] neither are the
    categories. *)
Theorem create_memory_persist_new (P : Platform)
    (cat : option string -> Outcome (list string)) (result_id content : string)
    (request_metadata : JsonObject) (infer : bool) (user : User) (app_obj : App)
    (memory_id : UUID) (w : World) :
  usable w ->
  UUID_of_string P result_id = Some memory_id ->
  find_memory memory_id (pending w) = None ->
  let memory :=
    {| m_id := memory_id; m_user_id := u_id user; m_app_id := Some (a_id app_obj);
       m_content := Some content; m_metadata := request_metadata; m_state := active;
       m_archived_at := None; m_deleted_at := None |} in
  exists w',
    create_memory_persist P cat result_id content request_metadata infer user app_obj w
    = (Ret memory, w')
    /\ usable w' /\ pending w' = committed w'
    /\ memories (committed w') = memories (pending w) ++ [memory]
    /\ find_memory memory_id (committed w') = Some memory
    /\ memory_status_history (committed w')
       = memory_status_history (pending w)
         ++ [{| h_id := uuid4_at P (uuid_draws w); h_memory_id := memory_id;
                h_changed_by := u_id user; h_old_state := deleted; h_new_state := active |}]
    /\ users (committed w') = users (pending w)
    /\ apps (committed w') = apps (pending w)
    /\ memory_access_logs (committed w') = memory_access_logs (pending w)
    /\ (infer = false ->
        categories (committed w') = categories (pending w)
        /\ memory_categories (committed w') = memory_categories (pending w)).
Proof.
  intros [Hi Hs] Hid Hnone memory.
  set (h := {| h_id := uuid4_at P (uuid_draws w); h_memory_id := memory_id;
               h_changed_by := u_id user; h_old_state := deleted; h_new_state := active |}).
  set (d1 := add_history h (add_memory memory (pending w))).
  set (w1 := publish (with_pending d1 (next_draw w))).
  assert (Hs1 : schema_ok d1 = true).
  { unfold d1, schema_ok. cbn [memories memory_access_logs add_history with_history add_memory with_memories].
    unfold schema_ok in Hs. apply andb_true_iff in Hs as [Hm Hl].
    rewrite forallb_app, Hm, Hl. reflexivity. }
  assert (Hfind1 : find_memory memory_id d1 = Some memory).
  { unfold find_memory, d1. cbn [memories add_history with_history add_memory with_memories].
    apply CategorizeLinks.find_snoc_none; [exact Hnone |]. simpl. apply N.eqb_refl. }
  (* the optional categorization *)
  assert (Hcat : exists w2,
    (if infer then
       try_except (categorize_memory P cat memory;; commit) Exception (fun _ => mret tt)
     else mret tt) w1 = (Ret tt, w2)
    /\ usable w2 /\ pending w2 = committed w2
    /\ except_categories d1 (pending w2)
    /\ (infer = false -> w2 = w1)).
  { destruct infer.
    - destruct (ReconcilerStep.categorize_memory_clean P cat memory w1) as (w2 & Hrun & Hc2 & Hx & _).
      { split; [reflexivity |]. split; [reflexivity | exact Hs1]. }
      destruct Hc2 as (Hi2 & Hp2 & Hs2).
      exists (publish w2). split.
      { unfold try_except. rewrite run_bind, Hrun. cbv beta iota.
        rewrite commit_run by (split; assumption). reflexivity. }
      split; [split; [reflexivity | exact Hs2] |]. split; [reflexivity |].
      split; [exact Hx | discriminate].
    - exists w1. split; [reflexivity |]. split; [split; [reflexivity | exact Hs1] |].
      split; [reflexivity |]. split; [apply except_categories_refl | reflexivity]. }
  destruct Hcat as (w2 & Hrun2 & [Hi2 Hs2] & Hp2 & (Hxu & Hxa & Hxm & Hxc & Hxh & Hxl) & Hsame).
  exists (publish w2). split.
  { unfold create_memory_persist. apply try_except_ret. unfold UUID_.
    rewrite ?run_bind_assoc, run_bind, Hid, run_ret. cbv beta iota.
    rewrite ?run_bind_assoc, run_bind, query_first_run by exact Hi. cbv beta iota.
    fold (find_memory memory_id (pending w)). rewrite Hnone.
    rewrite ?run_bind_assoc. repeat mstep.
    rewrite ?run_bind_assoc, run_bind, commit_run by (split; [exact Hi | exact Hs1]).
    cbv beta iota.
    rewrite ?run_bind_assoc, run_bind. unfold refresh at 1.
    rewrite guard_active_run by reflexivity. cbv beta iota.
    match goal with |- ?m ?wd = _ => change wd with w1 end.
    fold memory.
    rewrite ?run_bind_assoc, run_bind, Hrun2. cbv beta iota.
    rewrite run_bind, run_ret. cbv beta iota.
    rewrite run_bind, commit_run by (split; assumption). cbv beta iota.
    rewrite run_bind. unfold refresh. rewrite guard_active_run by reflexivity.
    reflexivity. }
  cbn [committed pending publish].
  split; [split; [reflexivity | exact Hs2] |]. split; [reflexivity |].
  split; [rewrite Hxm; reflexivity |].
  split; [unfold find_memory in *; rewrite Hxm; exact Hfind1 |].
  split; [rewrite Hxh; reflexivity |].
  split; [rewrite Hxu; reflexivity |]. split; [rewrite Hxa; reflexivity |].
  split; [rewrite Hxl; reflexivity |].
  intros Hinf. rewrite (Hsame Hinf). split; reflexivity.
Qed.

(** X12: a result whose id names a memory that is already stored.  The row
    is set to active with the new content and metadata and committed, and
    that is all: it stays with its previous owner and App whoever the caller
    is, no history row records the change of state, and no category or
    access log is written. *)
Theorem create_memory_persist_existing (P : Platform)
    (cat : option string -> Outcome (list string)) (result_id content : string)
    (request_metadata : JsonObject) (infer : bool) (user : User) (app_obj : App)
    (memory_id : UUID) (existing : Memory) (w : World) :
  usable w ->
  UUID_of_string P result_id = Some memory_id ->
  find_memory memory_id (pending w) = Some existing ->
  let memory :=
    set_metadata request_metadata (set_content (Some content) (set_state active existing)) in
  create_memory_persist P cat result_id content request_metadata infer user app_obj w
  = (Ret memory, publish (with_pending (update_memory memory_id (fun _ => memory) (pending w)) w))
  /\ m_user_id memory = m_user_id existing
  /\ m_app_id memory = m_app_id existing
  /\ find_memory memory_id (update_memory memory_id (fun _ => memory) (pending w)) = Some memory
  /\ memory_status_history (update_memory memory_id (fun _ => memory) (pending w))
     = memory_status_history (pending w).
Proof.
  intros [Hi Hs] Hid Hfind memory.
  destruct (find_memory_In _ _ _ Hfind) as [Hin Hmid].
  assert (Hok : schema_ok (update_memory memory_id (fun _ => memory) (pending w)) = true).
  { apply schema_ok_update_memory; [exact Hs |]. intros x _.
    pose proof (schema_ok_row _ _ Hs Hin) as Hr. unfold row_ok in *. simpl.
    apply andb_true_iff in Hr as [Hr _]. rewrite Hr. reflexivity. }
  split; [| split; [reflexivity | split; [reflexivity | split; [| reflexivity]]]].
  - unfold create_memory_persist. apply try_except_ret. unfold UUID_.
    rewrite ?run_bind_assoc, run_bind, Hid, run_ret. cbv beta iota.
    rewrite ?run_bind_assoc, run_bind, query_first_run by exact Hi. cbv beta iota.
    fold (find_memory memory_id (pending w)). rewrite Hfind.
    cbv zeta. fold memory.
    rewrite ?run_bind_assoc. mstep.
    rewrite ?run_bind_assoc, run_bind, commit_run by (split; [exact Hi | exact Hok]).
    cbv beta iota.
    rewrite ?run_bind_assoc, run_bind. unfold refresh at 1.
    rewrite guard_active_run by reflexivity. cbv beta iota.
    rewrite run_bind, run_ret. cbv beta iota.
    rewrite run_bind, commit_run by (split; [reflexivity | exact Hok]). cbv beta iota.
    rewrite run_bind. unfold refresh. rewrite guard_active_run by reflexivity.
    reflexivity.
  - apply (find_memory_update_memory memory_id (fun _ => memory) (pending w) existing Hfind).
    exact Hmid.
Qed.

End CreatePath.

(** ** [delete_app]: refusals, what is kept, and when the purge is complete *)

Module PurgeMore.
Import Session SessionFacts Apps PurgeFacts.

(** The tables of the purged image, one by one. *)
Lemma purged_tables app_id d :
  let gone := List.map m_id (List.filter (owned_by app_id) (memories d)) in
  users (purged app_id d) = users d
  /\ apps (purged app_id d) = List.filter (fun a => negb (a_id a =? app_id)) (apps d)
  /\ memories (purged app_id d) = List.filter (fun m => negb (owned_by app_id m)) (memories d)
  /\ categories (purged app_id d) = categories d
  /\ access_controls (purged app_id d) = access_controls d
  /\ memory_categories (purged app_id d)
     = List.filter (fun r => negb (mem_uuid (fst r) gone)) (memory_categories d)
  /\ memory_status_history (purged app_id d)
     = List.filter (fun h => negb (mem_uuid (h_memory_id h) gone)) (memory_status_history d)
  /\ memory_access_logs (purged app_id d)
     = List.filter (fun l => negb (mem_uuid (l_memory_id l) gone)) (memory_access_logs d).
Proof.
  cbv zeta. unfold purged.
  assert (Hall : forall A (l : list A), List.filter (fun _ => true) l = l).
  { intros A l. induction l as [|x l IH]; simpl; [| rewrite IH]; reflexivity. }
  destruct (List.map m_id (List.filter (owned_by app_id) (memories d))) as [|i ids].
  - cbn [mem_uuid existsb negb]. rewrite !Hall. repeat split.
  - repeat split.
Qed.

Lemma fk_consistent_spec d :
  fk_consistent d = true <->
  (forall a, In a (apps d) -> In (a_owner_id a) (List.map u_id (users d)))
  /\ (forall m, In m (memories d) ->
        In (m_user_id m) (List.map u_id (users d))
        /\ forall a, m_app_id m = Some a -> In a (List.map a_id (apps d)))
  /\ (forall r, In r (memory_categories d) ->
        In (fst r) (List.map m_id (memories d)) /\ In (snd r) (List.map c_id (categories d)))
  /\ (forall h, In h (memory_status_history d) ->
        In (h_memory_id h) (List.map m_id (memories d))
        /\ In (h_changed_by h) (List.map u_id (users d)))
  /\ (forall l, In l (memory_access_logs d) ->
        In (l_memory_id l) (List.map m_id (memories d))
        /\ forall a, l_app_id l = Some a -> In a (List.map a_id (apps d))).
Proof.
  assert (Hopt : forall ids (x : option UUID),
            match x with Some i => mem_uuid i ids | None => true end = true
            <-> forall a, x = Some a -> In a ids).
  { intros ids [i|]; split.
    - intros H a [= <-]. apply mem_uuid_In. exact H.
    - intros H. apply mem_uuid_In. apply H. reflexivity.
    - intros _ a [=].
    - reflexivity. }
  unfold fk_consistent. rewrite !andb_true_iff, !forallb_forall.
  split.
  - intros ((((Ha & Hm) & Hr) & Hh) & Hl).
    split; [intros a Hin; apply mem_uuid_In, Ha, Hin |].
    split; [intros m Hin; specialize (Hm m Hin); apply andb_true_iff in Hm as [H1 H2];
            split; [apply mem_uuid_In, H1 | apply Hopt, H2] |].
    split; [intros r Hin; specialize (Hr r Hin); apply andb_true_iff in Hr as [H1 H2];
            split; apply mem_uuid_In; assumption |].
    split; [intros h Hin; specialize (Hh h Hin); apply andb_true_iff in Hh as [H1 H2];
            split; apply mem_uuid_In; assumption |].
    intros l Hin. specialize (Hl l Hin). apply andb_true_iff in Hl as [H1 H2].
    split; [apply mem_uuid_In, H1 | apply Hopt, H2].
  - intros (Ha & Hm & Hr & Hh & Hl).
    repeat split.
    + intros a Hin. apply mem_uuid_In, Ha, Hin.
    + intros m Hin. destruct (Hm m Hin) as [H1 H2]. apply andb_true_iff.
      split; [apply mem_uuid_In, H1 | apply Hopt, H2].
    + intros r Hin. destruct (Hr r Hin) as [H1 H2]. apply andb_true_iff.
      split; apply mem_uuid_In; assumption.
    + intros h Hin. destruct (Hh h Hin) as [H1 H2]. apply andb_true_iff.
      split; apply mem_uuid_In; assumption.
    + intros l Hin. destruct (Hl l Hin) as [H1 H2]. apply andb_true_iff.
      split; [apply mem_uuid_In, H1 | apply Hopt, H2].
Qed.

(** A memory id outside [gone] that named a row still names one. *)
Lemma kept_memory_id app_id d x :
  In x (List.map m_id (memories d)) ->
  ~ In x (List.map m_id (List.filter (owned_by app_id) (memories d))) ->
  In x (List.map m_id (List.filter (fun m => negb (owned_by app_id m)) (memories d))).
Proof.
  intros Hin Hgone. apply in_map_iff in Hin as (m & <- & Hm).
  apply in_map_iff. exists m. split; [reflexivity |].
  apply List.filter_In. split; [exact Hm |].
  destruct (owned_by app_id m) eqn:E; [| reflexivity].
  exfalso. apply Hgone. apply in_map_iff. exists m. split; [reflexivity |].
  apply List.filter_In. split; assumption.
Qed.

Lemma kept_app_id app_id d a :
  In a (List.map a_id (apps d)) -> a <> app_id ->
  In a (List.map a_id (List.filter (fun x => negb (a_id x =? app_id)) (apps d))).
Proof.
  intros Hin Hne. apply in_map_iff in Hin as (x & <- & Hx).
  apply in_map_iff. exists x. split; [reflexivity |].
  apply List.filter_In. split; [exact Hx |].
  apply negb_true_iff, N.eqb_neq. exact Hne.
Qed.

Lemma purged_fk_consistent app_id d :
  fk_consistent d = true ->
  (forall l, In l (memory_access_logs d) -> l_app_id l = Some app_id ->
     In (l_memory_id l) (List.map m_id (List.filter (owned_by app_id) (memories d)))) ->
  fk_consistent (purged app_id d) = true.
Proof.
  intros Hfk Hlogs.
  apply fk_consistent_spec in Hfk as (Ha & Hm & Hr & Hh & Hl).
  apply fk_consistent_spec.
  destruct (purged_tables app_id d) as (Tu & Ta & Tm & Tc & _ & Tr & Th & Tl).
  rewrite Tu, Ta, Tm, Tc, Tr, Th, Tl.
  split; [| split; [| split; [| split]]].
  - intros a Hin. apply List.filter_In in Hin as [Hin _]. apply Ha, Hin.
  - intros m Hin. apply List.filter_In in Hin as [Hin Hown].
    destruct (Hm m Hin) as [H1 H2]. split; [exact H1 |].
    intros a E. apply kept_app_id; [apply H2, E |].
    intros ->. unfold owned_by in Hown. rewrite E in Hown. simpl in Hown.
    rewrite N.eqb_refl in Hown. discriminate.
  - intros r Hin. apply List.filter_In in Hin as [Hin Hk].
    destruct (Hr r Hin) as [H1 H2]. split; [| exact H2].
    apply kept_memory_id; [exact H1 |].
    intros Hg. apply mem_uuid_In in Hg. rewrite Hg in Hk. discriminate.
  - intros h Hin. apply List.filter_In in Hin as [Hin Hk].
    destruct (Hh h Hin) as [H1 H2]. split; [| exact H2].
    apply kept_memory_id; [exact H1 |].
    intros Hg. apply mem_uuid_In in Hg. rewrite Hg in Hk. discriminate.
  - intros l Hin. apply List.filter_In in Hin as [Hin Hk].
    destruct (Hl l Hin) as [H1 H2].
    assert (Hng : ~ In (l_memory_id l)
                      (List.map m_id (List.filter (owned_by app_id) (memories d)))).
    { intros Hg. apply mem_uuid_In in Hg. rewrite Hg in Hk. discriminate. }
    split; [apply kept_memory_id; assumption |].
    intros a E. apply kept_app_id; [apply H2, E |].
    intros ->. apply Hng, Hlogs; assumption.
Qed.

(** X13: [delete_app] refuses an id that names no App (404) and an App of
    somebody else when the caller is no admin (403); in both cases nothing
    is deleted. *)
Theorem delete_app_refused (app_id : UUID) (current_user : User) (w : World) :
  inactive w = false ->
  match List.find (fun a => a_id a =? app_id) (apps (pending w)) with
  | None => delete_app app_id current_user w = (Raise (HTTPException 404), w)
  | Some app =>
      u_is_admin current_user = false -> a_owner_id app <> u_id current_user ->
      delete_app app_id current_user w = (Raise (HTTPException 403), w)
  end.
Proof.
  intros Hi.
  destruct (List.find (fun a => a_id a =? app_id) (apps (pending w))) as [app|] eqn:Hfind.
  - intros Hadm Hown. unfold delete_app, get_app_or_404.
    rewrite ?run_bind_assoc, run_bind, query_first_run by exact Hi. cbv beta iota.
    rewrite Hfind, run_bind, run_ret. cbv beta iota.
    rewrite Hadm. apply N.eqb_neq in Hown. rewrite Hown. reflexivity.
  - unfold delete_app, get_app_or_404.
    rewrite ?run_bind_assoc, run_bind, query_first_run by exact Hi. cbv beta iota.
    rewrite Hfind. reflexivity.
Qed.


(** X15: when the purge is complete.  If every foreign key of the database
    names an existing row before the call, and every access log that names
    the App was written for one of the memories of that App, then after a
    permitted [delete_app] every foreign key of the committed database still
    names an existing row. *)
Theorem delete_app_fk_consistent (app_id : UUID) (current_user : User) (app : App)
    (w : World) :
  usable w ->
  List.find (fun a => a_id a =? app_id) (apps (pending w)) = Some app ->
  u_is_admin current_user || (a_owner_id app =? u_id current_user) = true ->
  fk_consistent (pending w) = true ->
  (forall l, In l (memory_access_logs (pending w)) -> l_app_id l = Some app_id ->
     exists m, In m (memories (pending w)) /\ m_app_id m = Some app_id
               /\ m_id m = l_memory_id l) ->
  exists w',
    delete_app app_id current_user w = (Ret tt, w')
    /\ fk_consistent (committed w') = true.
Proof.
  intros Hu Hfind Hperm Hfk Hlogs.
  assert (Hp : negb (u_is_admin current_user) && negb (a_owner_id app =? u_id current_user)
               = false).
  { destruct (u_is_admin current_user), (a_owner_id app =? u_id current_user);
      simpl in *; congruence. }
  exists (publish (with_pending (purged app_id (pending w)) w)).
  split; [exact (delete_app_run app_id current_user app w Hu Hfind Hp) |].
  cbn [committed pending publish with_pending].
  apply purged_fk_consistent; [exact Hfk |].
  intros l Hin E. destruct (Hlogs l Hin E) as (m & Hm & Happ & Hid).
  apply in_map_iff. exists m. split; [exact Hid |].
  apply List.filter_In. split; [exact Hm |].
  unfold owned_by. rewrite Happ. simpl. apply N.eqb_refl.
Qed.

End PurgeMore.

(** ** The reconciler: what it never touches, and its callers *)

Module FrameFacts.
Import Session.

Section Frame.
Context {T : Type} (t : DB -> T).
Hypothesis t_add_category : forall c d, t (add_category c d) = t d.
Hypothesis t_link : forall m c d, t (insert_memory_category m c d) = t d.
Hypothesis t_add_memory : forall m d, t (add_memory m d) = t d.
Hypothesis t_add_access_log : forall l d, t (add_access_log l d) = t d.
Hypothesis t_update_memory : forall mid f d, t (update_memory mid f d) = t d.

Lemma table_kept_refl w : table_kept t w w.
Proof. split; [left | right]; reflexivity. Qed.

Lemma table_kept_trans w1 w2 w3 :
  table_kept t w1 w2 -> table_kept t w2 w3 -> table_kept t w1 w3.
Proof.
  unfold table_kept. intros [[A|A] [B|B]] [[C|C] [D|D]];
    rewrite ?C, ?D, ?A, ?B; split; auto.
Qed.

#[local] Abbreviation kept := (preserves (table_kept t)).

Lemma kept_bind {A B} (m : M A) (f : A -> M B) :
  kept m -> (forall a, kept (f a)) -> kept (m ≫= f).
Proof. apply preserves_bind. apply table_kept_trans. Qed.

Lemma kept_try {A} (body : M A) handles handler :
  kept body -> (forall e, kept (handler e)) -> kept (try_except body handles handler).
Proof. apply preserves_try. apply table_kept_trans. Qed.

Lemma kept_ret {A} (a : A) : kept (mret a : M A).
Proof. apply preserves_ret, table_kept_refl. Qed.

Lemma kept_raise {A} e : kept (raise e : M A).
Proof. apply preserves_raise, table_kept_refl. Qed.

Lemma kept_guard : kept guard_active.
Proof. apply preserves_guard, table_kept_refl. Qed.

Lemma kept_query_first {A} (tb : DB -> list A) p : kept (query_first tb p).
Proof.
  apply kept_bind; [apply kept_guard | intros _; apply preserves_gets, table_kept_refl].
Qed.

Lemma kept_query_all {A} (tb : DB -> list A) p : kept (query_all tb p).
Proof.
  apply kept_bind; [apply kept_guard | intros _; apply preserves_gets, table_kept_refl].
Qed.

Lemma kept_stage f : (forall d, t (f d) = t d) -> kept (stage f).
Proof. intros H w. split; [left; apply H | right; reflexivity]. Qed.

Lemma kept_execute f : (forall d, t (f d) = t d) -> kept (execute f).
Proof. intros H. apply kept_bind; [apply kept_guard | intros _; apply kept_stage, H]. Qed.

Lemma kept_flush : kept flush.
Proof.
  apply kept_bind; [apply kept_guard | intros _].
  apply kept_bind; [apply preserves_gets, table_kept_refl | intros [|]].
  - apply kept_ret.
  - apply kept_bind; [| intros _; apply kept_raise].
    apply preserves_modify. intros w. split; [left | right]; reflexivity.
Qed.

Lemma kept_commit : kept commit.
Proof.
  apply kept_bind; [apply kept_flush | intros _].
  intros w. split; left; reflexivity.
Qed.

Lemma kept_rollback : kept rollback.
Proof. intros w. split; right; reflexivity. Qed.

Lemma kept_reject {A} : kept (@reject A).
Proof.
  apply kept_bind; [apply kept_guard | intros _].
  apply kept_bind; [| intros _; apply kept_raise].
  apply preserves_modify. intros w. split; [left | right]; reflexivity.
Qed.

Lemma kept_uuid4 P : kept (uuid4 P).
Proof. intros w. split; [left | right]; reflexivity. Qed.

Lemma kept_UUID_ P s : kept (UUID_ P s).
Proof.
  unfold UUID_. destruct s as [s|]; [destruct (UUID_of_string P s) |];
    first [apply kept_ret | apply kept_raise].
Qed.

Lemma kept_int_ P s : kept (int_ P s).
Proof. unfold int_. destruct (int_of_string P s); [apply kept_ret | apply kept_raise]. Qed.

Ltac kept_step :=
  first
    [ apply kept_ret | apply kept_raise | apply kept_guard | apply kept_query_first
    | apply kept_query_all | apply kept_flush | apply kept_commit | apply kept_rollback
    | apply kept_reject | apply kept_uuid4 | apply kept_UUID_ | apply kept_int_
    | apply preserves_lift, table_kept_refl
    | apply kept_stage; intros;
      first [apply t_add_category | apply t_link | apply t_add_memory
            | apply t_add_access_log | apply t_update_memory]
    | apply kept_execute; intros;
      first [apply t_add_category | apply t_link | apply t_add_memory
            | apply t_add_access_log | apply t_update_memory]
    | apply kept_bind; [| intros ?]
    | apply kept_try; [| intros ?]
    | match goal with
      | |- preserves _ (match ?x with _ => _ end) => destruct x
      | |- preserves _ (if ?x then _ else _) => destruct x
      | |- preserves _ (let '(_, _) := ?x in _) => destruct x
      end ].

Lemma kept_categorize_each P mid names : kept (categorize_each P mid names).
Proof.
  induction names as [|name names IH]; cbn [categorize_each]; [apply kept_ret |].
  repeat first [exact IH | kept_step].
Qed.

Lemma kept_categorize_memory P cat memory : kept (categorize_memory P cat memory).
Proof.
  unfold categorize_memory. repeat first [apply kept_categorize_each | kept_step].
Qed.

Lemma kept_create_if_absent P result user_id agent_id :
  kept (create_if_absent P result user_id agent_id).
Proof.
  unfold create_if_absent, find_user, resolve_app, query_app_by_int_id,
    insert_memory, log_add, refresh.
  repeat kept_step.
Qed.

Lemma kept_categorize_and_update P cat result agent_id m :
  kept (categorize_and_update P cat result agent_id m).
Proof.
  unfold categorize_and_update.
  repeat first [apply kept_categorize_memory | kept_step].
Qed.

Lemma kept_sync P cat result user_id agent_id :
  kept (_sync_memory_to_pg P cat result user_id agent_id).
Proof.
  unfold _sync_memory_to_pg, query_memory_by_id_text.
  repeat first [apply kept_create_if_absent | apply kept_categorize_and_update | kept_step].
Qed.

Lemma kept_sync_items P cat items user_id agent_id :
  kept (sync_items P cat items user_id agent_id).
Proof.
  induction items as [|item items IH]; cbn [sync_items]; [apply kept_ret |].
  repeat first [exact IH | apply kept_sync | kept_step].
Qed.

Lemma kept_sync_results P cat items user_id agent_id :
  kept (sync_results P cat items user_id agent_id).
Proof.
  induction items as [|item items IH]; cbn [sync_results]; [apply kept_ret |].
  cbv zeta. repeat first [exact IH | apply kept_sync | kept_step].
Qed.

End Frame.

(** X16: the reconciler returns normally from every session, whatever the
    event and whatever the categorization collaborator does, and it never
    writes to the users, the Apps or the access rules: each of these tables,
    pending or committed, is afterwards one that was there before. *)
Theorem sync_never_raises_and_frame (P : Platform)
    (cat : option string -> Outcome (list string)) (result : SyncResult)
    (user_id : string) (agent_id : option string) (w : World) :
  exists w',
    _sync_memory_to_pg P cat result user_id agent_id w = (Ret tt, w')
    /\ table_kept users w w'
    /\ table_kept apps w w'
    /\ table_kept access_controls w w'.
Proof.
  destruct (ReconcilerStep.sync_returns P cat result user_id agent_id w) as [w' Hrun].
  exists w'. split; [exact Hrun |].
  replace w' with (snd (_sync_memory_to_pg P cat result user_id agent_id w))
    by (rewrite Hrun; reflexivity).
  split; [| split]; apply kept_sync; reflexivity.
Qed.

End FrameFacts.

Module ReconcilerMore.
Import Session SessionFacts StateFacts ReconcilerRun ReconcilerCreate ReconcilerStep
       ReconcilerUpdate ReconcilerCases ReconcilerOnce.

(** [newest] returns a row of the list with the greatest [created_at]. *)
Lemma newest_fold l :
  forall best,
    match List.fold_left
            (fun best a =>
               match best with
               | None => Some a
               | Some b => if a_created_at b <? a_created_at a then Some a else Some b
               end) l best with
    | None => l = [] /\ best = None
    | Some a =>
        (In a l \/ best = Some a)
        /\ (forall b, In b l \/ best = Some b -> a_created_at b <= a_created_at a)
    end.
Proof.
  induction l as [|x l IH]; intros best; simpl.
  - destruct best as [a|]; [| split; reflexivity].
    split; [right; reflexivity |]. intros b [[] | [= ->]]. lia.
  - match goal with |- context [List.fold_left ?f l ?acc] => specialize (IH acc) end.
    match goal with |- context [List.fold_left ?f l ?acc] =>
      destruct (List.fold_left f l acc) as [a|] end.
    + destruct IH as [Hin Hmax]. split.
      * destruct Hin as [Hin | Hacc]; [left; right; exact Hin |].
        destruct best as [b|].
        -- destruct (a_created_at b <? a_created_at x); inversion Hacc; subst;
             [left; left; reflexivity | right; reflexivity].
        -- inversion Hacc; subst. left; left; reflexivity.
      * intros b [[<- | Hb] | Hb].
        -- destruct best as [c|].
           ++ destruct (a_created_at c <? a_created_at x) eqn:E.
              ** apply Hmax. right. reflexivity.
              ** apply N.ltb_ge in E.
                 transitivity (a_created_at c); [exact E | apply Hmax; right; reflexivity].
           ++ apply Hmax. right. reflexivity.
        -- apply Hmax. left. exact Hb.
        -- subst best. destruct (a_created_at b <? a_created_at x) eqn:E.
           ++ apply N.ltb_lt in E.
              transitivity (a_created_at x); [lia | apply Hmax; right; reflexivity].
           ++ apply Hmax. right. reflexivity.
    + destruct IH as [_ Hacc]. destruct best as [b|];
        [destruct (a_created_at b <? a_created_at x) |]; discriminate.
Qed.

Lemma newest_spec l :
  match newest l with
  | None => l = []
  | Some a => In a l /\ forall b, In b l -> a_created_at b <= a_created_at a
  end.
Proof.
  unfold newest. pose proof (newest_fold l None) as H.
  destruct (List.fold_left _ l None) as [a|].
  - destruct H as [[Hin | Hn] Hmax]; [| discriminate].
    split; [exact Hin |]. intros b Hb. apply Hmax. left. exact Hb.
  - apply H.
Qed.

(** X17: how the App of a new memory is resolved.  When no lookup is
    rejected the call returns, with the session as it was.  If the agent id
    in force is non-empty and the name of some App contains it, an App whose
    name contains it is chosen, whoever owns it.  Otherwise the choice is
    among the Apps of the owner: one with the greatest [created_at], and none
    exactly when the owner has no App. *)
Theorem resolve_app_choice (P : Platform) (result : SyncResult)
    (agent_id : option string) (user_obj : User) (w : World) :
  inactive w = false ->
  rejected P result agent_id = false ->
  exists app_obj,
    resolve_app P result agent_id user_obj w
    = (Ret (effective_agent_id result agent_id, app_obj), w)
    /\ (truthy_str (effective_agent_id result agent_id) = true ->
        forall a, In a (apps (pending w)) ->
          str_contains (a_name a) (default "" (effective_agent_id result agent_id)) = true ->
          exists a', app_obj = Some a' /\ In a' (apps (pending w))
                     /\ str_contains (a_name a')
                          (default "" (effective_agent_id result agent_id)) = true)
    /\ ((truthy_str (effective_agent_id result agent_id) = false
         \/ forall a, In a (apps (pending w)) ->
              str_contains (a_name a) (default "" (effective_agent_id result agent_id)) = false) ->
        match app_obj with
        | Some a' =>
            In a' (apps (pending w)) /\ a_owner_id a' = u_id user_obj
            /\ forall b, In b (apps (pending w)) -> a_owner_id b = u_id user_obj ->
                 a_created_at b <= a_created_at a'
        | None => forall b, In b (apps (pending w)) -> a_owner_id b <> u_id user_obj
        end).
Proof.
  intros Hi Hrej.
  exists (choose_app (pending w) result agent_id user_obj).
  split; [rewrite resolve_app_run, Hrej by exact Hi; reflexivity |].
  unfold choose_app.
  set (agent := effective_agent_id result agent_id).
  split.
  - intros Ht a Hin Hc. rewrite Ht.
    destruct (List.find (fun a => str_contains (a_name a) (default "" agent)) (apps (pending w)))
      as [a'|] eqn:Hf.
    + exists a'. apply List.find_some in Hf as [Hin' Hc']. repeat split; assumption.
    + apply (List.find_none _ _ Hf) in Hin. simpl in Hin. congruence.
  - intros Hno.
    assert (Hby : (if truthy_str agent
                   then List.find (fun a => str_contains (a_name a) (default "" agent))
                          (apps (pending w))
                   else None) = None).
    { destruct Hno as [-> | Hno]; [reflexivity |].
      destruct (truthy_str agent); [| reflexivity].
      destruct (List.find _ (apps (pending w))) as [a'|] eqn:Hf; [| reflexivity].
      apply List.find_some in Hf as [Hin' Hc']. rewrite (Hno a' Hin') in Hc'. discriminate. }
    rewrite Hby.
    pose proof (newest_spec (List.filter (fun a => a_owner_id a =? u_id user_obj)
                               (apps (pending w)))) as Hn.
    destruct (newest _) as [a'|].
    + destruct Hn as [Hin Hmax]. apply List.filter_In in Hin as [Hin Hown].
      apply N.eqb_eq in Hown. repeat split; [exact Hin | exact Hown |].
      intros b Hb Hbo. apply Hmax. apply List.filter_In. split; [exact Hb |].
      apply N.eqb_eq. exact Hbo.
    + intros b Hb Hbo.
      assert (Hin : In b (List.filter (fun a => a_owner_id a =? u_id user_obj)
                            (apps (pending w)))).
      { apply List.filter_In. split; [exact Hb | apply N.eqb_eq; exact Hbo]. }
      rewrite Hn in Hin. exact Hin.
Qed.

(** X18: the first event for a memory.  In a clean session, when the id of
    the event parses and names no row, the owner is found, no lookup is
    rejected, an App is resolved and the event carries a content, the call
    commits exactly one new Memory row (that id, the owner, the App, the
    content and metadata of the event, state active) and exactly one access
    log of type [ADD] for that memory and App; no history row is written. *)
Theorem sync_first_event (P : Platform) (cat : option string -> Outcome (list string))
    (result : SyncResult) (user_id : string) (agent_id : option string)
    (u : UUID) (user_obj : User) (app : App) (w : World) :
  clean w ->
  event_uuid P result = Some u ->
  find_memory u (pending w) = None ->
  lookup_user P (pending w) user_id = Some user_obj ->
  rejected P result agent_id = false ->
  choose_app (pending w) result agent_id user_obj = Some app ->
  r_memory result <> None ->
  exists w',
    _sync_memory_to_pg P cat result user_id agent_id w = (Ret tt, w')
    /\ clean w'
    /\ memories (committed w')
       = memories (committed w)
         ++ [{| m_id := u; m_user_id := u_id user_obj; m_app_id := Some (a_id app);
                m_content := r_memory result;
                m_metadata := default [] (r_metadata result); m_state := active;
                m_archived_at := None; m_deleted_at := None |}]
    /\ memory_access_logs (committed w')
       = memory_access_logs (committed w)
         ++ [{| l_id := uuid4_at P (uuid_draws w); l_memory_id := u;
                l_app_id := Some (a_id app); l_access_type := "ADD";
                l_metadata := [("agent_id", effective_agent_id result agent_id);
                               ("source", Some "mcp_tool");
                               ("event", Some (default "ADD" (r_event result)))] |}]
    /\ memory_status_history (committed w') = memory_status_history (committed w).
Proof.
  intros Hc Hu Hfind Huser Hrej Happ Hcontent.
  pose proof Hc as (Hi & Hp & Hs).
  pose proof (query_memory_by_id_text_run P result w Hi) as Hq.
  pose proof Hu as Hu'. unfold event_uuid in Hu'.
  destruct (r_id result) as [s|] eqn:Hid; [| discriminate].
  rewrite Hu', Hfind in Hq. rewrite <- Hid in Hq.
  pose proof (create_if_absent_run P result user_id agent_id w Hc) as Hcreate.
  rewrite Huser, Hrej, Hu, Happ in Hcreate. cbv zeta in Hcreate.
  set (agent := effective_agent_id result agent_id) in *.
  set (row := new_row result u user_obj (Some app)) in *.
  assert (Hrow : schema_ok (add_memory row (pending w)) = true).
  { rewrite schema_ok_add_memory, Hs. unfold row_ok, row, new_row. simpl.
    destruct (r_memory result); [reflexivity | congruence]. }
  rewrite Hrow in Hcreate.
  destruct (created_facts P result agent row (Some app) w Hrow) as (Hc1 & Hm1 & _ & Hh1).
  rewrite (sync_created P result user_id agent_id cat w agent row _ Hq Hcreate).
  destruct (categorize_and_update_same P cat result agent row _ Hc1 eq_refl)
    as (w2 & -> & Hc2 & (_ & _ & Hm & _ & Hh & Hl) & _).
  exists w2. cbn [snd]. split; [reflexivity |]. split; [exact Hc2 |].
  destruct Hc2 as (_ & Hp2 & _). rewrite <- Hp2, <- Hp.
  split; [rewrite Hm, Hm1; reflexivity |].
  split; [rewrite Hl; reflexivity |].
  rewrite Hh, Hh1. reflexivity.
Qed.

(** X19: an event of an owner that the database does not know.  When the
    id of the event parses and names no row, and no user has the given
    string as primary key, as [user_id] or as email, the call returns and the
    session is exactly as it was: nothing is created, and the categorization
    collaborator is not consulted. *)
Theorem sync_unknown_owner (P : Platform) (cat : option string -> Outcome (list string))
    (result : SyncResult) (user_id : string) (agent_id : option string)
    (u : UUID) (w : World) :
  inactive w = false ->
  event_uuid P result = Some u ->
  find_memory u (pending w) = None ->
  (forall x, In x (users (pending w)) ->
     UUID_of_string P user_id <> Some (u_id x)
     /\ u_user_id x <> user_id
     /\ u_email x <> Some user_id) ->
  _sync_memory_to_pg P cat result user_id agent_id w = (Ret tt, w).
Proof.
  intros Hi Hu Hfind Hnone.
  pose proof (query_memory_by_id_text_run P result w Hi) as Hq.
  pose proof Hu as Hu'. unfold event_uuid in Hu'.
  destruct (r_id result) as [s|] eqn:Hid; [| discriminate].
  rewrite Hu', Hfind in Hq. rewrite <- Hid in Hq.
  assert (Hfail : forall p, (forall x, In x (users (pending w)) -> p x = false) ->
                    List.find p (users (pending w)) = None).
  { intros p Hp. destruct (List.find p (users (pending w))) as [x|] eqn:E; [| reflexivity].
    apply List.find_some in E as [Hin Hx]. rewrite (Hp x Hin) in Hx. discriminate. }
  assert (Huser : lookup_user P (pending w) user_id = None).
  { unfold lookup_user.
    assert (H1 : match UUID_of_string P user_id with
                 | Some user_uuid => List.find (fun x => u_id x =? user_uuid) (users (pending w))
                 | None => None
                 end = None).
    { destruct (UUID_of_string P user_id) as [k|] eqn:Ek; [| reflexivity].
      apply Hfail. intros x Hx. apply N.eqb_neq. intros E.
      destruct (Hnone x Hx) as [H _]. apply H. rewrite E. reflexivity. }
    rewrite H1.
    rewrite (Hfail (fun x => String.eqb (u_user_id x) user_id)).
    2:{ intros x Hx. apply String.eqb_neq. apply (Hnone x Hx). }
    apply Hfail. intros x Hx. destruct (Hnone x Hx) as (_ & _ & He).
    destruct (u_email x) as [e|]; [| reflexivity]. simpl.
    apply String.eqb_neq. congruence. }
  apply (sync_not_created P result user_id agent_id cat w agent_id Hq).
  unfold create_if_absent. rewrite run_bind, find_user_run by exact Hi.
  rewrite Huser. reflexivity.
Qed.

(** One step of the loops of [add_memories]. *)
Lemma sync_step_returns P cat (call : bool) item user_id agent_id w :
  exists w',
    (if call then _sync_memory_to_pg P cat item user_id agent_id else mret tt) w = (Ret tt, w')
    /\ (inactive w = true -> w' = w).
Proof.
  destruct call.
  - destruct (sync_returns P cat item user_id agent_id w) as [w' Hrun].
    exists w'. split; [exact Hrun |]. intros Hi.
    rewrite (sync_inactive P item user_id agent_id w Hi cat) in Hrun. congruence.
  - exists w. split; [reflexivity | reflexivity].
Qed.

(** In a session that waits for a rollback the loop drops every item. *)
Lemma sync_items_inactive P cat items user_id agent_id w :
  inactive w = true -> sync_items P cat items user_id agent_id w = (Ret tt, w).
Proof.
  intros Hi. induction items as [|item items IH]; [reflexivity |].
  cbn [sync_items]. rewrite run_bind.
  destruct (sync_step_returns P cat (has_id item) item user_id agent_id w)
    as (w1 & Hrun & Hsame).
  rewrite Hrun, (Hsame Hi). exact IH.
Qed.

(** X20: the loops of [add_memories] over the results of the vector store
    never raise, and a session that is waiting for a rollback makes them do
    nothing: every item is dropped and the session is left exactly as it
    was. *)
Theorem sync_items_returns (P : Platform) (cat : option string -> Outcome (list string))
    (items : list SyncResult) (user_id : string) (agent_id : option string) (w : World) :
  (exists w', sync_items P cat items user_id agent_id w = (Ret tt, w')
              /\ (inactive w = true -> w' = w))
  /\ (exists w', sync_results P cat items user_id agent_id w = (Ret tt, w')
                 /\ (inactive w = true -> w' = w)).
Proof.
  split; revert w; induction items as [|item items IH]; intros w;
    try (exists w; split; reflexivity).
  - cbn [sync_items].
    destruct (sync_step_returns P cat (has_id item) item user_id agent_id w)
      as (w1 & Hrun & Hsame).
    destruct (IH w1) as (w' & Hrest & Hsame').
    exists w'. split; [rewrite run_bind, Hrun; exact Hrest |].
    intros Hi. rewrite (Hsame Hi) in *. apply Hsame', Hi.
  - cbn [sync_results]. cbv zeta.
    destruct (sync_step_returns P cat
                ((opt_eqb String.eqb (r_event item) (Some "add") && has_id item)
                 || (opt_eqb String.eqb (r_event item) (Some "update") && has_id item))
                item user_id agent_id w) as (w1 & Hrun & Hsame).
    destruct (IH w1) as (w' & Hrest & Hsame').
    exists w'. split.
    + rewrite run_bind.
      destruct (opt_eqb String.eqb (r_event item) (Some "add")),
        (opt_eqb String.eqb (r_event item) (Some "update")), (has_id item);
        cbn [andb orb] in Hrun; rewrite Hrun; exact Hrest.
    + intros Hi. rewrite (Hsame Hi) in *. apply Hsame', Hi.
Qed.

(** X21: one bad item loses the rest of the batch.  On a backend that
    rejects the comparison of a UUID column with a string that is no UUID,
    an item with such an id leaves the session waiting for a rollback that
    the reconciler never issues, so no later item of the same request is
    stored: whatever follows, the committed database is unchanged. *)
Theorem sync_items_poisoned (P : Platform) (cat : option string -> Outcome (list string))
    (bad : SyncResult) (rest : list SyncResult) (s user_id : string)
    (agent_id : option string) (w : World) :
  strict_uuid_compare P = true ->
  r_id bad = Some s ->
  UUID_of_string P s = None ->
  inactive w = false ->
  sync_items P cat (bad :: rest) user_id agent_id w = (Ret tt, set_inactive true w).
Proof.
  intros Hstrict Hid Hbad Hi. cbn [sync_items]. unfold has_id. rewrite Hid.
  cbn [is_null negb]. rewrite run_bind.
  assert (Hq : query_memory_by_id_text P (r_id bad) w = (Raise DataError, set_inactive true w)).
  { rewrite query_memory_by_id_text_run by exact Hi. rewrite Hid, Hbad, Hstrict. reflexivity. }
  rewrite (sync_lookup_raises P bad user_id agent_id cat w _ _ Hq).
  apply sync_items_inactive. reflexivity.
Qed.

End ReconcilerMore.

(** ** Categorization: the keyword fallback and the retry loop *)

Module CategorizationFacts.

Lemma keyword_loop_filter lower text_lower items :
  forall acc,
    keyword_loop lower text_lower items acc
    = acc ++ List.map fst
               (List.filter
                  (fun kv => List.existsb
                               (fun keyword => str_contains text_lower (lower keyword)) (snd kv))
                  items).
Proof.
  induction items as [|[category keywords] items IH]; intros acc; cbn [keyword_loop].
  - simpl. rewrite List.app_nil_r. reflexivity.
  - rewrite IH. cbn [List.filter snd].
    destruct (List.existsb _ keywords); [| reflexivity].
    cbn [List.map fst]. rewrite <- List.app_assoc. reflexivity.
Qed.

Lemma NoDup_map_filter {A B} (f : A -> B) p (l : list A) :
  List.NoDup (List.map f l) -> List.NoDup (List.map f (List.filter p l)).
Proof.
  induction l as [|x l IH]; simpl; intros H; [constructor |].
  inversion H as [|? ? Hx Hl]; subst.
  destruct (p x); [| apply IH; exact Hl].
  simpl. constructor; [| apply IH; exact Hl].
  intros Hin. apply Hx. apply in_map_iff in Hin as (y & Hy & Hin).
  apply in_map_iff. exists y. split; [exact Hy |].
  apply List.filter_In in Hin. apply Hin.
Qed.

Lemma keys_distinct : List.NoDup (List.map fst CATEGORY_KEYWORDS).
Proof.
  apply (NoDup_count_occ' String.string_dec). intros x Hx.
  simpl in Hx. repeat (destruct Hx as [<- | Hx]; [vm_compute; reflexivity |]). destruct Hx.
Qed.

Lemma keys_predefined c :
  In c (List.map fst CATEGORY_KEYWORDS) -> In c PREDEFINED_CATEGORIES /\ c <> "其他".
Proof.
  intros Hc. simpl in Hc.
  repeat (destruct Hc as [<- | Hc]; [split; [simpl; tauto | discriminate] |]). destruct Hc.
Qed.

Lemma keyword_based_categorization_nonempty_aux lower text :
  keyword_based_categorization lower text <> [].
Proof.
  unfold keyword_based_categorization.
  destruct (keyword_loop lower (lower text) CATEGORY_KEYWORDS []); discriminate.
Qed.

(** X22: the keyword fallback.  Whatever the text, the result is not empty,
    has no duplicates and holds predefined categories only, in the order of
    the table; a category of the table is in it exactly when one of its
    keywords occurs in the lower-cased text; and ["其他"] is the result, alone,
    exactly when no keyword of any category occurs. *)
Theorem keyword_based_categorization_labels (lower : string -> string) (text : string) :
  let matches (keywords : list string) :=
    exists keyword, In keyword keywords
                    /\ str_contains (lower text) (lower keyword) = true in
  let result := keyword_based_categorization lower text in
  result <> []
  /\ NoDup result
  /\ (forall c, In c result -> In c PREDEFINED_CATEGORIES)
  /\ (forall category keywords, In (category, keywords) CATEGORY_KEYWORDS ->
        (In category result <-> matches keywords))
  /\ (In "其他" result <-> result = ["其他"])
  /\ (result = ["其他"]
      <-> forall category keywords, In (category, keywords) CATEGORY_KEYWORDS ->
            ~ matches keywords).
Proof.
  cbv zeta. unfold keyword_based_categorization.
  rewrite keyword_loop_filter. cbn [app].
  set (p := fun kv : string * list string =>
              List.existsb (fun keyword => str_contains (lower text) (lower keyword)) (snd kv)).
  set (found := List.map fst (List.filter p CATEGORY_KEYWORDS)).
  assert (Hp : forall keywords,
            List.existsb (fun keyword => str_contains (lower text) (lower keyword)) keywords = true
            <-> exists keyword, In keyword keywords
                                /\ str_contains (lower text) (lower keyword) = true).
  { intros keywords. apply existsb_exists. }
  assert (Hfound : forall category keywords, In (category, keywords) CATEGORY_KEYWORDS ->
            (In category found
             <-> exists keyword, In keyword keywords
                                 /\ str_contains (lower text) (lower keyword) = true)).
  { intros category keywords Hin. rewrite <- Hp. unfold found. rewrite in_map_iff. split.
    - intros ([c ks] & Hc & Hf). simpl in Hc. subst c.
      apply List.filter_In in Hf as [Hin' Hm].
      assert (ks = keywords); [| subst; exact Hm].
      clear - Hin Hin' . pose proof keys_distinct as Hnd.
      revert Hin Hin' Hnd. generalize CATEGORY_KEYWORDS. intros l.
      induction l as [|[c0 k0] l IH]; simpl; [tauto |].
      intros H1 H2 Hnd. inversion Hnd as [|? ? Hx Hl]; subst.
      destruct H1 as [H1 | H1], H2 as [H2 | H2].
      + congruence.
      + exfalso. apply Hx. inversion H1; subst. apply in_map_iff.
        exists (category, ks). split; [reflexivity | exact H2].
      + exfalso. apply Hx. inversion H2; subst. apply in_map_iff.
        exists (category, keywords). split; [reflexivity | exact H1].
      + apply IH; assumption.
    - intros Hm. exists (category, keywords). split; [reflexivity |].
      apply List.filter_In. split; [exact Hin | exact Hm]. }
  assert (Hkeys : forall c, In c found -> In c (List.map fst CATEGORY_KEYWORDS)).
  { intros c Hc. unfold found in Hc. apply in_map_iff in Hc as (kv & <- & Hf).
    apply List.filter_In in Hf as [Hin _]. apply in_map. exact Hin. }
  assert (Hnd : NoDup found) by (apply NoDup_ListNoDup, NoDup_map_filter, keys_distinct).
  assert (Hother : ~ In "其他" found).
  { intros H. apply Hkeys, keys_predefined in H. apply H. reflexivity. }
  assert (Hempty : found = [] <->
            forall category keywords, In (category, keywords) CATEGORY_KEYWORDS ->
              ~ exists keyword, In keyword keywords
                                /\ str_contains (lower text) (lower keyword) = true).
  { split.
    - intros E category keywords Hin Hm. apply (Hfound category keywords Hin) in Hm.
      rewrite E in Hm. exact Hm.
    - intros Hno. destruct found as [|c l] eqn:E; [reflexivity |]. exfalso.
      assert (Hc : In c found) by (rewrite E; left; reflexivity).
      pose proof Hc as Hc'. unfold found in Hc'.
      apply in_map_iff in Hc' as ([c' ks] & Hfst & Hf). simpl in Hfst. subst c'.
      apply List.filter_In in Hf as [Hin _].
      rewrite <- E in Hfound.
      apply (Hno c ks Hin). apply (Hfound c ks Hin). exact Hc. }
  destruct found as [|c l] eqn:E.
  - split; [discriminate |].
    split; [apply NoDup_singleton |].
    split; [intros c [<- | []]; simpl; tauto |].
    split.
    { intros category keywords Hin. rewrite <- (Hfound category keywords Hin).
      split; [| intros []].
      intros [<- | []]. apply (in_map fst) in Hin. apply keys_predefined in Hin.
      exfalso. apply Hin. reflexivity. }
    split; [split; [reflexivity | left; reflexivity] |].
    split; [intros _; apply Hempty; reflexivity | reflexivity].
  - split; [discriminate |]. split; [exact Hnd |].
    split; [intros x Hx; apply Hkeys, keys_predefined in Hx; apply Hx |].
    split; [exact Hfound |].
    split.
    + split; [intros H; exfalso; exact (Hother H) |].
      intros H. exfalso. apply Hother. rewrite H. left. reflexivity.
    + split.
      * intros H. exfalso. apply Hother. rewrite H. left. reflexivity.
      * intros Hno. apply Hempty in Hno. discriminate.
Qed.

(** The retry loop returns the first usable answer. *)
Lemma llm_loop_first llm_attempt attempts memory :
  match llm_loop llm_attempt attempts memory with
  | Some l =>
      l <> []
      /\ exists before attempt after,
           attempts = before ++ attempt :: after
           /\ llm_attempt attempt memory = Ret (Some l)
           /\ forall a, In a before ->
                forall c cs, llm_attempt a memory <> Ret (Some (c :: cs))
  | None => forall a, In a attempts -> forall c cs, llm_attempt a memory <> Ret (Some (c :: cs))
  end.
Proof.
  induction attempts as [|a attempts IH]; cbn [llm_loop]; [intros a [] |].
  destruct (llm_attempt a memory) as [[[|c cs]|]|e] eqn:Ha;
    try (destruct (llm_loop llm_attempt attempts memory) as [l|];
         [ destruct IH as (Hl & before & attempt & after & -> & Hat & Hb);
           split; [exact Hl |]; exists (a :: before), attempt, after;
           split; [reflexivity |]; split; [exact Hat |];
           intros x [<- | Hx]; [rewrite Ha; discriminate | apply Hb, Hx]
         | intros x [<- | Hx]; [rewrite Ha; discriminate | apply IH, Hx] ]).
  split; [discriminate |]. exists [], a, attempts.
  split; [reflexivity |]. split; [exact Ha |]. intros x [].
Qed.

(** X23: [get_categories_for_memory] on a text.  It always returns, and
    never an empty list.  With a client, the answer is the categories of the
    first of at most three attempts (numbered 0, 1, 2) that yields a
    non-empty list, an attempt that raises or yields nothing usable being
    skipped; without a client, or when none of the three does, the answer is
    that of the keyword fallback.  No fourth attempt is ever made. *)
Theorem get_categories_for_memory_answer (lower : string -> string)
    (client_available : bool)
    (llm_attempt : nat -> option string -> Outcome (option (list string)))
    (text : string) :
  exists categories,
    get_categories_for_memory lower client_available llm_attempt (Some text) = Ret categories
    /\ categories <> []
    /\ ((client_available = true
         /\ exists attempt, (attempt < 3)%nat
              /\ llm_attempt attempt (Some text) = Ret (Some categories)
              /\ forall a, (a < attempt)%nat ->
                   forall c cs, llm_attempt a (Some text) <> Ret (Some (c :: cs)))
        \/ ((client_available = false
             \/ forall a, (a < 3)%nat ->
                  forall c cs, llm_attempt a (Some text) <> Ret (Some (c :: cs)))
            /\ categories = keyword_based_categorization lower text)).
Proof.
  unfold get_categories_for_memory.
  assert (Hkw : keyword_based_categorization lower text <> [])
    by apply (keyword_based_categorization_nonempty_aux lower text).
  destruct client_available.
  - change (List.seq 0 (max_retries + 1)) with [0; 1; 2]%nat.
    pose proof (llm_loop_first llm_attempt [0; 1; 2]%nat (Some text)) as H.
    destruct (llm_loop llm_attempt [0; 1; 2]%nat (Some text)) as [l|].
    + destruct H as (Hl & before & attempt & after & Heq & Hat & Hb).
      exists l. split; [reflexivity |]. split; [exact Hl |]. left.
      split; [reflexivity |]. exists attempt.
      assert (Hpos : (attempt < 3)%nat /\ forall a, (a < attempt)%nat -> In a before).
      { destruct before as [|b0 [|b1 [|b2 before]]]; simpl in Heq; inversion Heq; subst.
        - split; [lia |]. intros a Ha. lia.
        - split; [lia |]. intros a Ha. left. lia.
        - split; [lia |]. intros a Ha. simpl. lia.
        - destruct before; discriminate. }
      split; [apply Hpos |]. split; [exact Hat |].
      intros a Ha. apply Hb, Hpos, Ha.
    + exists (keyword_based_categorization lower text).
      split; [reflexivity |]. split; [exact Hkw |]. right.
      split; [| reflexivity]. right. intros a Ha. apply H. simpl. lia.
  - exists (keyword_based_categorization lower text).
    split; [reflexivity |]. split; [exact Hkw |]. right.
    split; [left; reflexivity | reflexivity].
Qed.



End CategorizationFacts.

(** ** [update_memory_categories] *)

Module CategoriesEndpointFacts.
Import Session SessionFacts StateFacts CategorizeFacts CategorizeLinks ReconcilerCreate.

Lemma links_of_insert mid x cid d :
  links_of x (insert_memory_category mid cid d)
  = links_of x d ++ (if mid =? x then [cid] else []).
Proof.
  unfold links_of, insert_memory_category. simpl.
  rewrite List.filter_app, List.map_app. simpl.
  destruct (mid =? x); reflexivity.
Qed.

Lemma links_of_add_category x c d : links_of x (add_category c d) = links_of x d.
Proof. reflexivity. Qed.

Lemma existsb_pair_links (mid cid : UUID) d :
  List.existsb (fun r : UUID * UUID => (fst r =? mid) && (snd r =? cid)) (memory_categories d)
  = true <-> In cid (links_of mid d).
Proof.
  unfold links_of. rewrite existsb_exists, in_map_iff. split.
  - intros ([a b] & Hin & H). apply andb_true_iff in H as [H1 H2].
    apply N.eqb_eq in H1, H2. simpl in *. subst.
    exists (mid, cid). split; [reflexivity |]. apply List.filter_In. split; [exact Hin |].
    simpl. apply N.eqb_refl.
  - intros ([a b] & Hs & Hin). simpl in Hs. subst b.
    apply List.filter_In in Hin as [Hin Ha]. simpl in Ha. apply N.eqb_eq in Ha. subst a.
    exists (mid, cid). split; [exact Hin |]. simpl. rewrite !N.eqb_refl. reflexivity.
Qed.

Lemma insert_link_run mid cid w :
  inactive w = false ->
  insert_link mid cid w
  = if List.existsb (fun r : UUID * UUID => (fst r =? mid) && (snd r =? cid))
         (memory_categories (pending w))
    then (Raise IntegrityError, set_inactive true w)
    else (Ret tt, with_pending (insert_memory_category mid cid (pending w)) w).
Proof.
  intros Hi. unfold insert_link. rewrite run_bind, guard_active_run by exact Hi.
  cbv beta iota. rewrite run_bind. unfold gets at 1. cbv beta iota.
  destruct (List.existsb _ (memory_categories (pending w))); reflexivity.
Qed.

Lemma map_injective_on {A B} (f : A -> B) (l : list A) a b :
  List.NoDup (List.map f l) -> In a l -> In b l -> f a = f b -> a = b.
Proof.
  induction l as [|x l IH]; simpl; [tauto |].
  intros Hnd Ha Hb E. inversion Hnd as [|? ? Hx Hl]; subst.
  destruct Ha as [-> | Ha], Hb as [-> | Hb]; [reflexivity | | | apply IH; assumption].
  - exfalso. apply Hx. rewrite E. apply in_map. exact Hb.
  - exfalso. apply Hx. rewrite <- E. apply in_map. exact Ha.
Qed.

Lemma find_name_facts name (l : list Category) c :
  List.find (fun c => String.eqb (c_name c) name) l = Some c -> In c l /\ c_name c = name.
Proof.
  intros H. apply List.find_some in H as [Hin Hn]. split; [exact Hin |].
  apply String.eqb_eq. exact Hn.
Qed.

(** The category of one name, found or created. *)
Lemma get_or_create_run P name w :
  usable w ->
  List.NoDup (List.map c_id (categories (pending w))) ->
  fresh_category_ids P w ->
  exists c w1,
    (forall k : Category -> M unit,
       (found ← query_first categories (fun c => String.eqb (c_name c) name);
        category ← match found with
                   | Some c => mret c
                   | None =>
                       cid ← uuid4 P;
                       let c := {| c_id := cid; c_name := name |} in
                       stage (add_category c);; flush;; mret c
                   end;
        k category) w = k c w1)
    /\ usable w1 /\ committed w1 = committed w
    /\ except_categories (pending w) (pending w1)
    /\ memory_categories (pending w1) = memory_categories (pending w)
    /\ List.find (fun c => String.eqb (c_name c) name) (categories (pending w1)) = Some c
    /\ List.NoDup (List.map c_id (categories (pending w1)))
    /\ fresh_category_ids P w1
    /\ (forall n c', List.find (fun c => String.eqb (c_name c) n) (categories (pending w)) = Some c' ->
          List.find (fun c => String.eqb (c_name c) n) (categories (pending w1)) = Some c')
    /\ (forall c', In c' (categories (pending w1)) ->
          In c' (categories (pending w)) \/ (c' = c /\ ~ In (c_id c) (List.map c_id (categories (pending w)))))
    /\ (forall c', In c' (categories (pending w)) -> In c' (categories (pending w1))).
Proof.
  intros [Hi Hs] Hnd [Hinj Hfresh].
  destruct (List.find (fun c => String.eqb (c_name c) name) (categories (pending w)))
    as [c|] eqn:Hfind.
  - exists c, w. split.
    { intros k. rewrite run_bind, query_first_run by exact Hi. cbv beta iota.
      rewrite Hfind, run_bind, run_ret. reflexivity. }
    split; [split; assumption |]. split; [reflexivity |].
    split; [apply except_categories_refl |]. split; [reflexivity |].
    split; [exact Hfind |]. split; [exact Hnd |]. split; [split; assumption |].
    split; [tauto |]. split; [left; assumption | tauto].
  - set (c := {| c_id := uuid4_at P (uuid_draws w); c_name := name |}).
    exists c, (with_pending (add_category c (pending w)) (next_draw w)).
    assert (Hnew : ~ In (c_id c) (List.map c_id (categories (pending w)))).
    { apply Hfresh. reflexivity. }
    split.
    { intros k. rewrite run_bind, query_first_run by exact Hi. cbv beta iota.
      rewrite Hfind. rewrite ?run_bind_assoc. repeat mstep.
      rewrite ?run_bind_assoc, run_bind, flush_run by (split; [exact Hi | exact Hs]).
      cbv beta iota. rewrite run_bind, run_ret. reflexivity. }
    split; [split; [exact Hi | exact Hs] |]. split; [reflexivity |].
    split; [repeat split |]. split; [reflexivity |].
    split; [simpl; apply find_snoc_none; [exact Hfind | simpl; apply String.eqb_refl] |].
    split.
    { simpl. rewrite List.map_app. simpl.
      apply List.NoDup_app; [exact Hnd | repeat constructor; intros [] |].
      intros x Hx [<- | []]. exact (Hnew Hx). }
    split.
    { split; [exact Hinj |]. intros n Hn. simpl in Hn. simpl. rewrite List.map_app.
      intros Hin. apply in_app_or in Hin as [Hin | [E | []]].
      - apply (Hfresh n); [lia | exact Hin].
      - simpl in E. apply Hinj in E. lia. }
    split; [intros n c' Hc'; simpl; apply find_snoc_some; exact Hc' |].
    split.
    { intros c' Hc'. simpl in Hc'. apply in_app_or in Hc' as [Hc' | [<- | []]];
        [left; exact Hc' | right; split; [reflexivity | exact Hnew]]. }
    intros c' Hc'. simpl. apply in_or_app. left. exact Hc'.
Qed.

(** The invariant of the loop of [update_memory_categories]. *)
Definition linkable (P : Platform) (mid : UUID) (names : list string) (w : World) : Prop :=
  usable w
  /\ List.NoDup (List.map c_id (categories (pending w)))
  /\ fresh_category_ids P w
  /\ (forall name c, In name names ->
        List.find (fun c => String.eqb (c_name c) name) (categories (pending w)) = Some c ->
        ~ In (c_id c) (links_of mid (pending w)))
  /\ (forall cid, In cid (links_of mid (pending w)) ->
        In cid (List.map c_id (categories (pending w)))).

(** One name of the request: its category is linked, and the invariant
    holds for every other name. *)
Lemma add_category_step P mid name w (others : list string) :
  linkable P mid (name :: others) w ->
  ~ In name others ->
  exists c w2,
    (forall k : M unit,
       (found ← query_first categories (fun c => String.eqb (c_name c) name);
        category ← match found with
                   | Some c => mret c
                   | None =>
                       cid ← uuid4 P;
                       let c := {| c_id := cid; c_name := name |} in
                       stage (add_category c);; flush;; mret c
                   end;
        insert_link mid (c_id category);;
        k) w = k w2)
    /\ linkable P mid others w2
    /\ committed w2 = committed w
    /\ except_categories (pending w) (pending w2)
    /\ links_of mid (pending w2) = links_of mid (pending w) ++ [c_id c]
    /\ (forall x, x <> mid -> links_of x (pending w2) = links_of x (pending w))
    /\ List.find (fun c => String.eqb (c_name c) name) (categories (pending w2)) = Some c
    /\ (forall n c', List.find (fun c => String.eqb (c_name c) n) (categories (pending w)) = Some c' ->
          List.find (fun c => String.eqb (c_name c) n) (categories (pending w2)) = Some c')
    /\ (forall c', In c' (categories (pending w)) -> In c' (categories (pending w2))).
Proof.
  intros (Hu & Hnd & Hfr & Hun & Hsub) Hnot.
  destruct (get_or_create_run P name w Hu Hnd Hfr)
    as (c & w1 & Hk & Hu1 & Hc1 & Hx1 & Hmc1 & Hf1 & Hnd1 & Hfr1 & Hstable & Hout & Hin).
  assert (Hl1 : forall x, links_of x (pending w1) = links_of x (pending w)).
  { intros x. unfold links_of. rewrite Hmc1. reflexivity. }
  assert (Habs : ~ In (c_id c) (links_of mid (pending w1))).
  { rewrite Hl1. destruct (find_name_facts _ _ _ Hf1) as [Hc _].
    destruct (Hout c Hc) as [Hold | [_ Hnew]].
    - destruct (List.find (fun c => String.eqb (c_name c) name) (categories (pending w)))
        as [c0|] eqn:E.
      + pose proof (Hstable name c0 E) as E'. rewrite Hf1 in E'. inversion E'; subst c0.
        apply (Hun name c); [left; reflexivity | exact E].
      + apply (List.find_none _ _ E) in Hold. simpl in Hold.
        destruct (find_name_facts _ _ _ Hf1) as [_ Hn]. rewrite Hn, String.eqb_refl in Hold.
        discriminate.
    - intros Hl. apply Hnew. apply Hsub. exact Hl. }
  assert (Hpair : List.existsb (fun r : UUID * UUID => (fst r =? mid) && (snd r =? c_id c))
                    (memory_categories (pending w1)) = false).
  { apply not_true_is_false. intros H. apply Habs. apply existsb_pair_links. exact H. }
  set (w2 := with_pending (insert_memory_category mid (c_id c) (pending w1)) w1).
  exists c, w2. split.
  { intros k. rewrite (Hk (fun category => insert_link mid (c_id category);; k)).
    rewrite run_bind, insert_link_run by apply Hu1. rewrite Hpair. reflexivity. }
  assert (Hlinks : forall x, links_of x (pending w2)
                             = links_of x (pending w) ++ (if mid =? x then [c_id c] else [])).
  { intros x. unfold w2. cbn [pending with_pending]. rewrite links_of_insert, Hl1. reflexivity. }
  destruct (find_name_facts _ _ _ Hf1) as [Hcin Hcname].
  split.
  { split; [split; [apply Hu1 | apply Hu1] |].
    split; [exact Hnd1 |]. split; [exact Hfr1 |]. split.
    - intros n c' Hn Hfind. cbn [pending with_pending categories insert_memory_category
                                   with_memory_categories w2] in Hfind.
      rewrite Hlinks, N.eqb_refl. intros Hl. apply in_app_or in Hl as [Hl | [E | []]].
      + destruct (List.find (fun c => String.eqb (c_name c) n) (categories (pending w)))
          as [c0|] eqn:E.
        * pose proof (Hstable n c0 E) as E'. rewrite Hfind in E'. inversion E'; subst c0.
          apply (Hun n c'); [right; exact Hn | exact E | exact Hl].
        * destruct (find_name_facts _ _ _ Hfind) as [Hc' Hn'].
          destruct (Hout c' Hc') as [Hold | [-> _]].
          -- apply (List.find_none _ _ E) in Hold. simpl in Hold.
             rewrite Hn', String.eqb_refl in Hold. discriminate.
          -- apply Hnot. rewrite <- Hcname, Hn'. exact Hn.
      + destruct (find_name_facts _ _ _ Hfind) as [Hc' Hn'].
        assert (c = c') by (apply (map_injective_on c_id _ c c' Hnd1 Hcin Hc' E)).
        subst c'. apply Hnot. rewrite <- Hcname, Hn'. exact Hn.
    - intros cid Hl. rewrite Hlinks, N.eqb_refl in Hl.
      cbn [pending with_pending categories insert_memory_category with_memory_categories w2].
      apply in_app_or in Hl as [Hl | [<- | []]].
      + apply Hsub in Hl. apply in_map_iff in Hl as (c0 & <- & Hc0).
        apply in_map. apply Hin. exact Hc0.
      + apply in_map. exact Hcin. }
  split; [exact Hc1 |].
  split; [destruct Hx1 as (A & B & C & D & E & F); repeat split; assumption |].
  split; [rewrite Hlinks, N.eqb_refl; reflexivity |].
  split.
  { intros x Hx. rewrite Hlinks. apply N.eqb_neq in Hx.
    rewrite N.eqb_sym, Hx. apply List.app_nil_r. }
  split; [exact Hf1 |]. split; [exact Hstable | exact Hin].
Qed.

Lemma add_categories_run P mid names :
  forall w,
    linkable P mid names w -> List.NoDup names ->
    exists w' cids,
      add_categories P mid names w = (Ret tt, w')
      /\ usable w' /\ committed w' = committed w
      /\ except_categories (pending w) (pending w')
      /\ links_of mid (pending w') = links_of mid (pending w) ++ cids
      /\ Forall2 (category_named (pending w')) names cids
      /\ (forall x, x <> mid -> links_of x (pending w') = links_of x (pending w))
      /\ (forall n c', List.find (fun c => String.eqb (c_name c) n) (categories (pending w)) = Some c' ->
            List.find (fun c => String.eqb (c_name c) n) (categories (pending w')) = Some c')
      /\ (forall c', In c' (categories (pending w)) -> In c' (categories (pending w'))).
Proof.
  induction names as [|name names IH]; intros w Hl Hnd.
  - exists w, []. split; [reflexivity |]. split; [apply Hl |]. split; [reflexivity |].
    split; [apply except_categories_refl |]. split; [rewrite List.app_nil_r; reflexivity |].
    split; [constructor |]. split; [reflexivity |]. split; [tauto | tauto].
  - inversion Hnd as [|? ? Hnot Hnd']; subst.
    destruct (add_category_step P mid name w names Hl Hnot)
      as (c & w2 & Hk & Hl2 & Hc2 & Hx2 & Hlinks2 & Hoth2 & Hf2 & Hst2 & Hin2).
    destruct (IH w2 Hl2 Hnd')
      as (w' & cids & Hrun & Hu' & Hc' & Hx' & Hlinks' & Hall' & Hoth' & Hst' & Hin').
    exists w', (c_id c :: cids). split.
    { transitivity (add_categories P mid names w2);
        [exact (Hk (add_categories P mid names)) | exact Hrun]. }
    split; [exact Hu' |]. split; [congruence |].
    split; [eapply except_categories_trans; eassumption |].
    split; [rewrite Hlinks', Hlinks2, <- List.app_assoc; reflexivity |].
    split.
    { constructor; [| exact Hall']. exists c. split; [apply Hst', Hf2 | reflexivity]. }
    split; [intros x Hx; rewrite Hoth', Hoth2 by exact Hx; reflexivity |].
    split; [intros n c' H; apply Hst', Hst2, H |].
    intros c' H. apply Hin', Hin2, H.
Qed.

Lemma links_of_delete mid x d :
  links_of x (delete_links_of mid d) = if x =? mid then [] else links_of x d.
Proof.
  unfold links_of, delete_links_of. cbn [memory_categories with_memory_categories].
  induction (memory_categories d) as [|[a b] l IH]; simpl.
  - destruct (x =? mid); reflexivity.
  - destruct (a =? mid) eqn:Ea; simpl.
    + apply N.eqb_eq in Ea. subst a. destruct (mid =? x) eqn:Ex; simpl.
      * apply N.eqb_eq in Ex. subst x. rewrite N.eqb_refl in *. exact IH.
      * rewrite IH. rewrite N.eqb_sym, Ex. reflexivity.
    + destruct (a =? x) eqn:Ex; simpl.
      * apply N.eqb_eq in Ex. subst a. rewrite Ea in *. rewrite IH. reflexivity.
      * exact IH.
Qed.

Lemma update_memory_categories_start P mid names user m w :
  inactive w = false ->
  find_memory mid (pending w) = Some m ->
  u_is_admin user || (m_user_id m =? u_id user) = true ->
  update_memory_categories P mid names user w
  = (add_categories P mid names;; commit;; refresh)
      (with_pending (delete_links_of mid (pending w)) w).
Proof.
  intros Hi Hfind Hperm. unfold update_memory_categories.
  rewrite run_bind, query_first_run by exact Hi. cbv beta iota.
  fold (find_memory mid (pending w)). rewrite Hfind.
  replace (negb (u_is_admin user) && negb (m_user_id m =? u_id user)) with false
    by (destruct (u_is_admin user), (m_user_id m =? u_id user); simpl in *; congruence).
  rewrite run_bind, execute_run by exact Hi. reflexivity.
Qed.

Lemma linkable_after_delete P mid names w :
  usable w ->
  List.NoDup (List.map c_id (categories (pending w))) ->
  fresh_category_ids P w ->
  linkable P mid names (with_pending (delete_links_of mid (pending w)) w).
Proof.
  intros [Hi Hs] Hnd Hfr.
  split; [split; [exact Hi | exact Hs] |]. split; [exact Hnd |]. split; [exact Hfr |].
  cbn [pending with_pending]. rewrite links_of_delete, N.eqb_refl.
  split; [intros ? ? _ _ [] | intros ? []].
Qed.

(** X25: [update_memory_categories] replaces the categories of a memory.
    For a memory the caller may update and a request that names each
    category once, the call returns and commits; afterwards the memory is
    linked to exactly one category per requested name, in the order of the
    request, each the category that a lookup by that name finds; its former
    links are gone, the links of every other memory are as they were, no
    category row is removed and no other table is touched. *)
Theorem update_memory_categories_replaces (P : Platform) (memory_id : UUID)
    (request_categories : list string) (current_user : User) (w : World) :
  usable w ->
  deletable current_user (pending w) memory_id = true ->
  List.NoDup request_categories ->
  List.NoDup (List.map c_id (categories (pending w))) ->
  fresh_category_ids P w ->
  exists w' cids,
    update_memory_categories P memory_id request_categories current_user w = (Ret tt, w')
    /\ usable w' /\ pending w' = committed w'
    /\ links_of memory_id (committed w') = cids
    /\ Forall2 (category_named (committed w')) request_categories cids
    /\ (forall x, x <> memory_id -> links_of x (committed w') = links_of x (pending w))
    /\ (forall c, In c (categories (pending w)) -> In c (categories (committed w')))
    /\ except_categories (pending w) (committed w').
Proof.
  intros Hu Hd Hnames Hnd Hfr.
  unfold deletable in Hd.
  destruct (find_memory memory_id (pending w)) as [m|] eqn:Hfind; [| discriminate].
  pose proof (linkable_after_delete P memory_id request_categories w Hu Hnd Hfr) as Hl.
  destruct (add_categories_run P memory_id request_categories _ Hl Hnames)
    as (w1 & cids & Hrun & Hu1 & Hc1 & Hx1 & Hlinks & Hall & Hoth & _ & Hin).
  exists (publish w1), cids. split.
  { rewrite (update_memory_categories_start P memory_id request_categories current_user m w
               (proj1 Hu) Hfind Hd).
    rewrite run_bind, Hrun. cbv beta iota.
    rewrite run_bind, commit_run by exact Hu1. cbv beta iota.
    unfold refresh. apply guard_active_run. reflexivity. }
  cbn [committed pending publish].
  cbn [pending with_pending] in Hlinks, Hoth, Hin, Hx1.
  split; [split; [reflexivity | apply Hu1] |]. split; [reflexivity |].
  split; [rewrite Hlinks, links_of_delete, N.eqb_refl; reflexivity |].
  split; [exact Hall |].
  split.
  { intros x Hx. rewrite (Hoth x Hx), links_of_delete.
    apply N.eqb_neq in Hx. rewrite Hx. reflexivity. }
  split; [exact Hin |].
  destruct Hx1 as (A & B & C & D & E & F). repeat split; assumption.
Qed.

(** X26: a request that names a category twice.  The second insert of the
    same pair is refused: the call raises [IntegrityError] (no handler
    turns it into an HTTP error), nothing is committed, and the session is
    left waiting for a rollback. *)
Theorem update_memory_categories_duplicate (P : Platform) (memory_id : UUID)
    (before after : list string) (name : string) (current_user : User) (w : World) :
  usable w ->
  deletable current_user (pending w) memory_id = true ->
  List.NoDup before ->
  In name before ->
  List.NoDup (List.map c_id (categories (pending w))) ->
  fresh_category_ids P w ->
  exists w',
    update_memory_categories P memory_id (before ++ name :: after) current_user w
    = (Raise IntegrityError, w')
    /\ committed w' = committed w
    /\ inactive w' = true.
Proof.
  intros Hu Hd Hnames Hname Hnd Hfr.
  unfold deletable in Hd.
  destruct (find_memory memory_id (pending w)) as [m|] eqn:Hfind; [| discriminate].
  pose proof (linkable_after_delete P memory_id before w Hu Hnd Hfr) as Hl.
  destruct (add_categories_run P memory_id before _ Hl Hnames)
    as (w1 & cids & Hrun & Hu1 & Hc1 & _ & Hlinks & Hall & _).
  assert (Hsplit : forall l k w0,
            add_categories P memory_id (l ++ k) w0
            = (add_categories P memory_id l;; add_categories P memory_id k) w0).
  { induction l as [|x l IH]; intros k w0; [reflexivity |].
    cbn [add_categories app]. rewrite !run_bind.
    destruct (query_first categories (fun c => String.eqb (c_name c) x) w0) as [[found|e] wa];
      [| reflexivity].
    cbv beta iota. rewrite !run_bind.
    match goal with |- context [match ?b wa with _ => _ end] =>
      destruct (b wa) as [[category|e] wb] end; [| reflexivity].
    cbv beta iota. rewrite !run_bind.
    destruct (insert_link memory_id (c_id category) wb) as [[[]|e] wc]; [| reflexivity].
    cbv beta iota. rewrite IH. rewrite run_bind. reflexivity. }
  (* the category of [name] is already linked *)
  assert (Hlinked : exists c,
            List.find (fun c => String.eqb (c_name c) name) (categories (pending w1)) = Some c
            /\ In (c_id c) (links_of memory_id (pending w1))).
  { rewrite Hlinks. cbn [pending with_pending]. rewrite links_of_delete, N.eqb_refl.
    cbn [app]. clear - Hall Hname.
    induction Hall as [|n cid names cids (c & Hf & Hc) Hall IH]; [destruct Hname |].
    destruct Hname as [-> | Hname].
    - exists c. split; [exact Hf | left; symmetry; exact Hc].
    - destruct (IH Hname) as (c' & Hf' & Hin'). exists c'. split; [exact Hf' | right; exact Hin']. }
  destruct Hlinked as (c & Hf & Hin).
  exists (set_inactive true w1). split; [| split; [exact Hc1 | reflexivity]].
  rewrite (update_memory_categories_start P memory_id (before ++ name :: after) current_user m w
             (proj1 Hu) Hfind Hd).
  rewrite run_bind, Hsplit, run_bind, Hrun. cbv beta iota.
  cbn [add_categories].
  rewrite ?run_bind_assoc, run_bind, query_first_run by apply Hu1. cbv beta iota.
  rewrite Hf, run_bind, run_ret. cbv beta iota.
  rewrite run_bind, insert_link_run by apply Hu1.
  apply existsb_pair_links in Hin. rewrite Hin. reflexivity.
Qed.

(** X27: [update_memory_categories] refuses an id that names no memory
    (404) and a memory of somebody else when the caller is no admin (403),
    before deleting any link: nothing is changed. *)
Theorem update_memory_categories_refused (P : Platform) (memory_id : UUID)
    (request_categories : list string) (current_user : User) (w : World) :
  inactive w = false ->
  deletable current_user (pending w) memory_id = false ->
  update_memory_categories P memory_id request_categories current_user w
  = (Raise (HTTPException
              (if is_null (find_memory memory_id (pending w)) then 404 else 403)%nat), w).
Proof.
  intros Hi Hd. unfold update_memory_categories.
  rewrite run_bind, query_first_run by exact Hi. cbv beta iota.
  fold (find_memory memory_id (pending w)). unfold deletable in Hd.
  destruct (find_memory memory_id (pending w)) as [m|]; [| reflexivity].
  replace (negb (u_is_admin current_user) && negb (m_user_id m =? u_id current_user))
    with true
    by (destruct (u_is_admin current_user), (m_user_id m =? u_id current_user);
        simpl in *; congruence).
  reflexivity.
Qed.

End CategoriesEndpointFacts.

(** ** [update_app_details] *)

Module AppDetailsFacts.
Import Session SessionFacts Apps.

Lemma schema_ok_update_app app_id f d : schema_ok (update_app app_id f d) = schema_ok d.
Proof. reflexivity. Qed.

(** X28: [update_app_details].  An id that names no App is answered with
    404 and an App of somebody else, for a caller who is no admin, with 403,
    nothing being changed.  Otherwise the call returns and commits: the App
    has the requested [is_active] flag and keeps its id, owner, name and
    creation time, every App with another id is the row it was, and no other
    table is touched; in particular the memories of a paused App keep their
    state. *)
Theorem update_app_details_flag (app_id : UUID) (is_active : bool) (current_user : User)
    (w : World) :
  usable w ->
  match List.find (fun a => a_id a =? app_id) (apps (pending w)) with
  | None => update_app_details app_id is_active current_user w = (Raise (HTTPException 404), w)
  | Some app =>
      if negb (u_is_admin current_user) && negb (a_owner_id app =? u_id current_user)
      then update_app_details app_id is_active current_user w = (Raise (HTTPException 403), w)
      else
        exists w',
          update_app_details app_id is_active current_user w = (Ret tt, w')
          /\ pending w' = committed w'
          /\ List.find (fun a => a_id a =? app_id) (apps (committed w'))
             = Some (set_is_active is_active app)
          /\ List.map a_id (apps (committed w')) = List.map a_id (apps (pending w))
          /\ (forall a, a_id a <> app_id ->
                (In a (apps (committed w')) <-> In a (apps (pending w))))
          /\ users (committed w') = users (pending w)
          /\ memories (committed w') = memories (pending w)
          /\ categories (committed w') = categories (pending w)
          /\ memory_categories (committed w') = memory_categories (pending w)
          /\ access_controls (committed w') = access_controls (pending w)
          /\ memory_status_history (committed w') = memory_status_history (pending w)
          /\ memory_access_logs (committed w') = memory_access_logs (pending w)
  end.
Proof.
  intros [Hi Hs].
  destruct (List.find (fun a => a_id a =? app_id) (apps (pending w))) as [app|] eqn:Hfind.
  - destruct (negb (u_is_admin current_user) && negb (a_owner_id app =? u_id current_user))
      eqn:Hperm.
    + unfold update_app_details, get_app_or_404.
      rewrite ?run_bind_assoc, run_bind, query_first_run by exact Hi. cbv beta iota.
      rewrite Hfind, run_bind, run_ret. cbv beta iota. rewrite Hperm. reflexivity.
    + exists (publish (with_pending (update_app app_id (set_is_active is_active) (pending w)) w)).
      split.
      { unfold update_app_details, get_app_or_404.
        rewrite ?run_bind_assoc, run_bind, query_first_run by exact Hi. cbv beta iota.
        rewrite Hfind, run_bind, run_ret. cbv beta iota. rewrite Hperm.
        rewrite run_bind, stage_run. cbv beta iota.
        apply commit_run. split; [exact Hi | exact Hs]. }
      cbn [committed pending publish with_pending update_app apps with_apps].
      split; [reflexivity |].
      split.
      { clear - Hfind. induction (apps (pending w)) as [|x l IH]; simpl in *; [discriminate |].
        destruct (a_id x =? app_id) eqn:E.
        - inversion Hfind; subst x. simpl. rewrite E. reflexivity.
        - simpl. rewrite E. apply IH. exact Hfind. }
      split.
      { rewrite List.map_map. apply List.map_ext. intros a.
        destruct (a_id a =? app_id); reflexivity. }
      split.
      { intros a Hne. rewrite in_map_iff. split.
        - intros (x & Hx & Hin). destruct (a_id x =? app_id) eqn:E.
          + apply N.eqb_eq in E. subst a. simpl in Hne. congruence.
          + subst a. exact Hin.
        - intros Hin. exists a. split; [| exact Hin].
          apply N.eqb_neq in Hne. rewrite Hne. reflexivity. }
      repeat split.
  - unfold update_app_details, get_app_or_404.
    rewrite ?run_bind_assoc, run_bind, query_first_run by exact Hi. cbv beta iota.
    rewrite Hfind. reflexivity.
Qed.

End AppDetailsFacts.

(** ** The reconciler: an event for a stored memory *)

Module ReconcilerUpdateMore.
Import Session SessionFacts StateFacts CategorizeFacts CategorizeSpec ReconcilerRun
       ReconcilerCreate ReconcilerStep ReconcilerUpdate ReconcilerCases.

Lemma schema_ok_content_updated result mid text d :
  schema_ok d = true -> r_memory result = Some text ->
  schema_ok (content_updated result mid d) = true.
Proof.
  intros Hs Ht. unfold content_updated.
  assert (H1 : schema_ok (update_memory mid (set_content (r_memory result)) d) = true).
  { apply schema_ok_update_memory; [exact Hs |]. intros x Hx.
    pose proof (schema_ok_row _ _ Hs Hx) as Hr. unfold row_ok in *. simpl.
    apply andb_true_iff in Hr as [Hr _]. rewrite Hr, Ht. reflexivity. }
  destruct (truthy_obj (r_metadata result)); [| exact H1].
  apply schema_ok_update_memory; [exact H1 |]. intros x Hx.
  apply (schema_ok_row _ _ H1 Hx).
Qed.

Lemma content_updated_row result m d :
  find_memory (m_id m) d = Some m ->
  exists m', find_memory (m_id m) (content_updated result (m_id m) d) = Some m'
             /\ m_content m' = r_memory result /\ m_user_id m' = m_user_id m
             /\ m_app_id m' = m_app_id m /\ m_state m' = m_state m.
Proof.
  intros Hfind. unfold content_updated.
  pose proof (find_memory_update_memory (m_id m) (set_content (r_memory result)) d m
                Hfind eq_refl) as H1.
  destruct (truthy_obj (r_metadata result)).
  - eexists. split.
    + apply (find_memory_update_memory (m_id m)
               (set_metadata (default [] (r_metadata result))) _ _ H1). reflexivity.
    + repeat split.
  - eexists. split; [exact H1 | repeat split].
Qed.

Lemma content_updated_tables result mid d :
  memory_access_logs (content_updated result mid d) = memory_access_logs d
  /\ memory_status_history (content_updated result mid d) = memory_status_history d.
Proof. unfold content_updated. destruct (truthy_obj (r_metadata result)); split; reflexivity. Qed.

(** X29: an event for a memory that is stored with another content.  In a
    clean session, when the event carries a content, the call returns with
    everything committed: the row has the content of the event (and its
    metadata, when the event carries a non-empty one) and keeps its owner,
    its App and its state; exactly one access log of type [UPDATE] is
    appended, for this memory and its App, whose metadata holds the agent id
    as passed by the caller, the source and the event name; no history row is
    written and the ids of the Memory table are unchanged. *)
Theorem sync_update_event (P : Platform) (cat : option string -> Outcome (list string))
    (result : SyncResult) (user_id : string) (agent_id : option string)
    (u : UUID) (m : Memory) (text : string) (w : World) :
  clean w ->
  event_uuid P result = Some u ->
  find_memory u (pending w) = Some m ->
  r_memory result = Some text ->
  m_content m <> Some text ->
  exists w' lid m',
    _sync_memory_to_pg P cat result user_id agent_id w = (Ret tt, w')
    /\ clean w'
    /\ memories (committed w') = memories (content_updated result u (committed w))
    /\ find_memory u (committed w') = Some m'
    /\ m_content m' = Some text /\ m_user_id m' = m_user_id m
    /\ m_app_id m' = m_app_id m /\ m_state m' = m_state m
    /\ memory_access_logs (committed w')
       = memory_access_logs (committed w)
         ++ [{| l_id := lid; l_memory_id := u; l_app_id := m_app_id m;
                l_access_type := "UPDATE";
                l_metadata := [("agent_id", agent_id); ("source", Some "mcp_tool");
                               ("event", Some (default "UPDATE" (r_event result)))] |}]
    /\ memory_status_history (committed w') = memory_status_history (committed w).
Proof.
  intros Hc Hu Hfind Htext Hne.
  pose proof Hc as (Hi & Hp & Hs).
  destruct (find_memory_In _ _ _ Hfind) as [Hin Hmid].
  assert (Hq : query_memory_by_id_text P (r_id result) w = (Ret (Some m), w)).
  { rewrite query_memory_by_id_text_run by exact Hi. unfold event_uuid in Hu.
    destruct (r_id result) as [s|]; [| discriminate]. rewrite Hu, Hfind. reflexivity. }
  rewrite (sync_found P result user_id agent_id cat w m Hq).
  destruct (categorize_memory_clean P cat m w Hc)
    as (w2 & Hrun & (Hi2 & Hp2 & Hs2) & (_ & _ & Hmem & _ & Hh2 & Hl2) & _).
  assert (Hfind2 : find_memory (m_id m) (pending w2) = Some m).
  { unfold find_memory. rewrite Hmem, Hmid. exact Hfind. }
  destruct (m_app_id m) as [app_id|] eqn:Happ.
  2:{ pose proof (schema_ok_row _ _ Hs Hin) as Hr. unfold row_ok in Hr.
      rewrite Happ in Hr. discriminate. }
  set (d3 := content_updated result (m_id m) (pending w2)).
  assert (Hs3 : schema_ok d3 = true) by (apply (schema_ok_content_updated _ _ text); assumption).
  destruct (content_updated_row result m (pending w2) Hfind2)
    as (m' & Hf' & Hc' & Hu' & Ha' & Hst').
  fold d3 in Hf'.
  destruct (content_updated_tables result (m_id m) (pending w2)) as [Hl3 Hh3].
  fold d3 in Hl3, Hh3.
  set (log := {| l_id := uuid4_at P (uuid_draws w2); l_memory_id := m_id m;
                 l_app_id := Some app_id; l_access_type := "UPDATE";
                 l_metadata := log_metadata agent_id result "UPDATE" |}).
  assert (Hrun' : categorize_and_update P cat result agent_id m w
                  = (Ret tt, publish (with_pending (add_access_log log d3) (next_draw w2)))).
  { unfold categorize_and_update. rewrite run_bind, Hrun. cbv beta iota.
    replace (negb (opt_eqb String.eqb (m_content m) (r_memory result))) with true.
    2:{ symmetry. apply negb_true_iff. apply not_true_is_false.
        intros H. apply Hne. rewrite <- Htext. apply opt_eqb_string_eq. exact H. }
    rewrite <- run_bind_assoc, run_bind, stage_content_updated. cbv beta iota.
    fold d3. rewrite run_bind, commit_run by (split; [exact Hi2 | exact Hs3]).
    cbv beta iota. rewrite Happ. repeat mstep. rewrite commit_run; [reflexivity |].
    split; [reflexivity |]. cbn [pending with_pending publish next_draw].
    rewrite schema_ok_add_access_log by reflexivity. exact Hs3. }
  rewrite Hrun'. cbn [snd].
  exists (publish (with_pending (add_access_log log d3) (next_draw w2))),
    (uuid4_at P (uuid_draws w2)), m'.
  split; [reflexivity |].
  cbn [committed pending publish with_pending next_draw].
  split.
  { split; [reflexivity |]. split; [reflexivity |].
    cbn [pending publish with_pending].
    rewrite schema_ok_add_access_log by reflexivity. exact Hs3. }
  split.
  { cbn [memories add_access_log with_access_logs]. unfold d3, content_updated.
    rewrite <- Hp, <- Hmid.
    destruct (truthy_obj (r_metadata result)); cbn [memories update_memory with_memories];
      rewrite Hmem; reflexivity. }
  split; [rewrite <- Hmid; exact Hf' |].
  split; [rewrite Hc'; exact Htext |].
  split; [exact Hu' |]. split; [rewrite Ha'; exact Happ |]. split; [exact Hst' |].
  split.
  { cbn [memory_access_logs add_access_log with_access_logs].
    rewrite Hl3, Hl2, <- Hp, <- Hmid. reflexivity. }
  cbn [memory_status_history add_access_log with_access_logs].
  rewrite Hh3, Hh2, <- Hp. reflexivity.
Qed.

(** X30: an event without a content for a stored memory.  In a clean
    session the call returns, but the update it attempts (a NULL content)
    is refused at commit: the Memory table, the access logs and the history
    that are committed stay as they were, and the session is left waiting
    for a rollback that the reconciler does not issue. *)
Theorem sync_update_without_content (P : Platform)
    (cat : option string -> Outcome (list string)) (result : SyncResult)
    (user_id : string) (agent_id : option string) (u : UUID) (m : Memory) (w : World) :
  clean w ->
  event_uuid P result = Some u ->
  find_memory u (pending w) = Some m ->
  r_memory result = None ->
  exists w',
    _sync_memory_to_pg P cat result user_id agent_id w = (Ret tt, w')
    /\ inactive w' = true
    /\ memories (committed w') = memories (committed w)
    /\ memory_access_logs (committed w') = memory_access_logs (committed w)
    /\ memory_status_history (committed w') = memory_status_history (committed w).
Proof.
  intros Hc Hu Hfind Hnone.
  pose proof Hc as (Hi & Hp & Hs).
  destruct (find_memory_In _ _ _ Hfind) as [Hin Hmid].
  assert (Hq : query_memory_by_id_text P (r_id result) w = (Ret (Some m), w)).
  { rewrite query_memory_by_id_text_run by exact Hi. unfold event_uuid in Hu.
    destruct (r_id result) as [s|]; [| discriminate]. rewrite Hu, Hfind. reflexivity. }
  rewrite (sync_found P result user_id agent_id cat w m Hq).
  destruct (categorize_memory_clean P cat m w Hc)
    as (w2 & Hrun & (Hi2 & Hp2 & Hs2) & (_ & _ & Hmem & _ & Hh2 & Hl2) & _).
  assert (Hfind2 : find_memory (m_id m) (pending w2) = Some m).
  { unfold find_memory. rewrite Hmem, Hmid. exact Hfind. }
  assert (Hne : negb (opt_eqb String.eqb (m_content m) (r_memory result)) = true).
  { pose proof (schema_ok_row _ _ Hs Hin) as Hr. unfold row_ok in Hr.
    apply andb_true_iff in Hr as [_ Hr]. rewrite Hnone.
    destruct (m_content m); [reflexivity | discriminate]. }
  set (d3 := content_updated result (m_id m) (pending w2)).
  assert (Hs3 : schema_ok d3 = false).
  { destruct (content_updated_find result m (pending w2) Hfind2) as (m' & Hf' & Hc' & _).
    fold d3 in Hf'. destruct (schema_ok d3) eqn:E; [| reflexivity].
    destruct (find_memory_In _ _ _ Hf') as [Hin' _].
    pose proof (schema_ok_row _ _ E Hin') as Hr. unfold row_ok in Hr.
    rewrite Hc', Hnone in Hr. rewrite andb_false_r in Hr. discriminate. }
  assert (Hrun' : categorize_and_update P cat result agent_id m w
                  = (Raise IntegrityError, set_inactive true (with_pending d3 w2))).
  { unfold categorize_and_update. rewrite run_bind, Hrun. cbv beta iota. rewrite Hne.
    rewrite <- run_bind_assoc, run_bind, stage_content_updated. cbv beta iota.
    fold d3. rewrite run_bind, commit_raise by (try exact Hi2; exact Hs3). reflexivity. }
  rewrite Hrun'. cbn [snd].
  exists (set_inactive true (with_pending d3 w2)). split; [reflexivity |].
  split; [reflexivity |].
  cbn [committed set_inactive with_pending]. rewrite <- Hp2, <- Hp.
  split; [exact Hmem |]. split; [exact Hl2 | exact Hh2].
Qed.

End ReconcilerUpdateMore.

(** ** The further theorems at concrete inputs *)

Module MoreWitness.
Import Scenario.

Lemma update_memory_state_endpoint_all_witness :
  exists w',
    update_memory_state_endpoint (Demo.platform true) [161] "archived" alice
      (Demo.world two_owners) = (Ret 1%nat, w').
Proof.
  destruct (StateEndpointFacts.update_memory_state_endpoint_all (Demo.platform true) [161]
              "archived" archived alice (Demo.world two_owners))
    as (w' & added & H & _).
  - split; reflexivity.
  - reflexivity.
  - repeat constructor.
  - exists w'. exact H.
Defined.

Lemma update_memory_state_endpoint_partial_witness :
  exists w' added,
    update_memory_state_endpoint (Demo.platform true) [161; 163] "deleted" alice
      (Demo.world two_owners) = (Raise (HTTPException 403), w')
    /\ memory_status_history (pending w')
       = memory_status_history (pending (Demo.world two_owners)) ++ added
    /\ length added = 1%nat.
Proof.
  assert (Hall : Forall (fun x => deletable alice (pending (Demo.world two_owners)) x = true)
                   [161]) by (repeat constructor).
  destruct (proj2 (StateEndpointFacts.update_memory_state_endpoint_partial
                     (Demo.platform true) [161] [] 163 "deleted" alice (Demo.world two_owners)
                     (conj eq_refl eq_refl) Hall eq_refl)
              deleted eq_refl)
    as (w' & added & H & Hh & Hl & _).
  exists w', added. split; [exact H |]. split; [exact Hh | exact Hl].
Defined.

Lemma delete_memories_twice_witness :
  exists n w1 w2,
    delete_memories (Demo.platform true) [161; 163] alice (Demo.world two_owners) = (Ret n, w1)
    /\ delete_memories (Demo.platform true) [161; 163] alice w1 = (Ret n, w2).
Proof.
  destruct (StateEndpointFacts.delete_memories_twice (Demo.platform true) [161; 163] alice
              (Demo.world two_owners) (conj eq_refl eq_refl))
    as (n & w1 & w2 & _ & _ & H1 & H2 & _).
  exists n, w1, w2. split; assumption.
Defined.

Lemma categorize_memory_links_witness :
  exists w',
    categorize_memory (Demo.platform true) labels (memory_row 161 1 10 "likes tea")
      (Demo.world stored) = (Ret tt, w')
    /\ linked (committed w') 161 "tea".
Proof.
  destruct (CategorizeLinks.categorize_memory_links (Demo.platform true) labels
              (memory_row 161 1 10 "likes tea") ["tea"] (Demo.world stored)
              (conj eq_refl eq_refl) eq_refl)
    as (w' & H & _ & _ & Hl & _).
  exists w'. split; [exact H |]. apply Hl. left. reflexivity.
Defined.

Lemma categorize_memory_twice_witness :
  exists w1,
    categorize_memory (Demo.platform true) labels (memory_row 161 1 10 "likes tea")
      (Demo.world stored) = (Ret tt, w1)
    /\ categorize_memory (Demo.platform true) labels (memory_row 161 1 10 "likes tea") w1
       = (Ret tt, w1).
Proof.
  apply (CategorizeLinks.categorize_memory_twice (Demo.platform true) labels labels
           (memory_row 161 1 10 "likes tea") ["tea"] ["tea"] (Demo.world stored)
           (conj eq_refl eq_refl) eq_refl eq_refl).
  intros x Hx. exact Hx.
Defined.

Lemma update_memory_content_refused_witness :
  update_memory_content (Demo.platform true) 163 "likes snow" alice (Demo.world two_owners)
  = (Raise (HTTPException 403), Demo.world two_owners).
Proof.
  exact (ContentUpdate.update_memory_content_refused (Demo.platform true) 163 "likes snow"
           alice (Demo.world two_owners) eq_refl eq_refl).
Defined.


Lemma create_memory_persist_new_witness :
  exists w',
    create_memory_persist (Demo.platform true) labels
      "00000000-0000-0000-0000-0000000000a2" "likes coffee" [] true alice kitchen
      (Demo.world stored)
    = (Ret (memory_row 162 1 10 "likes coffee"), w')
    /\ length (memory_status_history (committed w')) = 1%nat.
Proof.
  destruct (CreatePath.create_memory_persist_new (Demo.platform true) labels
              "00000000-0000-0000-0000-0000000000a2" "likes coffee" [] true alice kitchen
              162 (Demo.world stored) (conj eq_refl eq_refl) eq_refl eq_refl)
    as (w' & H & _ & _ & _ & _ & Hh & _).
  exists w'. split; [exact H |]. rewrite Hh. reflexivity.
Defined.

Lemma create_memory_persist_existing_witness :
  fst (create_memory_persist (Demo.platform true) labels
         "00000000-0000-0000-0000-0000000000a1" "likes coffee" [] true bob kitchen
         (Demo.world stored))
  = Ret (memory_row 161 1 10 "likes coffee").
Proof.
  rewrite (proj1 (CreatePath.create_memory_persist_existing (Demo.platform true) labels
                    "00000000-0000-0000-0000-0000000000a1" "likes coffee" [] true bob kitchen
                    161 (memory_row 161 1 10 "likes tea") (Demo.world stored)
                    (conj eq_refl eq_refl) eq_refl eq_refl)).
  reflexivity.
Defined.

Lemma delete_app_refused_witness :
  Apps.delete_app 10 bob (Demo.world shared) = (Raise (HTTPException 403), Demo.world shared).
Proof.
  apply (PurgeMore.delete_app_refused 10 bob (Demo.world shared) eq_refl).
  - reflexivity.
  - discriminate.
Defined.


Lemma delete_app_fk_consistent_witness :
  exists w',
    Apps.delete_app 10 alice
      (Demo.world (with_access_logs
                     [{| l_id := 40; l_memory_id := 161; l_app_id := Some 10;
                         l_access_type := "ADD"; l_metadata := [] |}] two_owners))
    = (Ret tt, w')
    /\ fk_consistent (committed w') = true.
Proof.
  apply (PurgeMore.delete_app_fk_consistent 10 alice kitchen
           (Demo.world (with_access_logs
                          [{| l_id := 40; l_memory_id := 161; l_app_id := Some 10;
                              l_access_type := "ADD"; l_metadata := [] |}] two_owners))
           (conj eq_refl eq_refl) eq_refl eq_refl eq_refl).
  intros l [<- | []] _. exists (memory_row 161 1 10 "likes tea").
  split; [left; reflexivity | split; reflexivity].
Defined.

Lemma resolve_app_choice_witness :
  exists app_obj,
    resolve_app (Demo.platform false) tea (Some "7") alice (Demo.world (base [kitchen; dev7]))
    = (Ret (Some "7", app_obj), Demo.world (base [kitchen; dev7])).
Proof.
  destruct (ReconcilerMore.resolve_app_choice (Demo.platform false) tea (Some "7") alice
              (Demo.world (base [kitchen; dev7])) eq_refl eq_refl)
    as (app_obj & H & _).
  exists app_obj. exact H.
Defined.

Lemma sync_first_event_witness :
  exists w',
    _sync_memory_to_pg (Demo.platform true) labels tea "alice" None (Demo.world (base [kitchen]))
    = (Ret tt, w')
    /\ memories (committed w') = [memory_row 161 1 10 "likes tea"]
    /\ length (memory_access_logs (committed w')) = 1%nat.
Proof.
  destruct (ReconcilerMore.sync_first_event (Demo.platform true) labels tea "alice" None
              161 alice kitchen (Demo.world (base [kitchen])))
    as (w' & H & _ & Hm & Hl & _).
  - repeat split.
  - reflexivity.
  - reflexivity.
  - reflexivity.
  - reflexivity.
  - reflexivity.
  - discriminate.
  - exists w'. split; [exact H |]. split; [exact Hm |]. rewrite Hl. reflexivity.
Defined.

Lemma sync_unknown_owner_witness :
  _sync_memory_to_pg (Demo.platform true) labels tea "carol" None (Demo.world (base [kitchen]))
  = (Ret tt, Demo.world (base [kitchen])).
Proof.
  apply (ReconcilerMore.sync_unknown_owner (Demo.platform true) labels tea "carol" None 161
           (Demo.world (base [kitchen])) eq_refl eq_refl eq_refl).
  intros x [<- | [<- | []]]; repeat split; discriminate.
Defined.

Lemma sync_items_poisoned_witness :
  sync_items (Demo.platform true) labels [malformed; tea] "alice" None
    (Demo.world (base [kitchen]))
  = (Ret tt, Session.set_inactive true (Demo.world (base [kitchen]))).
Proof.
  exact (ReconcilerMore.sync_items_poisoned (Demo.platform true) labels malformed [tea]
           "not-a-uuid" "alice" None (Demo.world (base [kitchen]))
           eq_refl eq_refl eq_refl eq_refl).
Defined.


Lemma demo_fresh_category_ids : fresh_category_ids (Demo.platform true) (Demo.world shared).
Proof.
  split.
  - intros n m H. simpl in H. lia.
  - intros n _ [H | []]. simpl in H. lia.
Defined.

Lemma update_memory_categories_replaces_witness :
  exists w' cids,
    update_memory_categories (Demo.platform true) 161 ["tea"; "drinks"] alice
      (Demo.world shared) = (Ret tt, w')
    /\ links_of 161 (committed w') = cids
    /\ Forall2 (category_named (committed w')) ["tea"; "drinks"] cids.
Proof.
  destruct (CategoriesEndpointFacts.update_memory_categories_replaces (Demo.platform true) 161
              ["tea"; "drinks"] alice (Demo.world shared) (conj eq_refl eq_refl) eq_refl)
    as (w' & cids & H & _ & _ & Hl & Hall & _).
  - repeat constructor; simpl; intuition discriminate.
  - repeat constructor; simpl; tauto.
  - exact demo_fresh_category_ids.
  - exists w', cids. split; [exact H |]. split; [exact Hl | exact Hall].
Defined.

Lemma update_memory_categories_duplicate_witness :
  exists w',
    update_memory_categories (Demo.platform true) 161 ["tea"; "tea"] alice (Demo.world shared)
    = (Raise IntegrityError, w')
    /\ committed w' = committed (Demo.world shared)
    /\ inactive w' = true.
Proof.
  apply (CategoriesEndpointFacts.update_memory_categories_duplicate (Demo.platform true) 161
           ["tea"] [] "tea" alice (Demo.world shared) (conj eq_refl eq_refl) eq_refl).
  - repeat constructor; simpl; tauto.
  - left. reflexivity.
  - repeat constructor; simpl; tauto.
  - exact demo_fresh_category_ids.
Defined.

Lemma update_memory_categories_refused_witness :
  update_memory_categories (Demo.platform true) 163 ["tea"] alice (Demo.world two_owners)
  = (Raise (HTTPException 403), Demo.world two_owners).
Proof.
  exact (CategoriesEndpointFacts.update_memory_categories_refused (Demo.platform true) 163
           ["tea"] alice (Demo.world two_owners) eq_refl eq_refl).
Defined.

Lemma update_app_details_flag_witness :
  exists w',
    update_app_details 10 false alice (Demo.world two_owners) = (Ret tt, w')
    /\ List.find (fun a => a_id a =? 10) (apps (committed w')) = Some (set_is_active false kitchen)
    /\ memories (committed w') = memories two_owners.
Proof.
  pose proof (AppDetailsFacts.update_app_details_flag 10 false alice (Demo.world two_owners)
                (conj eq_refl eq_refl)) as H.
  hnf in H. destruct H as (w' & H & _ & Hf & _ & _ & _ & Hm & _).
  exists w'. split; [exact H |]. split; [exact Hf | exact Hm].
Defined.

Lemma sync_update_event_witness :
  exists w' lid,
    _sync_memory_to_pg (Demo.platform true) labels coffee "alice" None (Demo.world stored)
    = (Ret tt, w')
    /\ find_memory 161 (committed w') = Some (memory_row 161 1 10 "likes coffee")
    /\ memory_access_logs (committed w')
       = [{| l_id := lid; l_memory_id := 161; l_app_id := Some 10;
             l_access_type := "UPDATE";
             l_metadata := [("agent_id", None); ("source", Some "mcp_tool");
                            ("event", Some "update")] |}].
Proof.
  destruct (ReconcilerUpdateMore.sync_update_event (Demo.platform true) labels coffee "alice"
              None 161 (memory_row 161 1 10 "likes tea") "likes coffee" (Demo.world stored))
    as (w' & lid & m' & H & _ & Hm & Hf & _ & _ & _ & _ & Hl & _).
  - repeat split.
  - reflexivity.
  - reflexivity.
  - reflexivity.
  - discriminate.
  - exists w', lid. split; [exact H |]. split; [| exact Hl].
    unfold find_memory. rewrite Hm. reflexivity.
Defined.

Lemma sync_update_without_content_witness :
  exists w',
    _sync_memory_to_pg (Demo.platform true) labels
      {| r_id := Some "00000000-0000-0000-0000-0000000000a1"; r_memory := None;
         r_metadata := None; r_event := Some "update" |}
      "alice" None (Demo.world stored) = (Ret tt, w')
    /\ inactive w' = true
    /\ memories (committed w') = [memory_row 161 1 10 "likes tea"].
Proof.
  destruct (ReconcilerUpdateMore.sync_update_without_content (Demo.platform true) labels
              {| r_id := Some "00000000-0000-0000-0000-0000000000a1"; r_memory := None;
                 r_metadata := None; r_event := Some "update" |}
              "alice" None 161 (memory_row 161 1 10 "likes tea") (Demo.world stored))
    as (w' & H & Hi & Hm & _).
  - repeat split.
  - reflexivity.
  - reflexivity.
  - reflexivity.
  - exists w'. split; [exact H |]. split; [exact Hi | exact Hm].
Defined.

End MoreWitness.
